(** * Verification of the XML backup worker (backup_worker.py)

    A shallow embedding of [CopyHandler], [list_files_windows_style],
    [log_counts] and [start_backup_worker], of [setup_logger] of
    service.py, and the properties of the design specification stated
    over it.

    Modelling conventions.
    - A Python [str] is the [string] of the bytes of its UTF-8 encoding;
      [Unicode] gives its code points, and [repr] works on them.  The
      case mapping [lower] and the digits of the pattern are those of
      ASCII: they are the ones of Python on text of ASCII characters, and
      [lower] followed by the comparison with the suffix .xml is the one
      of Python on every text (the two characters beyond ASCII whose
      lowercase form has an ASCII letter, U+0130 and U+212A, give an i
      and a k).  Statements that depend on them beyond that carry the
      hypothesis [Str.isascii].
    - Python integers are [Z] (or [N] where the code can only produce
      naturals); a float is the rational number [Q] it denotes, which
      leaves out the infinities and NaN.
    - [os.path] is modelled by its POSIX implementation ([posixpath]).
    - The file system is a finite map from paths, as they are spelled, to
      nodes.  Calls that can fail return in an exception monad; everything
      the worker does to the outside (log lines, existence probes, copy
      attempts, sleeps, observer calls) is appended to a trace kept in the
      world.
    - Loops that may not terminate take a fuel argument; fuel exhaustion is
      the distinguished outcome [Diverged]. *)

From Stdlib Require Import String Ascii List ZArith QArith Lia Bool.
From Stdlib Require Import Permutation Sorted DecimalString DecimalZ.
From stdpp Require Import gmap strings.

Local Open Scope string_scope.
Local Open Scope list_scope.
Local Open Scope Z_scope.

(* ================================================================== *)
(** * Python string methods *)
(* ================================================================== *)

Module Str.

Definition is_upper (c : ascii) : bool :=
  let n := N_of_ascii c in ((65 <=? n) && (n <=? 90))%N.

Definition is_digit (c : ascii) : bool :=
  let n := N_of_ascii c in ((48 <=? n) && (n <=? 57))%N.

Definition lower_char (c : ascii) : ascii :=
  if is_upper c then ascii_of_N (N_of_ascii c + 32) else c.

(** [s.lower()] *)
Fixpoint lower (s : string) : string :=
  match s with
  | EmptyString => EmptyString
  | String c s' => String (lower_char c) (lower s')
  end.

(** [s.startswith(t)] *)
Fixpoint startswith (s t : string) {struct t} : bool :=
  match t, s with
  | EmptyString, _ => true
  | String _ _, EmptyString => false
  | String b t', String a s' => Ascii.eqb a b && startswith s' t'
  end.

(** [s.endswith(t)]: [t] is [s] or a suffix of the tail of [s]. *)
Fixpoint endswith (s t : string) : bool :=
  String.eqb s t ||
  match s with
  | EmptyString => false
  | String _ s' => endswith s' t
  end.

(** [c in s] for a single character [c]. *)
Fixpoint contains (c : ascii) (s : string) : bool :=
  match s with
  | EmptyString => false
  | String a s' => Ascii.eqb a c || contains c s'
  end.

(** [s.rfind(c)]: index of the last occurrence, [-1] when there is none. *)
Fixpoint rfind (c : ascii) (s : string) : Z :=
  match s with
  | EmptyString => -1
  | String a s' =>
      let r := rfind c s' in
      if 0 <=? r then r + 1 else if Ascii.eqb a c then 0 else -1
  end.

(** Slices [s[:n]] and [s[n:]] for [0 <= n]. *)
Fixpoint take (n : nat) (s : string) : string :=
  match n, s with
  | S n', String a s' => String a (take n' s')
  | _, _ => EmptyString
  end.

Fixpoint drop (n : nat) (s : string) : string :=
  match n, s with
  | S n', String _ s' => drop n' s'
  | _, _ => s
  end.

(** [s == c * len(s)] *)
Fixpoint all_char (c : ascii) (s : string) : bool :=
  match s with
  | EmptyString => true
  | String a s' => Ascii.eqb a c && all_char c s'
  end.

(** [s.rstrip(c)] and [s.lstrip(c)] *)
Fixpoint rstrip (c : ascii) (s : string) : string :=
  match s with
  | EmptyString => EmptyString
  | String a s' => if all_char c s then EmptyString else String a (rstrip c s')
  end.

Fixpoint lstrip (c : ascii) (s : string) : string :=
  match s with
  | EmptyString => EmptyString
  | String a s' => if Ascii.eqb a c then lstrip c s' else s
  end.

(** [s.split(c)]: never the empty list, the split of the empty string is [['']]. *)
Fixpoint split (c : ascii) (s : string) : list string :=
  match s with
  | EmptyString => [EmptyString]
  | String a s' =>
      match split c s' with
      | [] => [EmptyString]
      | w :: ws => if Ascii.eqb a c then EmptyString :: w :: ws else String a w :: ws
      end
  end.

(** [sep.join(l)] *)
Definition join (sep : string) (l : list string) : string :=
  String.concat sep l.

(** [str(z)] for an integer. *)
Definition of_int (z : Z) : string :=
  NilZero.string_of_int (Z.to_int z).

(** [int(s)] for a string of decimal digits. *)
Fixpoint int_acc (acc : N) (s : string) : N :=
  match s with
  | EmptyString => acc
  | String c s' => int_acc (10 * acc + (N_of_ascii c - 48))%N s'
  end.

Definition to_int (s : string) : N := int_acc 0%N s.

(** Truthiness of a string: [bool(s)]. *)
Definition nonempty (s : string) : bool :=
  match s with EmptyString => false | _ => true end.

(** [s.isascii()] *)
Fixpoint isascii (s : string) : bool :=
  match s with
  | EmptyString => true
  | String c s' => (N_of_ascii c <? 128)%N && isascii s'
  end.

End Str.

(* ================================================================== *)
(** * Characters of a str *)
(* ================================================================== *)

(** The code points of a [str] that is held as the bytes of its UTF-8
    encoding, each with the bytes that spell it; the letters among them
    that Unicode classes as uppercase; and [repr].  A byte that is not
    part of a well-formed sequence stands for the lone surrogate
    U+DC80..U+DCFF, as in the names that [os.listdir] returns for
    undecodable file names.  The tables are those of Unicode 14.0, the
    version of CPython 3.11. *)
Module Unicode.

Definition continuation (c : ascii) : option N :=
  let n := N_of_ascii c in
  if ((128 <=? n) && (n <? 192))%N then Some (n - 128)%N else None.

Definition escaped (n : N) : N := (56320 + n)%N.

Definition two_bytes (n k2 : N) : option N :=
  if ((194 <=? n) && (n <? 224))%N then Some ((n - 192) * 64 + k2)%N else None.

Definition three_bytes (n k2 k3 : N) : option N :=
  let cp := ((n - 224) * 4096 + k2 * 64 + k3)%N in
  if ((224 <=? n) && (n <? 240) && (2048 <=? cp)
      && negb ((55296 <=? cp) && (cp <=? 57343)))%N
  then Some cp else None.

Definition four_bytes (n k2 k3 k4 : N) : option N :=
  let cp := ((n - 240) * 262144 + k2 * 4096 + k3 * 64 + k4)%N in
  if ((240 <=? n) && (n <? 245) && (65536 <=? cp) && (cp <=? 1114111))%N
  then Some cp else None.

Definition bytes1 (c : ascii) : string := String c EmptyString.
Definition bytes2 (c c2 : ascii) : string := String c (bytes1 c2).
Definition bytes3 (c c2 c3 : ascii) : string := String c (bytes2 c2 c3).
Definition bytes4 (c c2 c3 c4 : ascii) : string := String c (bytes3 c2 c3 c4).

Fixpoint spans (s : string) : list (N * string) :=
  match s with
  | EmptyString => []
  | String c s1 =>
      let n := N_of_ascii c in
      let lone := (escaped n, bytes1 c) in
      if (n <? 128)%N then (n, bytes1 c) :: spans s1
      else
        match s1 with
        | String c2 s2 =>
            match continuation c2 with
            | Some k2 =>
                match two_bytes n k2 with
                | Some cp => (cp, bytes2 c c2) :: spans s2
                | None =>
                    match s2 with
                    | String c3 s3 =>
                        match continuation c3 with
                        | Some k3 =>
                            match three_bytes n k2 k3 with
                            | Some cp => (cp, bytes3 c c2 c3) :: spans s3
                            | None =>
                                match s3 with
                                | String c4 s4 =>
                                    match continuation c4 with
                                    | Some k4 =>
                                        match four_bytes n k2 k3 k4 with
                                        | Some cp =>
                                            (cp, bytes4 c c2 c3 c4) :: spans s4
                                        | None => lone :: spans s1
                                        end
                                    | None => lone :: spans s1
                                    end
                                | EmptyString => lone :: spans s1
                                end
                            end
                        | None => lone :: spans s1
                        end
                    | EmptyString => lone :: spans s1
                    end
                end
            | None => lone :: spans s1
            end
        | EmptyString => [lone]
        end
  end.


Definition in_ranges (ranges : list (N * N)) (cp : N) : bool :=
  existsb (fun r : N * N => ((fst r <=? cp) && (cp <=? snd r))%N) ranges.




(** The code points that [str.isprintable] rejects: the categories Cc,
    Cf, Cs, Co, Cn, Zl, Zp and Zs, the space apart. *)
Definition not_printable : list (N * N) :=
  [(0, 31); (127, 160); (173, 173); (888, 889); (896, 899); (907, 907);
   (909, 909); (930, 930); (1328, 1328); (1367, 1368); (1419, 1420);
   (1424, 1424); (1480, 1487); (1515, 1518); (1525, 1541); (1564, 1564);
   (1757, 1757); (1806, 1807); (1867, 1868); (1970, 1983); (2043, 2044);
   (2094, 2095); (2111, 2111); (2140, 2141); (2143, 2143); (2155, 2159);
   (2191, 2199); (2274, 2274); (2436, 2436); (2445, 2446); (2449, 2450);
   (2473, 2473); (2481, 2481); (2483, 2485); (2490, 2491); (2501, 2502);
   (2505, 2506); (2511, 2518); (2520, 2523); (2526, 2526); (2532, 2533);
   (2559, 2560); (2564, 2564); (2571, 2574); (2577, 2578); (2601, 2601);
   (2609, 2609); (2612, 2612); (2615, 2615); (2618, 2619); (2621, 2621);
   (2627, 2630); (2633, 2634); (2638, 2640); (2642, 2648); (2653, 2653);
   (2655, 2661); (2679, 2688); (2692, 2692); (2702, 2702); (2706, 2706);
   (2729, 2729); (2737, 2737); (2740, 2740); (2746, 2747); (2758, 2758);
   (2762, 2762); (2766, 2767); (2769, 2783); (2788, 2789); (2802, 2808);
   (2816, 2816); (2820, 2820); (2829, 2830); (2833, 2834); (2857, 2857);
   (2865, 2865); (2868, 2868); (2874, 2875); (2885, 2886); (2889, 2890);
   (2894, 2900); (2904, 2907); (2910, 2910); (2916, 2917); (2936, 2945);
   (2948, 2948); (2955, 2957); (2961, 2961); (2966, 2968); (2971, 2971);
   (2973, 2973); (2976, 2978); (2981, 2983); (2987, 2989); (3002, 3005);
   (3011, 3013); (3017, 3017); (3022, 3023); (3025, 3030); (3032, 3045);
   (3067, 3071); (3085, 3085); (3089, 3089); (3113, 3113); (3130, 3131);
   (3141, 3141); (3145, 3145); (3150, 3156); (3159, 3159); (3163, 3164);
   (3166, 3167); (3172, 3173); (3184, 3190); (3213, 3213); (3217, 3217);
   (3241, 3241); (3252, 3252); (3258, 3259); (3269, 3269); (3273, 3273);
   (3278, 3284); (3287, 3292); (3295, 3295); (3300, 3301); (3312, 3312);
   (3315, 3327); (3341, 3341); (3345, 3345); (3397, 3397); (3401, 3401);
   (3408, 3411); (3428, 3429); (3456, 3456); (3460, 3460); (3479, 3481);
   (3506, 3506); (3516, 3516); (3518, 3519); (3527, 3529); (3531, 3534);
   (3541, 3541); (3543, 3543); (3552, 3557); (3568, 3569); (3573, 3584);
   (3643, 3646); (3676, 3712); (3715, 3715); (3717, 3717); (3723, 3723);
   (3748, 3748); (3750, 3750); (3774, 3775); (3781, 3781); (3783, 3783);
   (3790, 3791); (3802, 3803); (3808, 3839); (3912, 3912); (3949, 3952);
   (3992, 3992); (4029, 4029); (4045, 4045); (4059, 4095); (4294, 4294);
   (4296, 4300); (4302, 4303); (4681, 4681); (4686, 4687); (4695, 4695);
   (4697, 4697); (4702, 4703); (4745, 4745); (4750, 4751); (4785, 4785);
   (4790, 4791); (4799, 4799); (4801, 4801); (4806, 4807); (4823, 4823);
   (4881, 4881); (4886, 4887); (4955, 4956); (4989, 4991); (5018, 5023);
   (5110, 5111); (5118, 5119); (5760, 5760); (5789, 5791); (5881, 5887);
   (5910, 5918); (5943, 5951); (5972, 5983); (5997, 5997); (6001, 6001);
   (6004, 6015); (6110, 6111); (6122, 6127); (6138, 6143); (6158, 6158);
   (6170, 6175); (6265, 6271); (6315, 6319); (6390, 6399); (6431, 6431);
   (6444, 6447); (6460, 6463); (6465, 6467); (6510, 6511); (6517, 6527);
   (6572, 6575); (6602, 6607); (6619, 6621); (6684, 6685); (6751, 6751);
   (6781, 6782); (6794, 6799); (6810, 6815); (6830, 6831); (6863, 6911);
   (6989, 6991); (7039, 7039); (7156, 7163); (7224, 7226); (7242, 7244);
   (7305, 7311); (7355, 7356); (7368, 7375); (7419, 7423); (7958, 7959);
   (7966, 7967); (8006, 8007); (8014, 8015); (8024, 8024); (8026, 8026);
   (8028, 8028); (8030, 8030); (8062, 8063); (8117, 8117); (8133, 8133);
   (8148, 8149); (8156, 8156); (8176, 8177); (8181, 8181); (8191, 8207);
   (8232, 8239); (8287, 8303); (8306, 8307); (8335, 8335); (8349, 8351);
   (8385, 8399); (8433, 8447); (8588, 8591); (9255, 9279); (9291, 9311);
   (11124, 11125); (11158, 11158); (11508, 11512); (11558, 11558);
   (11560, 11564); (11566, 11567); (11624, 11630); (11633, 11646);
   (11671, 11679); (11687, 11687); (11695, 11695); (11703, 11703);
   (11711, 11711); (11719, 11719); (11727, 11727); (11735, 11735);
   (11743, 11743); (11870, 11903); (11930, 11930); (12020, 12031);
   (12246, 12271); (12284, 12288); (12352, 12352); (12439, 12440);
   (12544, 12548); (12592, 12592); (12687, 12687); (12772, 12783);
   (12831, 12831); (42125, 42127); (42183, 42191); (42540, 42559);
   (42744, 42751); (42955, 42959); (42962, 42962); (42964, 42964);
   (42970, 42993); (43053, 43055); (43066, 43071); (43128, 43135);
   (43206, 43213); (43226, 43231); (43348, 43358); (43389, 43391);
   (43470, 43470); (43482, 43485); (43519, 43519); (43575, 43583);
   (43598, 43599); (43610, 43611); (43715, 43738); (43767, 43776);
   (43783, 43784); (43791, 43792); (43799, 43807); (43815, 43815);
   (43823, 43823); (43884, 43887); (44014, 44015); (44026, 44031);
   (55204, 55215); (55239, 55242); (55292, 63743); (64110, 64111);
   (64218, 64255); (64263, 64274); (64280, 64284); (64311, 64311);
   (64317, 64317); (64319, 64319); (64322, 64322); (64325, 64325);
   (64451, 64466); (64912, 64913); (64968, 64974); (64976, 65007);
   (65050, 65055); (65107, 65107); (65127, 65127); (65132, 65135);
   (65141, 65141); (65277, 65280); (65471, 65473); (65480, 65481);
   (65488, 65489); (65496, 65497); (65501, 65503); (65511, 65511);
   (65519, 65531); (65534, 65535); (65548, 65548); (65575, 65575);
   (65595, 65595); (65598, 65598); (65614, 65615); (65630, 65663);
   (65787, 65791); (65795, 65798); (65844, 65846); (65935, 65935);
   (65949, 65951); (65953, 65999); (66046, 66175); (66205, 66207);
   (66257, 66271); (66300, 66303); (66340, 66348); (66379, 66383);
   (66427, 66431); (66462, 66462); (66500, 66503); (66518, 66559);
   (66718, 66719); (66730, 66735); (66772, 66775); (66812, 66815);
   (66856, 66863); (66916, 66926); (66939, 66939); (66955, 66955);
   (66963, 66963); (66966, 66966); (66978, 66978); (66994, 66994);
   (67002, 67002); (67005, 67071); (67383, 67391); (67414, 67423);
   (67432, 67455); (67462, 67462); (67505, 67505); (67515, 67583);
   (67590, 67591); (67593, 67593); (67638, 67638); (67641, 67643);
   (67645, 67646); (67670, 67670); (67743, 67750); (67760, 67807);
   (67827, 67827); (67830, 67834); (67868, 67870); (67898, 67902);
   (67904, 67967); (68024, 68027); (68048, 68049); (68100, 68100);
   (68103, 68107); (68116, 68116); (68120, 68120); (68150, 68151);
   (68155, 68158); (68169, 68175); (68185, 68191); (68256, 68287);
   (68327, 68330); (68343, 68351); (68406, 68408); (68438, 68439);
   (68467, 68471); (68498, 68504); (68509, 68520); (68528, 68607);
   (68681, 68735); (68787, 68799); (68851, 68857); (68904, 68911);
   (68922, 69215); (69247, 69247); (69290, 69290); (69294, 69295);
   (69298, 69375); (69416, 69423); (69466, 69487); (69514, 69551);
   (69580, 69599); (69623, 69631); (69710, 69713); (69750, 69758);
   (69821, 69821); (69827, 69839); (69865, 69871); (69882, 69887);
   (69941, 69941); (69960, 69967); (70007, 70015); (70112, 70112);
   (70133, 70143); (70162, 70162); (70207, 70271); (70279, 70279);
   (70281, 70281); (70286, 70286); (70302, 70302); (70314, 70319);
   (70379, 70383); (70394, 70399); (70404, 70404); (70413, 70414);
   (70417, 70418); (70441, 70441); (70449, 70449); (70452, 70452);
   (70458, 70458); (70469, 70470); (70473, 70474); (70478, 70479);
   (70481, 70486); (70488, 70492); (70500, 70501); (70509, 70511);
   (70517, 70655); (70748, 70748); (70754, 70783); (70856, 70863);
   (70874, 71039); (71094, 71095); (71134, 71167); (71237, 71247);
   (71258, 71263); (71277, 71295); (71354, 71359); (71370, 71423);
   (71451, 71452); (71468, 71471); (71495, 71679); (71740, 71839);
   (71923, 71934); (71943, 71944); (71946, 71947); (71956, 71956);
   (71959, 71959); (71990, 71990); (71993, 71994); (72007, 72015);
   (72026, 72095); (72104, 72105); (72152, 72153); (72165, 72191);
   (72264, 72271); (72355, 72367); (72441, 72703); (72713, 72713);
   (72759, 72759); (72774, 72783); (72813, 72815); (72848, 72849);
   (72872, 72872); (72887, 72959); (72967, 72967); (72970, 72970);
   (73015, 73017); (73019, 73019); (73022, 73022); (73032, 73039);
   (73050, 73055); (73062, 73062); (73065, 73065); (73103, 73103);
   (73106, 73106); (73113, 73119); (73130, 73439); (73465, 73647);
   (73649, 73663); (73714, 73726); (74650, 74751); (74863, 74863);
   (74869, 74879); (75076, 77711); (77811, 77823); (78895, 82943);
   (83527, 92159); (92729, 92735); (92767, 92767); (92778, 92781);
   (92863, 92863); (92874, 92879); (92910, 92911); (92918, 92927);
   (92998, 93007); (93018, 93018); (93026, 93026); (93048, 93052);
   (93072, 93759); (93851, 93951); (94027, 94030); (94088, 94094);
   (94112, 94175); (94181, 94191); (94194, 94207); (100344, 100351);
   (101590, 101631); (101641, 110575); (110580, 110580); (110588, 110588);
   (110591, 110591); (110883, 110927); (110931, 110947); (110952, 110959);
   (111356, 113663); (113771, 113775); (113789, 113791); (113801, 113807);
   (113818, 113819); (113824, 118527); (118574, 118575); (118599, 118607);
   (118724, 118783); (119030, 119039); (119079, 119080); (119155, 119162);
   (119275, 119295); (119366, 119519); (119540, 119551); (119639, 119647);
   (119673, 119807); (119893, 119893); (119965, 119965); (119968, 119969);
   (119971, 119972); (119975, 119976); (119981, 119981); (119994, 119994);
   (119996, 119996); (120004, 120004); (120070, 120070); (120075, 120076);
   (120085, 120085); (120093, 120093); (120122, 120122); (120127, 120127);
   (120133, 120133); (120135, 120137); (120145, 120145); (120486, 120487);
   (120780, 120781); (121484, 121498); (121504, 121504); (121520, 122623);
   (122655, 122879); (122887, 122887); (122905, 122906); (122914, 122914);
   (122917, 122917); (122923, 123135); (123181, 123183); (123198, 123199);
   (123210, 123213); (123216, 123535); (123567, 123583); (123642, 123646);
   (123648, 124895); (124903, 124903); (124908, 124908); (124911, 124911);
   (124927, 124927); (125125, 125126); (125143, 125183); (125260, 125263);
   (125274, 125277); (125280, 126064); (126133, 126208); (126270, 126463);
   (126468, 126468); (126496, 126496); (126499, 126499); (126501, 126502);
   (126504, 126504); (126515, 126515); (126520, 126520); (126522, 126522);
   (126524, 126529); (126531, 126534); (126536, 126536); (126538, 126538);
   (126540, 126540); (126544, 126544); (126547, 126547); (126549, 126550);
   (126552, 126552); (126554, 126554); (126556, 126556); (126558, 126558);
   (126560, 126560); (126563, 126563); (126565, 126566); (126571, 126571);
   (126579, 126579); (126584, 126584); (126589, 126589); (126591, 126591);
   (126602, 126602); (126620, 126624); (126628, 126628); (126634, 126634);
   (126652, 126703); (126706, 126975); (127020, 127023); (127124, 127135);
   (127151, 127152); (127168, 127168); (127184, 127184); (127222, 127231);
   (127406, 127461); (127491, 127503); (127548, 127551); (127561, 127567);
   (127570, 127583); (127590, 127743); (128728, 128732); (128749, 128751);
   (128765, 128767); (128884, 128895); (128985, 128991); (129004, 129007);
   (129009, 129023); (129036, 129039); (129096, 129103); (129114, 129119);
   (129160, 129167); (129198, 129199); (129202, 129279); (129620, 129631);
   (129646, 129647); (129653, 129655); (129661, 129663); (129671, 129679);
   (129709, 129711); (129723, 129727); (129734, 129743); (129754, 129759);
   (129768, 129775); (129783, 129791); (129939, 129939); (129995, 130031);
   (130042, 131071); (173792, 173823); (177977, 177983); (178206, 178207);
   (183970, 183983); (191457, 194559); (195102, 196607); (201547, 917759);
   (918000, 1114111)]%N.

Definition isprintable (cp : N) : bool := negb (in_ranges not_printable cp).

(** [n] in [width] hexadecimal digits, as in ["%04x" % n]. *)
Definition hex_digit (n : N) : ascii :=
  if (n <? 10)%N then ascii_of_N (48 + n) else ascii_of_N (87 + n).

Fixpoint hex (width : nat) (n : N) : string :=
  match width with
  | O => EmptyString
  | S width' =>
      hex width' (n / 16) +:+ String (hex_digit (n mod 16)) EmptyString
  end.

Definition backslash : ascii := "092"%char.
Definition single_quote : ascii := "039"%char.
Definition double_quote : ascii := "034"%char.

(** One character of [repr(s)] inside the quote [q]: the quote and the
    backslash get a backslash, tab, line feed and carriage return their
    letter, and the other characters that are not printable are spelled
    in two, four or eight hexadecimal digits. *)
Definition escape_char (q : ascii) (cp : N) (bytes : string) : string :=
  if (cp =? N_of_ascii q)%N || (cp =? N_of_ascii backslash)%N
  then String backslash bytes
  else if (cp =? 9)%N then String backslash "t"
  else if (cp =? 10)%N then String backslash "n"
  else if (cp =? 13)%N then String backslash "r"
  else if isprintable cp then bytes
  else if (cp <? 256)%N then String backslash ("x" +:+ hex 2 cp)
  else if (cp <? 65536)%N then String backslash ("u" +:+ hex 4 cp)
  else String backslash ("U" +:+ hex 8 cp).

(** [repr(s)]: single quotes, unless [s] holds one and no double quote. *)
Definition repr (s : string) : string :=
  let q :=
    if Str.contains single_quote s && negb (Str.contains double_quote s)
    then double_quote else single_quote in
  String q (Str.join EmptyString
              (map (fun x : N * string => escape_char q (fst x) (snd x))
                   (spans s))
            +:+ String q EmptyString).


End Unicode.

(* ================================================================== *)
(** * os.path on POSIX (posixpath, genericpath) *)
(* ================================================================== *)

Module posixpath.

Definition sep : ascii := "/"%char.
Definition extsep : ascii := "."%char.
Definition curdir : string := ".".
Definition pardir : string := "..".

(** Index just past the last separator: [p.rfind(sep) + 1]. *)
Definition after_sep (p : string) : nat := Z.to_nat (Str.rfind sep p + 1).

Definition basename (p : string) : string := Str.drop (after_sep p) p.

Definition dirname (p : string) : string :=
  let head := Str.take (after_sep p) p in
  if Str.nonempty head && negb (Str.all_char sep head)
  then Str.rstrip sep head
  else head.

Definition isabs (p : string) : bool := Str.startswith p "/".

(** [join(a, b)] with one component after the first. *)
Definition join (a b : string) : string :=
  if Str.startswith b "/" then b
  else if negb (Str.nonempty a) || Str.endswith a "/" then a +:+ b
  else a +:+ "/" +:+ b.

(** [genericpath._splitext(p, sep, None, extsep)]: the extension starts
    at the last dot of the last component, leading dots of the
    component not counting. *)
Definition splitext (p : string) : string * string :=
  let sepIndex := Str.rfind sep p in
  let dotIndex := Str.rfind extsep p in
  if sepIndex <? dotIndex then
    let leading :=
      Str.take (Z.to_nat (dotIndex - (sepIndex + 1)))
               (Str.drop (Z.to_nat (sepIndex + 1)) p) in
    if Str.all_char extsep leading then (p, EmptyString)
    else (Str.take (Z.to_nat dotIndex) p, Str.drop (Z.to_nat dotIndex) p)
  else (p, EmptyString).

(** The component loop of [normpath]. *)
Fixpoint norm_comps (initial_slashes : nat) (comps new_comps : list string)
  : list string :=
  match comps with
  | [] => new_comps
  | comp :: rest =>
      if String.eqb comp EmptyString || String.eqb comp "." then
        norm_comps initial_slashes rest new_comps
      else if negb (String.eqb comp "..")
              || (Nat.eqb initial_slashes 0 && Nat.eqb (length new_comps) 0)
              || match last new_comps with
                 | Some ".." => true
                 | _ => false
                 end
      then norm_comps initial_slashes rest (new_comps ++ [comp])
      else norm_comps initial_slashes rest (removelast new_comps)
  end.

Definition normpath (path : string) : string :=
  if negb (Str.nonempty path) then "." else
  let initial_slashes :=
    if Str.startswith path "/" then
      if Str.startswith path "//" && negb (Str.startswith path "///")
      then 2%nat else 1%nat
    else 0%nat in
  let comps := norm_comps initial_slashes (Str.split sep path) [] in
  let path' := Str.join "/" comps in
  let path'' := Str.take initial_slashes "//" +:+ path' in
  if Str.nonempty path'' then path'' else ".".

Definition abspath (cwd path : string) : string :=
  normpath (if isabs path then path else join cwd path).

(** Length of the longest common prefix of two component lists. *)
Fixpoint common_len (l1 l2 : list string) : nat :=
  match l1, l2 with
  | a :: l1', b :: l2' => if String.eqb a b then S (common_len l1' l2') else 0%nat
  | _, _ => 0%nat
  end.

Definition components (tail : string) : list string :=
  if Str.nonempty tail then Str.split sep tail else [].

(** [relpath(path, start)] for a non-empty [path]; the caller raises
    [ValueError] on the empty one. *)
Definition relpath_nonempty (cwd path start : string) : string :=
  let start_list := components (Str.lstrip sep (abspath cwd start)) in
  let path_list := components (Str.lstrip sep (abspath cwd path)) in
  let i := common_len start_list path_list in
  let rel_list :=
    repeat pardir (length start_list - i) ++ skipn i path_list in
  match rel_list with
  | [] => curdir
  | _ => Str.join "/" rel_list
  end.

End posixpath.

(* ================================================================== *)
(** * Exceptions, effects, the world *)
(* ================================================================== *)

(** The subclasses of [Exception] the worker can meet.  [str(e)] is the
    message carried by the exception. *)
Inductive exn_class : Type :=
| PermissionError | FileNotFoundError | IsADirectoryError | ValueError
| OverflowError | OSError.

Record exn : Type := Exn { exn_kind : exn_class; exn_str : string }.

(** [isinstance(e, PermissionError)] *)
Definition is_permission_error (e : exn) : bool :=
  match exn_kind e with PermissionError => true | _ => false end.

Inductive node : Type := File (content : string) | Dir.

Inductive level : Type := INFO | WARNING | ERROR.

Inductive effect : Type :=
| Log (lvl : level) (msg : string)              (* logger.info/warning/error *)
| Probe (path : string) (found : bool)          (* os.path.exists *)
| ProbeDir (path : string) (found : bool)       (* os.path.isdir *)
| ListDir (path : string)                       (* os.listdir *)
| Copy2 (src dst : string) (failure : option exn) (* shutil.copy2 *)
| Sleep (secs : Q)                              (* time.sleep *)
| Schedule (path : string) (recursive : bool)   (* observer.schedule *)
| ObserverStart | ObserverStop | ObserverJoin.

(** A failure of [shutil.copy2] that the file system does not show: the
    exception, and how far the copy had come when it was raised.  With
    [None] neither file had been opened for the copy (a lock held by the
    producer, a destination directory that is gone) and the destination
    is left as it was; with [Some k] the destination had been created or
    emptied and the first [k] bytes of the source written to it (a write
    error; with [k] at least the length of the source a failure of the
    final [copystat], which leaves the whole file). *)
Record fault : Type := Fault { fault_exn : exn; fault_written : option nat }.

(** The failure of an attempt that has written nothing. *)
Definition before_writing (e : exn) : fault := Fault e None.

(** [faults] scripts the copy attempts to come: [Some f] makes the next
    attempt fail as [f] says, [None] lets it through to the file
    system. *)
Record world : Type := World {
  fs : gmap string node;
  cwd : string;
  faults : list (option fault);
  trace : list effect
}.

Definition emit (e : effect) (w : world) : world :=
  World (fs w) (cwd w) (faults w) (trace w ++ [e]).

(** The entries of a directory: for each name that [os.listdir] returns,
    whether [os.path.isfile] holds of it. *)
Definition dir_listing : Type := list (string * bool).

(** What the rest of the system looks like from the poll loop, which runs
    for an unbounded time next to the producer of the XML files and to the
    observer thread: the readings of the wall clock, that is what
    [time.time()] returns before the loop, in the test of the [n]-th
    iteration and after the reconciliation of the [n]-th iteration, and
    what listing a directory returns at the [n]-th iteration. *)
Record environment : Type := Environment {
  time_start : Q;
  time_test : nat -> Q;
  time_after : nat -> Q;
  os_listdir : nat -> string -> exn + dir_listing
}.

(** [threading.Event.is_set()] as seen by the [n]-th poll. *)
Definition stop_event : Type := nat -> bool.

(* ------------------------------------------------------------------ *)
(** ** The monad of worker code *)

Inductive outcome (A : Type) : Type :=
| Done (a : A)       (* returned normally *)
| Raised (e : exn)   (* an exception propagates *)
| Diverged.          (* still running when the fuel ran out *)
Arguments Done {A} a.
Arguments Raised {A} e.
Arguments Diverged {A}.

Definition IO (A : Type) : Type := world -> outcome A * world.

Definition ret {A} (a : A) : IO A := fun w => (Done a, w).

Definition raise {A} (e : exn) : IO A := fun w => (Raised e, w).

Definition diverge {A} : IO A := fun w => (Diverged, w).

Definition bind {A B} (m : IO A) (k : A -> IO B) : IO B :=
  fun w =>
    match m w with
    | (Done a, w') => k a w'
    | (Raised e, w') => (Raised e, w')
    | (Diverged, w') => (Diverged, w')
    end.

Notation "'let*' x := m 'in' k" := (bind m (fun x => k))
  (at level 10, x name, m at level 100, k at level 200).
Notation "m >> k" := (bind m (fun _ => k)) (at level 90, right associativity).

(** [try: m / except Exception as e: h e] *)
Definition try_except {A} (m : IO A) (h : exn -> IO A) : IO A :=
  fun w =>
    match m w with
    | (Raised e, w') => h e w'
    | r => r
    end.

(** [try: m / finally: f] *)
Definition try_finally {A} (m : IO A) (f : IO unit) : IO A :=
  fun w =>
    match m w with
    | (Diverged, w') => (Diverged, w')
    | (r, w') =>
        match f w' with
        | (Done _, w'') => (r, w'')
        | (Raised e, w'') => (Raised e, w'')
        | (Diverged, w'') => (Diverged, w'')
        end
    end.

(* ------------------------------------------------------------------ *)
(** ** Library calls *)

Definition logger_info (msg : string) : IO unit :=
  fun w => (Done tt, emit (Log INFO msg) w).
Definition logger_warning (msg : string) : IO unit :=
  fun w => (Done tt, emit (Log WARNING msg) w).
Definition logger_error (msg : string) : IO unit :=
  fun w => (Done tt, emit (Log ERROR msg) w).

Definition exists_in (m : gmap string node) (p : string) : bool :=
  match m !! p with Some _ => true | None => false end.

Definition isdir_in (m : gmap string node) (p : string) : bool :=
  match m !! p with Some Dir => true | _ => false end.

Definition os_path_exists (p : string) : IO bool :=
  fun w => let b := exists_in (fs w) p in (Done b, emit (Probe p b) w).

Definition os_path_isdir (p : string) : IO bool :=
  fun w => let b := isdir_in (fs w) p in (Done b, emit (ProbeDir p b) w).

(** [os.path.relpath(path, start)] *)
Definition os_path_relpath (path start : string) : IO string :=
  fun w =>
    if Str.nonempty path
    then (Done (posixpath.relpath_nonempty (cwd w) path start), w)
    else (Raised (Exn ValueError "no path specified"), w).

(** [time.sleep(secs)] first converts [secs] to a signed 64-bit count
    of nanoseconds and raises [OverflowError] when it is out of range,
    then [ValueError] when the count is negative (the conversion wraps at
    2^63 itself, which so counts as negative); this is CPython 3.11 on a
    64-bit platform. *)
Definition sleep_limit : Q := inject_Z (2 ^ 63).

Definition sleep_failure (secs : Q) : option exn :=
  let ns := (secs * inject_Z (10 ^ 9))%Q in
  if negb (Qle_bool (- sleep_limit) ns && Qle_bool ns sleep_limit)
  then Some (Exn OverflowError "timestamp too large to convert to C _PyTime_t")
  else if negb (Qle_bool 0 ns) || Qle_bool sleep_limit ns
  then Some (Exn ValueError "sleep length must be non-negative")
  else None.

Definition time_sleep (secs : Q) : IO unit :=
  fun w =>
    match sleep_failure secs with
    | Some e => (Raised e, w)
    | None => (Done tt, emit (Sleep secs) w)
    end.

(** Reading the source of a copy. *)
Definition read_file (m : gmap string node) (src : string) : exn + string :=
  match m !! src with
  | Some (File c) => inr c
  | Some Dir =>
      inl (Exn IsADirectoryError ("[Errno 21] Is a directory: '" +:+ src +:+ "'"))
  | None =>
      inl (Exn FileNotFoundError
               ("[Errno 2] No such file or directory: '" +:+ src +:+ "'"))
  end.

(** The exception that an attempt on [src] raises under the fault [f],
    and what the attempt leaves in the file system, [target] being where
    it writes: the source is opened before the destination, so that a
    fault while writing shows only when the source can be read. *)
Definition attempt_exn (m : gmap string node) (src : string) (f : fault) : exn :=
  match fault_written f, read_file m src with
  | Some _, inl e => e
  | _, _ => fault_exn f
  end.

Definition leaves (m : gmap string node) (src target : string) (f : fault)
  : gmap string node :=
  match fault_written f, read_file m src with
  | Some k, inr c => <[target := File (Str.take k c)]> m
  | _, _ => m
  end.

(** What the next copy attempt on [src] does: it fails as the scripted
    fault says if there is one, else it gives the failure or the content
    that reading [src] gives. *)
Definition copy2_result (w : world) (src : string) : exn + string :=
  match faults w with
  | Some f :: _ => inl (attempt_exn (fs w) src f)
  | _ => read_file (fs w) src
  end.

(** The file system after a failed attempt. *)
Definition copy2_leaves (w : world) (src target : string) : gmap string node :=
  match faults w with
  | Some f :: _ => leaves (fs w) src target f
  | _ => fs w
  end.

(** [shutil.copy2(src, dst)]: the content of the regular file [src] is
    written to [dst], or into [dst] under the name of [src] when [dst] is
    a directory.  The map of spelled paths does not tell whether the
    directory of [dst] is there: a destination that cannot be created is
    one of the failures that the script of [faults] carries. *)
Definition shutil_copy2 (src dst : string) : IO unit :=
  fun w =>
    let rest := tail (faults w) in
    let target :=
      if isdir_in (fs w) dst
      then posixpath.join dst (posixpath.basename src) else dst in
    match copy2_result w src with
    | inl e =>
        (Raised e,
         World (copy2_leaves w src target) (cwd w) rest
               (trace w ++ [Copy2 src dst (Some e)]))
    | inr c =>
        (Done tt,
         World (<[target := File c]> (fs w)) (cwd w) rest
               (trace w ++ [Copy2 src dst None]))
    end.

Definition observer_schedule (path : string) (recursive : bool) : IO unit :=
  fun w => (Done tt, emit (Schedule path recursive) w).
Definition observer_start : IO unit := fun w => (Done tt, emit ObserverStart w).
Definition observer_stop : IO unit := fun w => (Done tt, emit ObserverStop w).
Definition observer_join : IO unit := fun w => (Done tt, emit ObserverJoin w).

(* ================================================================== *)
(** * class CopyHandler *)
(* ================================================================== *)

Record CopyHandler : Type := { source_dir : string; dest_dir : string }.

Record FileSystemEvent : Type := { src_path : string; is_directory : bool }.

(** [while os.path.exists(new_dest): new_dest = f"{base} {count}{ext}";
    count += 1] *)
Fixpoint resolve (fuel : nat) (base ext new_dest : string) (count : Z)
  : IO string :=
  match fuel with
  | O => diverge
  | S fuel' =>
      let* found := os_path_exists new_dest in
      if found
      then resolve fuel' base ext
                   (base +:+ " " +:+ Str.of_int count +:+ ext) (count + 1)
      else ret new_dest
  end.

(** One pass through the body of [for attempt in range(retries)]; the
    result tells whether the loop goes on ([true]) or the function has
    returned ([false]). *)
Definition attempt_once (self : CopyHandler) (src new_dest : string)
    (retries : Z) (delay : Q) (attempt : Z) : IO bool :=
  try_except
    (shutil_copy2 src new_dest >>
     let* rel_src := os_path_relpath src (source_dir self) in
     let* rel_dest := os_path_relpath new_dest (dest_dir self) in
     logger_info ("File copiato: " +:+ rel_src +:+ " -> " +:+ rel_dest) >>
     ret false)
    (fun e =>
       if is_permission_error e then
         (if attempt <? retries - 1 then
            logger_warning ("Permesso negato per " +:+ src +:+ ", ritento ("
                            +:+ Str.of_int (attempt + 1) +:+ ")...") >>
            time_sleep delay
          else
            logger_error ("Permesso negato per " +:+ src +:+ " dopo "
                          +:+ Str.of_int retries +:+ " tentativi: "
                          +:+ exn_str e)) >>
         ret true
       else
         logger_error ("Errore nella copia di " +:+ src +:+ ": " +:+ exn_str e) >>
         ret false).

(** The [n] iterations of the [for] loop from [attempt] on. *)
Fixpoint attempts (self : CopyHandler) (src new_dest : string)
    (retries : Z) (delay : Q) (n : nat) (attempt : Z) : IO unit :=
  match n with
  | O => ret tt
  | S n' =>
      let* again := attempt_once self src new_dest retries delay attempt in
      if again then attempts self src new_dest retries delay n' (attempt + 1)
      else ret tt
  end.

Definition is_temporary (filename : string) : bool :=
  Str.startswith filename "~$" || Str.endswith filename ".tmp".

Definition copy_file_safely_fuel (fuel : nat) (self : CopyHandler)
    (src dest : string) (retries : Z) (delay : Q) : IO unit :=
  let '(base, ext) := posixpath.splitext dest in
  let new_dest := dest in
  let filename := posixpath.basename src in
  if is_temporary filename then
    logger_info ("File temporaneo ignorato: " +:+ filename)
  else
    let* new_dest := resolve fuel base ext new_dest 1 in
    attempts self src new_dest retries delay (Z.to_nat retries) 0.

(** The [while] loop probes at most one candidate more than there are
    entries in the file system, which is the fuel it is given here; more
    fuel changes nothing (see [copy_file_safely_fuel_enough]). *)
Definition copy_file_safely (self : CopyHandler) (src dest : string)
    (retries : Z) (delay : Q) : IO unit :=
  fun w => copy_file_safely_fuel (S (size (fs w))) self src dest retries delay w.

(** [on_created], with the method [self.copy_file_safely] it dispatches to
    as a parameter. *)
Definition on_created_with (copy : string -> string -> IO unit)
    (self : CopyHandler) (event : FileSystemEvent) : IO unit :=
  if is_directory event then ret tt else
  let* rel_path := os_path_relpath (src_path event) (source_dir self) in
  if Str.nonempty (posixpath.dirname rel_path) then ret tt else
  if negb (Str.endswith (Str.lower (src_path event)) ".xml") then ret tt else
  let dest_path :=
    posixpath.join (dest_dir self) (posixpath.basename (src_path event)) in
  try_except
    (copy (src_path event) dest_path)
    (fun e => logger_error ("Errore nella copia di " +:+ rel_path +:+ ": "
                            +:+ exn_str e)).

Definition default_retries : Z := 3.
Definition default_delay : Q := 1 # 2.

Definition on_created (self : CopyHandler) (event : FileSystemEvent) : IO unit :=
  on_created_with
    (fun src dest => copy_file_safely self src dest default_retries default_delay)
    self event.

(* ================================================================== *)
(** * list_files_windows_style *)
(* ================================================================== *)

(** [re.match(r"^(.*?)(\d+)?(\.[^.]+)$", filename)], written as the
    backtracking search the pattern denotes. *)
Module re.

Definition newline : ascii := "010"%char.

(** Group 3 up to the end of the string: a dot followed by one or
    more characters that are not dots. *)
Definition match_ext (s : string) : option string :=
  match s with
  | String "." t =>
      if Str.nonempty t && negb (Str.contains "." t) then Some s else None
  | _ => None
  end.

(** Number of digits at the front of [s]: the most that [\d+] can take. *)
Fixpoint digit_run (s : string) : nat :=
  match s with
  | String c s' => if Str.is_digit c then S (digit_run s') else O
  | EmptyString => O
  end.

(** The greedy optional group 2 followed by group 3: [n] digits first,
    then fewer, and last no digits at all. *)
Fixpoint match_digits (n : nat) (s : string) : option (option string * string) :=
  match n with
  | S n' =>
      match match_ext (Str.drop n s) with
      | Some ext => Some (Some (Str.take n s), ext)
      | None => match_digits n' s
      end
  | O =>
      match match_ext s with
      | Some ext => Some (None, ext)
      | None => None
      end
  end.

Definition match_tail (s : string) : option (option string * string) :=
  match_digits (digit_run s) s.

(** The lazy group 1: the shortest prefix after which the rest matches;
    the dot of the pattern does not match a line break. *)
Fixpoint match_name (s : string) : option (string * option string * string) :=
  match match_tail s with
  | Some (num, ext) => Some (EmptyString, num, ext)
  | None =>
      match s with
      | EmptyString => None
      | String c s' =>
          if Ascii.eqb c newline then None
          else match match_name s' with
               | Some (base, num, ext) => Some (String c base, num, ext)
               | None => None
               end
      end
  end.

End re.

Definition sort_key : Type := string * N * string.

Definition extract_base_and_num (filename : string) : sort_key :=
  match re.match_name filename with
  | Some (base, num, ext) =>
      let num := match num with Some d => Str.to_int d | None => 0%N end in
      (base, num, ext)
  | None => (filename, 0%N, EmptyString)
  end.

(** [k1 < k2] on the key tuples: the first component that differs decides. *)
Definition key_ltb (k1 k2 : sort_key) : bool :=
  let '(b1, n1, e1) := k1 in
  let '(b2, n2, e2) := k2 in
  if negb (String.eqb b1 b2) then String.ltb b1 b2
  else if negb (N.eqb n1 n2) then N.ltb n1 n2
  else String.ltb e1 e2.

(** [sorted(l, key=key)]: the stable sort, which only uses [<] on keys. *)
Section Sorted.
Context {A K : Type} (ltb : K -> K -> bool) (key : A -> K).

Fixpoint insert_sorted (x : A) (l : list A) : list A :=
  match l with
  | [] => [x]
  | y :: l' =>
      if ltb (key y) (key x) then y :: insert_sorted x l' else x :: y :: l'
  end.

Definition sorted (l : list A) : list A := fold_right insert_sorted [] l.
End Sorted.

(** The list comprehension over [os.listdir(directory)]. *)
Definition select_files (entries : dir_listing) (extension : string)
  : list string :=
  map fst
      (List.filter (fun e : string * bool =>
                 snd e && Str.endswith (Str.lower (fst e)) extension)
              entries).

Definition listdir (env : environment) (n : nat) (directory : string)
  : IO dir_listing :=
  fun w =>
    match os_listdir env n directory with
    | inl e => (Raised e, emit (ListDir directory) w)
    | inr entries => (Done entries, emit (ListDir directory) w)
    end.

Definition list_files_windows_style (env : environment) (n : nat)
    (directory extension : string) : IO (list string) :=
  let* entries := listdir env n directory in
  let files := select_files entries extension in
  let files_sorted := sorted key_ltb extract_base_and_num files in
  ret files_sorted.

Definition default_extension : string := ".xml".

Definition count_files_in_directory (env : environment) (n : nat)
    (directory : string) : IO (nat * list string) :=
  let* files := list_files_windows_style env n directory default_extension in
  ret (length files, files).

(** [str(l)] for a list of strings. *)
Definition repr_list (l : list string) : string :=
  "[" +:+ Str.join ", " (map Unicode.repr l) +:+ "]".

Definition log_counts (env : environment) (n : nat)
    (source_dir dest_dir : string) : IO unit :=
  let* src := count_files_in_directory env n source_dir in
  let* dst := count_files_in_directory env n dest_dir in
  logger_info ("File in source: " +:+ Str.of_int (Z.of_nat (fst src))
               +:+ " | File in dest: " +:+ Str.of_int (Z.of_nat (fst dst))) >>
  logger_info ("Lista file source: " +:+ repr_list (snd src)) >>
  logger_info ("Lista file dest: " +:+ repr_list (snd dst)).

(* ================================================================== *)
(** * start_backup_worker *)
(* ================================================================== *)

Definition poll_tick : Q := 1 # 10.

(** [external_stop_event and external_stop_event.is_set()] *)
Definition stop_requested (external_stop_event : option stop_event) (n : nat)
  : bool :=
  match external_stop_event with
  | Some ev => ev n
  | None => false
  end.

(** [time.time() - last_check > count_interval] in the [n]-th iteration. *)
Definition interval_test (env : environment) (count_interval : Z) (n : nat)
    (last_check : Q) : bool :=
  negb (Qle_bool (time_test env n - last_check) (inject_Z count_interval)).

(** The [while True] loop from its [n]-th iteration on: sleep, leave on a
    stop request, reconcile and take the time when the interval has
    elapsed since [last_check]. *)
Fixpoint poll_loop (fuel : nat) (env : environment)
    (source_dir dest_dir : string) (count_interval : Z)
    (external_stop_event : option stop_event) (n : nat) (last_check : Q)
  : IO unit :=
  match fuel with
  | O => diverge
  | S fuel' =>
      time_sleep poll_tick >>
      if stop_requested external_stop_event n then ret tt
      else if interval_test env count_interval n last_check then
        log_counts env n source_dir dest_dir >>
        let last_check := time_after env n in
        poll_loop fuel' env source_dir dest_dir count_interval
                  external_stop_event (S n) last_check
      else
        poll_loop fuel' env source_dir dest_dir count_interval
                  external_stop_event (S n) last_check
  end.

Definition start_backup_worker (fuel : nat) (env : environment)
    (source_dir dest_dir : string) (count_interval : Z)
    (external_stop_event : option stop_event) : IO unit :=
  let* src_ok := os_path_isdir source_dir in
  if negb src_ok then
    logger_error ("La directory sorgente non esiste: " +:+ source_dir)
  else
    let* dst_ok := os_path_isdir dest_dir in
    if negb dst_ok then
      logger_error ("La directory di destinazione non esiste: " +:+ dest_dir)
    else
      logger_info ("Backup worker avviato: " +:+ source_dir +:+ " -> "
                   +:+ dest_dir) >>
      observer_schedule source_dir false >>
      observer_start >>
      try_finally
        (let last_check := time_start env in
         poll_loop fuel env source_dir dest_dir count_interval
                   external_stop_event 0 last_check)
        (observer_stop >> observer_join >>
         logger_info "Backup worker terminato").

Definition default_count_interval : Z := 60.

(* ================================================================== *)
(** * Vocabulary of the specification *)
(* ================================================================== *)

(** The sequence of destination names of the safe copy: [dest], then
    "<base> 1<ext>", "<base> 2<ext>", ... *)
Definition candidate (dest : string) (n : nat) : string :=
  match n with
  | O => dest
  | S _ =>
      let '(base, ext) := posixpath.splitext dest in
      base +:+ " " +:+ Str.of_int (Z.of_nat n) +:+ ext
  end.

(** [n] is the index of the first candidate absent from the snapshot. *)
Definition first_free (m : gmap string node) (dest : string) (n : nat) : Prop :=
  m !! candidate dest n = None /\
  forall k, (k < n)%nat -> m !! candidate dest k <> None.

(** The existence probes of a name resolution that settles on candidate [n]. *)
Definition resolution_probes (dest : string) (n : nat) : list effect :=
  map (fun k => Probe (candidate dest k) true) (seq 0 n)
  ++ [Probe (candidate dest n) false].


(** The log line written once a copy went through: the success message
    with both relative paths or, when a path is empty and [relpath]
    raises, the error line of the generic handler. *)
Definition copied_line (self : CopyHandler) (cwd src dst : string) : effect :=
  if Str.nonempty src && Str.nonempty dst then
    Log INFO ("File copiato: "
              +:+ posixpath.relpath_nonempty cwd src (source_dir self)
              +:+ " -> "
              +:+ posixpath.relpath_nonempty cwd dst (dest_dir self))
  else
    Log ERROR ("Errore nella copia di " +:+ src +:+ ": no path specified").


(** The probes of the resolution loop from candidate [j] up to candidate [n]. *)
Definition probes_from (dest : string) (j n : nat) : list effect :=
  map (fun k => Probe (candidate dest k) true) (seq j (n - j))
  ++ [Probe (candidate dest n) false].

(** An effect of the retry loop on [src] and the resolved name [d]: no
    existence probe, and no copy but from [src] to [d]. *)
Definition targets (src d : string) (e : effect) : Prop :=
  match e with
  | Copy2 s x _ => s = src /\ x = d
  | Probe _ _ => False
  | _ => True
  end.

(** The path of an event relative to the watched directory, and the
    destination [on_created] derives from it. *)
Definition event_rel_path (self : CopyHandler) (event : FileSystemEvent)
    (w : world) : string :=
  posixpath.relpath_nonempty (cwd w) (src_path event) (source_dir self).

Definition event_dest_path (self : CopyHandler) (event : FileSystemEvent)
  : string :=
  posixpath.join (dest_dir self) (posixpath.basename (src_path event)).

(** The handler of [on_created]: the error line with the relative path. *)
Definition copy_error_line (rel_path : string) (e : exn) : effect :=
  Log ERROR ("Errore nella copia di " +:+ rel_path +:+ ": " +:+ exn_str e).

(** The directory can be listed at the [n]-th iteration. *)
Definition listable (env : environment) (n : nat) (directory : string) : Prop :=
  exists entries, os_listdir env n directory = inr entries.

(** The value of [last_check] at the start of the [n]-th iteration of a
    loop that has come that far: the reading taken after the latest
    reconciliation, or the one taken before the loop. *)
Fixpoint last_check_at (env : environment) (count_interval : Z) (n : nat) : Q :=
  match n with
  | O => time_start env
  | S m =>
      if interval_test env count_interval m (last_check_at env count_interval m)
      then time_after env m
      else last_check_at env count_interval m
  end.

(** Whether the [n]-th iteration finds the interval elapsed. *)
Definition interval_elapsed (env : environment) (count_interval : Z) (n : nat)
  : bool :=
  interval_test env count_interval n (last_check_at env count_interval n).

(** The loop from its [n]-th iteration on, in a run that has come that
    far. *)
Definition poll_from (fuel : nat) (env : environment) (s d : string)
    (count_interval : Z) (stop : option stop_event) (n : nat) : IO unit :=
  poll_loop fuel env s d count_interval stop n
            (last_check_at env count_interval n).



(** A file system that differs from [m] at most by what an attempt to
    copy [src] has written at [d]: the first bytes of the source, or all
    of them. *)
Definition residue (m : gmap string node) (src d : string)
    (m' : gmap string node) : Prop :=
  m' = m
  \/ exists content k,
       m !! src = Some (File content)
       /\ m' = <[d := File (Str.take k content)]> m.

(** The decomposition of a file name in the words of the specification:
    the final extension is the last dot and what follows it, the trailing
    number is the longest run of digits just before it (0 if there is
    none), the prefix is everything before that run; a name without a
    final extension has nothing to match: it is all prefix. *)
Definition final_extension (name : string) : option (string * string) :=
  let i := Str.rfind "." name in
  if i <? 0 then None
  else
    let ext := Str.drop (Z.to_nat i) name in
    match ext with
    | String _ (String _ _) => Some (Str.take (Z.to_nat i) name, ext)
    | _ => None
    end.

(** [stem] split into what precedes its longest digit suffix and that suffix. *)
Fixpoint trailing_digits (stem : string) : string * string :=
  match stem with
  | EmptyString => (EmptyString, EmptyString)
  | String c s' =>
      let '(p, d) := trailing_digits s' in
      match p with
      | EmptyString =>
          if Str.is_digit c then (EmptyString, String c d)
          else (String c EmptyString, d)
      | _ => (String c p, d)
      end
  end.

Definition spec_decompose (name : string) : sort_key :=
  match final_extension name with
  | None => (name, 0%N, EmptyString)
  | Some (stem, ext) =>
      let '(prefix, digits) := trailing_digits stem in
      let number :=
        if Str.nonempty digits then Str.to_int digits else 0%N in
      (prefix, number, ext)
  end.

(** Ascending order of keys: lexicographic on prefix and extension,
    numeric on the trailing number. *)
Definition key_le (k1 k2 : sort_key) : Prop :=
  let '(b1, n1, e1) := k1 in
  let '(b2, n2, e2) := k2 in
  String.ltb b1 b2 = true \/
  (b1 = b2 /\ ((n1 < n2)%N \/ (n1 = n2 /\ String.leb e1 e2 = true))).


Definition no_line_break (s : string) : Prop :=
  Str.contains re.newline s = false.

(** Order of the elements of a list by their keys. *)
Definition key_order {A : Type} (key : A -> sort_key) (a b : A) : Prop :=
  key_le (key a) (key b).

(** The listing is in the order of the keys of the specification. *)
Definition spec_ordered (l : list string) : Prop :=
  StronglySorted (key_order spec_decompose) l.

(** The prefix that the specification gives to the name holds no line
    break (nothing is asked of a name without a final extension). *)
Definition prefix_on_one_line (name : string) : Prop :=
  final_extension name <> None ->
  no_line_break (fst (fst (spec_decompose name))).

(** The shape of a decomposed name: digits, a prefix that does not end
    with a digit, and a final extension, that is a dot and at least one
    character, none of them a dot. *)
Fixpoint all_digits (d : string) : bool :=
  match d with
  | EmptyString => true
  | String c d' => Str.is_digit c && all_digits d'
  end.

Definition no_digit_suffix (p : string) : Prop :=
  trailing_digits p = (p, EmptyString).

Definition is_extension (e : string) : Prop :=
  exists t, e = String "." t /\ Str.nonempty t = true
            /\ Str.contains "." t = false.

(** The example of the specification. *)
Definition example_listing : list string :=
  ["b.xml"; "b1.xml"; "b2.xml"; "b10.xml"].

(* ================================================================== *)
(** * A running example *)
(* ================================================================== *)

Definition ex_handler : CopyHandler :=
  {| source_dir := "/src"; dest_dir := "/dst" |}.

(** The watched directory and a destination that already holds a.xml
    and "a 1.xml". *)
Definition ex_fs : gmap string node :=
  list_to_map
    [("/src", Dir); ("/dst", Dir);
     ("/src/a.xml", File "<a/>"); ("/src/~$draft.xml", File "lock");
     ("/dst/a.xml", File "<old/>"); ("/dst/a 1.xml", File "<older/>")].

(** The example world; the scripted failures are of attempts that have
    written nothing. *)
Definition ex_world (script : list (option exn)) : world :=
  World ex_fs "/" (map (option_map before_writing) script) [].

Definition ex_locked : exn :=
  Exn PermissionError "[Errno 13] Permission denied: '/src/a.xml'".

Definition ex_disk_full : exn :=
  Exn OSError "[Errno 28] No space left on device".

Definition ex_event (path : string) : FileSystemEvent :=
  {| src_path := path; is_directory := false |}.

(** A clock that is read every hundred seconds, so that with an
    interval of a minute every iteration finds the interval elapsed. *)
Definition ex_test (n : nat) : Q := inject_Z (200 * Z.of_nat n + 100).
Definition ex_after (n : nat) : Q := inject_Z (200 * Z.of_nat n + 200).

(** Every directory lists as [entries]. *)
Definition ex_env (entries : dir_listing) : environment :=
  Environment 0 ex_test ex_after (fun _ _ => inr entries).

(** The directories have been removed under the running worker. *)
Definition ex_env_gone : environment :=
  Environment 0 ex_test ex_after
    (fun _ directory =>
       inl (Exn FileNotFoundError
                ("[Errno 2] No such file or directory: '" +:+ directory +:+ "'"))).

Definition line_break : string := String re.newline EmptyString.

(** What [os.listdir] and [os.path.isfile] give for the example directory. *)
Definition ex_entries : dir_listing :=
  [("b10.xml", true); ("b.xml", true); ("notes.txt", true); ("b2.xml", true);
   ("b1.xml", true); ("old.xml", false)].

(* ================================================================== *)
(** * Vocabulary of the further properties *)
(* ================================================================== *)

Definition is_copy2 (e : effect) : bool :=
  match e with Copy2 _ _ _ => true | _ => false end.

Definition is_probe (e : effect) : bool :=
  match e with Probe _ _ => true | _ => false end.

Definition is_sleep (e : effect) : bool :=
  match e with Sleep _ => true | _ => false end.

(** How many effects of a kind a piece of trace holds. *)
Fixpoint count_effects (p : effect -> bool) (t : list effect) : nat :=
  match t with
  | [] => O
  | e :: t' => ((if p e then 1 else 0) + count_effects p t')%nat
  end.

(** Every wait in a piece of trace lasts [delay]. *)
Definition waits_for (delay : Q) (e : effect) : Prop :=
  match e with Sleep secs => secs = delay | _ => True end.




(** The number that a run of digits denotes, none denoting 0. *)
Definition digits_value (d : string) : N :=
  if Str.nonempty d then Str.to_int d else 0%N.

(** What [list_files_windows_style] returns for the entries of a
    directory, with the extension of [count_files_in_directory]. *)
Definition listing (entries : dir_listing) : list string :=
  sorted key_ltb extract_base_and_num (select_files entries default_extension).

(** The three lines of a reconciliation. *)
Definition reconciliation_lines (src_entries dst_entries : dir_listing)
  : list effect :=
  [Log INFO ("File in source: "
             +:+ Str.of_int (Z.of_nat (length (select_files src_entries
                                                 default_extension)))
             +:+ " | File in dest: "
             +:+ Str.of_int (Z.of_nat (length (select_files dst_entries
                                                 default_extension))));
   Log INFO ("Lista file source: " +:+ repr_list (listing src_entries));
   Log INFO ("Lista file dest: " +:+ repr_list (listing dst_entries))].

(** What the poll loop does to the outside: it waits a tick, lists one
    of its two directories, or logs at level INFO. *)
Definition poll_effect (s d : string) (e : effect) : Prop :=
  match e with
  | Sleep secs => secs = poll_tick
  | ListDir p => p = s \/ p = d
  | Log INFO _ => True
  | _ => False
  end.

(** The start of a worker whose directories exist, and its shutdown. *)
Definition worker_prelude (s d : string) : list effect :=
  [ProbeDir s true; ProbeDir d true;
   Log INFO ("Backup worker avviato: " +:+ s +:+ " -> " +:+ d);
   Schedule s false; ObserverStart].

Definition worker_shutdown : list effect :=
  [ObserverStop; ObserverJoin; Log INFO "Backup worker terminato"].

(** [new] is what a reconciliation does when both directories can be
    listed: it lists them and logs the number and the names of the
    regular files whose lowercased name ends with .xml, each list in the
    order of the sort keys -- the order of [listing] when the names are
    of ASCII characters. *)
Definition reconciles (s d : string) (src_entries dst_entries : dir_listing)
    (new : list effect) : Prop :=
  exists src_files dst_files,
    Permutation src_files (select_files src_entries default_extension)
    /\ Permutation dst_files (select_files dst_entries default_extension)
    /\ (Forall (fun name => Str.isascii name = true) src_files ->
        src_files = listing src_entries)
    /\ (Forall (fun name => Str.isascii name = true) dst_files ->
        dst_files = listing dst_entries)
    /\ new = [ListDir s; ListDir d;
              Log INFO ("File in source: "
                        +:+ Str.of_int (Z.of_nat (length src_files))
                        +:+ " | File in dest: "
                        +:+ Str.of_int (Z.of_nat (length dst_files)));
              Log INFO ("Lista file source: " +:+ repr_list src_files);
              Log INFO ("Lista file dest: " +:+ repr_list dst_files)].

(** What a reconciliation at the [n]-th iteration adds to the trace when
    both directories can be listed, and what the [n]-th iteration adds
    when it goes on to the next: its wait, and the reconciliation if the
    interval is found elapsed. *)
Definition reconciliation (env : environment) (s d : string) (n : nat)
  : list effect :=
  match os_listdir env n s, os_listdir env n d with
  | inr src_entries, inr dst_entries =>
      [ListDir s; ListDir d] ++ reconciliation_lines src_entries dst_entries
  | _, _ => []
  end.

Definition poll_step (env : environment) (count_interval : Z) (s d : string)
    (n : nat) : list effect :=
  Sleep poll_tick
  :: (if interval_elapsed env count_interval n then reconciliation env s d n
      else []).

(** A clock that advances by a tenth of a second from one poll to the
    next and does not advance during a reconciliation; every directory
    lists as [entries]. *)
Definition ex_tick_env (entries : dir_listing) : environment :=
  Environment 0 (fun n => Z.of_nat (S n) # 10) (fun n => Z.of_nat (S n) # 10)
    (fun _ _ => inr entries).

(** A clock that advances by five seconds from one poll to the next, as
    on a machine that is kept busy. *)
Definition ex_slow_env (entries : dir_listing) : environment :=
  Environment 0 (fun n => inject_Z (5 * Z.of_nat (S n)))
    (fun n => inject_Z (5 * Z.of_nat (S n))) (fun _ _ => inr entries).

(** The listings of [s]: one for each reconciliation. *)
Definition is_listing_of (s : string) (e : effect) : bool :=
  match e with ListDir p => String.eqb p s | _ => false end.

Definition terminated {A : Type} (r : outcome A) : bool :=
  match r with Diverged => false | _ => true end.

(** The exception that the reconciliation of the [n]-th iteration meets:
    that of listing the source or else that of listing the destination. *)
Definition listing_failure (env : environment) (n : nat) (s d : string)
  : option exn :=
  match os_listdir env n s with
  | inl e => Some e
  | inr _ =>
      match os_listdir env n d with
      | inl e => Some e
      | inr _ => None
      end
  end.

(** A directory path as it stands in front of the name of one of its
    entries, and the paths of entries that lie directly in it. *)
Definition dir_prefix (dir : string) : string :=
  if negb (Str.nonempty dir) || Str.endswith dir "/" then dir
  else dir +:+ "/".

Definition directly_under (dir path : string) : Prop :=
  exists leaf, path = dir_prefix dir +:+ leaf
               /\ Str.nonempty leaf = true
               /\ Str.contains "/" leaf = false.

(** The name of a directory entry: not empty, free of separators, and
    neither of the two special names. *)
Definition plain_name (b : string) : bool :=
  Str.nonempty b && negb (Str.contains "/" b)
  && negb (String.eqb b ".") && negb (String.eqb b "..").

(** The path that [abspath] normalises. *)
Definition abs_input (cwd p : string) : string :=
  if posixpath.isabs p then p else posixpath.join cwd p.

(** A component of a normalised path. *)
Definition clean (x : string) : Prop :=
  Str.nonempty x = true /\ Str.contains "/" x = false.

(* ================================================================== *)
(** * setup_logger (service.py) *)
(* ================================================================== *)

(** The [logging] module keeps one logger per name; a logger has a level
    ([None] is NOTSET) and a list of handlers.  A rotating file handler
    is known by the absolute path of its file, its rotation parameters
    and the formatter it was given. *)
Record file_handler : Type := FileHandler {
  baseFilename : string;
  maxBytes : Z;
  backupCount : Z;
  formatter : option (string * string)
}.

Record logger_object : Type := LoggerObject {
  logger_level : option level;
  logger_handlers : list file_handler
}.

(** What [setup_logger] does to the file system. *)
Inductive log_effect : Type :=
| PathExists (path : string) (found : bool)        (* os.path.exists *)
| MakeDirs (path : string) (failure : option exn)  (* os.makedirs *)
| OpenAppend (path : string) (failure : option exn). (* open(path, 'a') *)

Record logging_world : Type := LoggingWorld {
  loggers : gmap string logger_object;
  log_cwd : string;
  log_trace : list log_effect
}.

(** What the file system answers: whether a path exists, and the
    exception, if any, that creating a directory chain or opening a file
    for appending meets. *)
Record log_environment : Type := LogEnvironment {
  path_exists : string -> bool;
  makedirs_failure : string -> option exn;
  open_failure : string -> option exn
}.

Definition LIO (A : Type) : Type := logging_world -> outcome A * logging_world.

Definition lret {A} (a : A) : LIO A := fun st => (Done a, st).

Definition lbind {A B} (m : LIO A) (k : A -> LIO B) : LIO B :=
  fun st =>
    match m st with
    | (Done a, st') => k a st'
    | (Raised e, st') => (Raised e, st')
    | (Diverged, st') => (Diverged, st')
    end.

Definition log_emit (e : log_effect) (st : logging_world) : logging_world :=
  LoggingWorld (loggers st) (log_cwd st) (log_trace st ++ [e]).

Definition set_logger (name : string) (l : logger_object) (st : logging_world)
  : logging_world :=
  LoggingWorld (<[name := l]> (loggers st)) (log_cwd st) (log_trace st).

(** The state of the logger of a name; a name not seen yet stands for a
    logger at NOTSET without handlers. *)
Definition logger_of (st : logging_world) (name : string) : logger_object :=
  match loggers st !! name with
  | Some l => l
  | None => LoggerObject None []
  end.

(** [os.path.exists(path)] *)
Definition log_path_exists (env : log_environment) (path : string) : LIO bool :=
  fun st =>
    let b := path_exists env path in (Done b, log_emit (PathExists path b) st).

(** [os.makedirs(path)] *)
Definition os_makedirs (env : log_environment) (path : string) : LIO unit :=
  fun st =>
    match makedirs_failure env path with
    | Some e => (Raised e, log_emit (MakeDirs path (Some e)) st)
    | None => (Done tt, log_emit (MakeDirs path None) st)
    end.

(** [logging.getLogger(name)]: the logger of the name, made on first use. *)
Definition logging_getLogger (name : string) : LIO string :=
  fun st => (Done name, set_logger name (logger_of st name) st).

(** [logger.setLevel(lvl)] *)
Definition logger_setLevel (logger : string) (lvl : level) : LIO unit :=
  fun st =>
    (Done tt,
     set_logger logger
       (LoggerObject (Some lvl) (logger_handlers (logger_of st logger))) st).

(** [RotatingFileHandler(filename, maxBytes=.., backupCount=..)]: the
    file is opened for appending when the handler is made. *)
Definition RotatingFileHandler (env : log_environment) (filename : string)
    (max_bytes backup_count : Z) : LIO file_handler :=
  fun st =>
    let base := posixpath.abspath (log_cwd st) filename in
    match open_failure env base with
    | Some e => (Raised e, log_emit (OpenAppend base (Some e)) st)
    | None =>
        (Done (FileHandler base max_bytes backup_count None),
         log_emit (OpenAppend base None) st)
    end.

(** [handler.setFormatter(logging.Formatter(fmt, datefmt))] *)
Definition setFormatter (handler : file_handler) (fmt datefmt : string)
  : file_handler :=
  FileHandler (baseFilename handler) (maxBytes handler) (backupCount handler)
              (Some (fmt, datefmt)).

(** [logger.handlers] *)
Definition logger_get_handlers (logger : string) : LIO (list file_handler) :=
  fun st => (Done (logger_handlers (logger_of st logger)), st).

(** [logger.addHandler(handler)] for a handler that is not in the list. *)
Definition logger_addHandler (logger : string) (handler : file_handler)
  : LIO unit :=
  fun st =>
    let l := logger_of st logger in
    (Done tt,
     set_logger logger
       (LoggerObject (logger_level l) (logger_handlers l ++ [handler])) st).

Definition service_logger_name : string := "BackupService".
Definition log_format : string := "%(asctime)s %(levelname)s %(message)s".
Definition log_datefmt : string := "%Y-%m-%d %H:%M:%S".

Definition setup_logger (env : log_environment) (log_dir log_file : string)
    (max_bytes backup_count : Z) : LIO string :=
  lbind (log_path_exists env log_dir) (fun found =>
  lbind (if negb found then os_makedirs env log_dir else lret tt) (fun _ =>
  let full_log_path := posixpath.join log_dir log_file in
  lbind (logging_getLogger service_logger_name) (fun logger =>
  lbind (logger_setLevel logger INFO) (fun _ =>
  lbind (RotatingFileHandler env full_log_path max_bytes backup_count)
        (fun handler =>
  let handler := setFormatter handler log_format log_datefmt in
  lbind (logger_get_handlers logger) (fun handlers =>
  lbind (match handlers with
         | [] => logger_addHandler logger handler
         | _ => lret tt
         end) (fun _ =>
  lret logger))))))).

(** The handler that a call of [setup_logger] makes. *)
Definition handler_for (cwd log_dir log_file : string)
    (max_bytes backup_count : Z) : file_handler :=
  FileHandler (posixpath.abspath cwd (posixpath.join log_dir log_file))
              max_bytes backup_count (Some (log_format, log_datefmt)).

(** The handlers of the service's logger. *)
Definition service_handlers (st : logging_world) : list file_handler :=
  logger_handlers (logger_of st service_logger_name).

Definition service_level (st : logging_world) : option level :=
  logger_level (logger_of st service_logger_name).

(** A file system on which everything can be created, and the [logging]
    module before its first use. *)
Definition ex_log_env : log_environment :=
  LogEnvironment (fun _ => false) (fun _ => None) (fun _ => None).

Definition ex_logging : logging_world := LoggingWorld empty "/srv" [].

(* ================================================================== *)
(** * Proofs *)
(* ================================================================== *)

Ltac io_unfold :=
  unfold bind, ret, raise, diverge, try_except, try_finally, logger_info,
    logger_warning, logger_error, os_path_exists, os_path_isdir,
    os_path_relpath, time_sleep, shutil_copy2, observer_schedule,
    observer_start, observer_stop, observer_join, emit in *.

(** ** Concatenation *)

Lemma str_app_cons a s t : String a s +:+ t = String a (s +:+ t).
Proof. reflexivity. Qed.
Lemma str_app_nil_l s : EmptyString +:+ s = s.
Proof. reflexivity. Qed.
Lemma str_app_nil_r s : s +:+ EmptyString = s.
Proof. induction s as [|a s IH]; [reflexivity|]. rewrite str_app_cons, IH. reflexivity. Qed.
Lemma str_app_assoc s t u : (s +:+ t) +:+ u = s +:+ t +:+ u.
Proof. induction s as [|a s IH]; [reflexivity|]. rewrite !str_app_cons, IH. reflexivity. Qed.
Lemma str_length_app s t : String.length (s +:+ t) = (String.length s + String.length t)%nat.
Proof. induction s as [|a s IH]; [reflexivity|]. rewrite str_app_cons. simpl. rewrite IH. reflexivity. Qed.

Lemma str_app_inv_tail s1 s2 e : s1 +:+ e = s2 +:+ e -> s1 = s2.
Proof.
  revert s2. induction s1 as [|a s1 IH]; intros [|b s2] H.
  - reflexivity.
  - apply (f_equal String.length) in H. rewrite !str_length_app in H. simpl in H. lia.
  - apply (f_equal String.length) in H. rewrite !str_length_app in H. simpl in H. lia.
  - rewrite !str_app_cons in H. injection H as -> H. f_equal. auto.
Qed.

Lemma of_int_inj a b : Str.of_int a = Str.of_int b -> a = b.
Proof.
  unfold Str.of_int. intros H.
  apply DecimalZ.to_int_inj.
  assert (Hn : forall z, Z.to_int z <> Decimal.Pos Decimal.Nil /\ Z.to_int z <> Decimal.Neg Decimal.Nil).
  { intros [|p|p]; simpl; split; try discriminate;
      intros E; injection E as E; revert E; apply DecimalPos.Unsigned.to_uint_nonnil. }
  apply (f_equal NilZero.int_of_string) in H.
  rewrite !NilZero.isi in H by apply Hn. congruence.
Qed.

(** ** Prefixes, suffixes, membership *)

Lemma endswith_nil t : Str.endswith EmptyString t = String.eqb EmptyString t.
Proof. destruct t; reflexivity. Qed.

Lemma endswith_cons a s t :
  Str.endswith (String a s) t = String.eqb (String a s) t || Str.endswith s t.
Proof. reflexivity. Qed.

Lemma endswith_spec s t :
  Str.endswith s t = true <-> exists p, s = p +:+ t.
Proof.
  induction s as [|a s IH].
  - rewrite endswith_nil, String.eqb_eq. split.
    + intros <-. exists EmptyString. reflexivity.
    + intros [[|b p] Hp]; [exact Hp | rewrite str_app_cons in Hp; discriminate].
  - rewrite endswith_cons, orb_true_iff, String.eqb_eq, IH. split.
    + intros [<- | [p ->]].
      * exists EmptyString. reflexivity.
      * exists (String a p). reflexivity.
    + intros [[|b p] Hp].
      * left. exact Hp.
      * rewrite str_app_cons in Hp. injection Hp as -> ->. right. eauto.
Qed.

Lemma contains_app c s t :
  Str.contains c (s +:+ t) = Str.contains c s || Str.contains c t.
Proof.
  induction s as [|a s IH]; [reflexivity|].
  rewrite str_app_cons. simpl. rewrite IH, orb_assoc. reflexivity.
Qed.



Lemma str_take_drop n s : Str.take n s +:+ Str.drop n s = s.
Proof.
  revert s. induction n as [|n IH]; intros [|a s]; simpl; try reflexivity.
  rewrite str_app_cons, IH. reflexivity.
Qed.

(** ** [rfind] *)

Lemma rfind_range c s : -1 <= Str.rfind c s < Z.of_nat (String.length s).
Proof.
  induction s as [|a s IH]; simpl; [lia|].
  destruct (0 <=? Str.rfind c s) eqn:E; [lia|].
  destruct (Ascii.eqb a c); lia.
Qed.

Lemma rfind_contains c s : (0 <=? Str.rfind c s) = Str.contains c s.
Proof.
  induction s as [|a s IH]; simpl; [reflexivity|].
  rewrite <- IH. pose proof (rfind_range c s).
  destruct (0 <=? Str.rfind c s) eqn:E; simpl.
  - rewrite orb_true_r. lia.
  - rewrite orb_false_r. destruct (Ascii.eqb a c); reflexivity.
Qed.

(** ** The candidate names *)

Lemma str_app_inv_head s t1 t2 : s +:+ t1 = s +:+ t2 -> t1 = t2.
Proof.
  induction s as [|a s IH]; [auto|]. rewrite !str_app_cons. intros H. injection H as H. auto.
Qed.

Lemma splitext_app p b e : posixpath.splitext p = (b, e) -> b +:+ e = p.
Proof.
  unfold posixpath.splitext.
  destruct (_ <? _); [destruct (Str.all_char _ _)|]; intros H; injection H as <- <-;
    auto using str_app_nil_r, str_take_drop.
Qed.

Lemma candidate_inj dest n m : candidate dest n = candidate dest m -> n = m.
Proof.
  assert (Hz : forall k b e, posixpath.splitext dest = (b, e) ->
                 dest <> b +:+ " " +:+ Str.of_int (Z.of_nat (S k)) +:+ e).
  { intros k b e Hs H. apply splitext_app in Hs.
    rewrite <- Hs in H at 1. apply str_app_inv_head in H.
    apply (f_equal String.length) in H. rewrite !str_length_app in H. simpl in H. lia. }
  destruct n as [|n], m as [|m]; unfold candidate; auto;
    destruct (posixpath.splitext dest) as [b e] eqn:Hs; intros H.
  - exfalso. eapply Hz; eauto.
  - exfalso. eapply Hz; eauto.
  - apply str_app_inv_head in H. apply (str_app_inv_head " ") in H.
    apply str_app_inv_tail, of_int_inj in H. lia.
Qed.

Lemma candidate_succ dest n b e :
  posixpath.splitext dest = (b, e) ->
  candidate dest (S n) = b +:+ " " +:+ Str.of_int (Z.of_nat n + 1) +:+ e.
Proof.
  intros Hs. unfold candidate. rewrite Hs. repeat f_equal. lia.
Qed.

Lemma candidates_NoDup dest n : NoDup (map (candidate dest) (seq 0 n)).
Proof.
  apply NoDup_fmap_2_strong; [|apply NoDup_seq].
  intros x y _ _. apply candidate_inj.
Qed.

(** Not all of the first [size m + 1] candidates can be in the snapshot. *)
Lemma candidates_not_all_present (m : gmap string node) dest :
  ~ (forall k, (k <= size m)%nat -> m !! candidate dest k <> None).
Proof.
  intros H.
  set (l := map (candidate dest) (seq 0 (S (size m)))).
  assert (Hsub : (list_to_set l : gset string) ⊆ dom m).
  { intros x Hx. apply elem_of_list_to_set in Hx.
    apply list_elem_of_fmap in Hx as [k [-> Hk]].
    apply elem_of_seq in Hk. apply elem_of_dom.
    destruct (m !! candidate dest k) eqn:E; [eauto|]. exfalso. apply (H k); [lia|auto]. }
  apply subseteq_size in Hsub.
  rewrite size_list_to_set, size_dom in Hsub by apply candidates_NoDup.
  unfold l in Hsub. rewrite length_map, length_seq in Hsub. lia.
Qed.

Lemma first_free_exists (m : gmap string node) dest :
  exists n, (n <= size m)%nat /\ first_free m dest n.
Proof.
  assert (H : forall N, (forall k, (k < N)%nat -> m !! candidate dest k <> None)
                        \/ exists n, (n < N)%nat /\ first_free m dest n).
  { induction N as [|N [IH | [n [Hn Hf]]]].
    - left. intros k Hk. lia.
    - destruct (m !! candidate dest N) eqn:E.
      + left. intros k Hk. destruct (decide (k = N)) as [->|]; [congruence|]. apply IH. lia.
      + right. exists N. split; [lia|]. split; auto.
    - right. exists n. split; [lia | auto]. }
  destruct (H (S (size m))) as [Hall | [n [Hn Hf]]].
  - exfalso. apply (candidates_not_all_present m dest). intros k Hk. apply Hall. lia.
  - exists n. split; [lia | auto].
Qed.


(** ** Name resolution *)

Lemma probes_from_0 dest n : probes_from dest 0 n = resolution_probes dest n.
Proof. unfold probes_from, resolution_probes. rewrite Nat.sub_0_r. reflexivity. Qed.

Lemma resolve_spec dest b e m c f n :
  posixpath.splitext dest = (b, e) ->
  first_free m dest n ->
  forall fuel j t, (j <= n)%nat -> (n - j < fuel)%nat ->
    resolve fuel b e (candidate dest j) (Z.of_nat j + 1) (World m c f t)
    = (Done (candidate dest n), World m c f (t ++ probes_from dest j n)).
Proof.
  intros Hs [Hfree Hbusy].
  induction fuel as [|fuel IH]; intros j t Hj Hfuel; [lia|].
  simpl. io_unfold. simpl. unfold exists_in.
  destruct (decide (j = n)) as [->|Hne].
  - rewrite Hfree. unfold probes_from. rewrite Nat.sub_diag. reflexivity.
  - destruct (m !! candidate dest j) eqn:E; [|exfalso; apply (Hbusy j); [lia|auto]].
    rewrite <- (candidate_succ dest j b e Hs).
    replace (Z.of_nat j + 1 + 1) with (Z.of_nat (S j) + 1) by lia.
    rewrite IH by lia. unfold probes_from.
    replace (n - j)%nat with (S (n - S j)) by lia. simpl.
    rewrite <- app_assoc. reflexivity.
Qed.

(** ** The retry loop *)

Lemma read_file_inr m src content :
  read_file m src = inr content <-> m !! src = Some (File content).
Proof.
  unfold read_file. destruct (m !! src) as [[x|]|]; split; intros H;
    try discriminate; congruence.
Qed.


Lemma str_take_all s : Str.take (String.length s) s = s.
Proof. induction s as [|a s IH]; [reflexivity|]. cbn [String.length Str.take]. rewrite IH. reflexivity. Qed.

Section Residue.
Variables (m : gmap string node) (src d : string).
Hypothesis Hfree : m !! d = None.

Lemma residue_refl : residue m src d m.
Proof. left. reflexivity. Qed.

Lemma residue_copied content :
  m !! src = Some (File content) ->
  residue m src d (<[d := File content]> m).
Proof.
  intros H. right. exists content, (String.length content).
  rewrite str_take_all. auto.
Qed.

Lemma residue_lookup_src m' :
  residue m src d m' -> m' !! src = m !! src.
Proof.
  intros [-> | [content [k [Hs ->]]]]; [reflexivity|].
  apply lookup_insert_ne. congruence.
Qed.

Lemma residue_read m' : residue m src d m' -> read_file m' src = read_file m src.
Proof. intros H. unfold read_file. rewrite (residue_lookup_src _ H). reflexivity. Qed.

Lemma residue_not_dir m' : residue m src d m' -> isdir_in m' d = false.
Proof.
  unfold isdir_in. intros [-> | [content [k [_ ->]]]].
  - rewrite Hfree. reflexivity.
  - rewrite lookup_insert_eq. reflexivity.
Qed.

Lemma residue_insert m' x :
  residue m src d m' -> <[d := x]> m' = <[d := x]> m.
Proof.
  intros [-> | [content [k [_ ->]]]]; [reflexivity|]. apply insert_insert_eq.
Qed.

Lemma residue_other m' p : residue m src d m' -> p <> d -> m' !! p = m !! p.
Proof.
  intros [-> | [content [k [_ ->]]]] Hp; [reflexivity|].
  apply lookup_insert_ne. congruence.
Qed.


Lemma residue_leaves m' f :
  residue m src d m' -> residue m src d (leaves m' src d f).
Proof.
  intros H. unfold leaves. rewrite (residue_read _ H).
  destruct (fault_written f) as [k|]; [|exact H].
  destruct (read_file m src) as [e | content] eqn:Hr; [exact H|].
  rewrite (residue_insert _ _ H). right. exists content, k.
  split; [apply read_file_inr, Hr | reflexivity].
Qed.


Lemma residue_size m' :
  residue m src d m' -> m' = m \/ size m' = S (size m).
Proof.
  intros [-> | [content [k [_ ->]]]]; [left; reflexivity | right].
  apply map_size_insert_None, Hfree.
Qed.

End Residue.





Lemma attempt_once_copied self src d retries delay a m c content fl t :
  copy2_result (World m c fl t) src = inr content ->
  isdir_in m d = false ->
  attempt_once self src d retries delay a (World m c fl t)
  = (Done false,
     World (<[d := File content]> m) c (tail fl)
       (t ++ [Copy2 src d None; copied_line self c src d])).
Proof.
  intros Hr Hd. unfold attempt_once, copied_line. io_unfold. simpl.
  rewrite Hr, Hd. simpl.
  destruct (Str.nonempty src); simpl.
  - destruct (Str.nonempty d); simpl; rewrite <- !app_assoc; reflexivity.
  - rewrite <- !app_assoc. reflexivity.
Qed.



(** ** Order on strings and keys *)

Lemma string_ltb_lt a b : String.ltb a b = true <-> String.compare a b = Lt.
Proof. unfold String.ltb. destruct (String.compare a b); split; congruence. Qed.

Lemma string_leb_le a b : String.leb a b = true <-> String.compare a b <> Gt.
Proof. unfold String.leb. destruct (String.compare a b); split; congruence. Qed.

Lemma string_compare_refl a : String.compare a a = Eq.
Proof.
  induction a as [|c a IH]; simpl; [reflexivity|].
  unfold Ascii.compare. rewrite N.compare_refl. exact IH.
Qed.

Lemma string_ltb_irrefl a : String.ltb a a = false.
Proof. unfold String.ltb. rewrite string_compare_refl. reflexivity. Qed.

Lemma string_leb_refl a : String.leb a a = true.
Proof. unfold String.leb. rewrite string_compare_refl. reflexivity. Qed.

Lemma string_ltb_leb a b : String.ltb a b = true -> String.leb a b = true.
Proof. rewrite string_ltb_lt, string_leb_le. congruence. Qed.

Lemma string_ltb_false a b : String.ltb a b = false -> String.leb b a = true.
Proof.
  unfold String.ltb, String.leb. rewrite (String.compare_antisym b a).
  destruct (String.compare a b); simpl; congruence.
Qed.

Lemma string_leb_trans a b c :
  String.leb a b = true -> String.leb b c = true -> String.leb a c = true.
Proof.
  intros H1 H2. apply Is_true_true. apply Is_true_true in H1, H2.
  exact (@transitivity _ String.le _ a b c H1 H2).
Qed.

Lemma string_leb_neq_ltb a b :
  String.leb a b = true -> a <> b -> String.ltb a b = true.
Proof.
  unfold String.leb, String.ltb. destruct (String.compare a b) eqn:E; try congruence.
  apply String.compare_eq_iff in E. congruence.
Qed.

Lemma string_ltb_leb_trans a b c :
  String.ltb a b = true -> String.leb b c = true -> String.ltb a c = true.
Proof.
  intros H1 H2. apply string_leb_neq_ltb.
  - eauto using string_leb_trans, string_ltb_leb.
  - intros ->. apply string_ltb_leb in H1 as H3.
    pose proof (String.leb_antisym _ _ H3 H2) as ->.
    rewrite string_ltb_irrefl in H1. discriminate.
Qed.

Lemma string_ltb_trans a b c :
  String.ltb a b = true -> String.ltb b c = true -> String.ltb a c = true.
Proof. eauto using string_ltb_leb_trans, string_ltb_leb. Qed.

Lemma key_le_trans k1 k2 k3 : key_le k1 k2 -> key_le k2 k3 -> key_le k1 k3.
Proof.
  destruct k1 as [[b1 n1] e1], k2 as [[b2 n2] e2], k3 as [[b3 n3] e3]. simpl.
  intros [H1 | [-> H1]] [H2 | [-> H2]]; eauto using string_ltb_trans.
  right. split; [reflexivity|].
  destruct H1 as [H1 | [-> H1]], H2 as [H2 | [-> H2]]; eauto using string_leb_trans; left; lia.
Qed.

(** [key_ltb] is the strict part of [key_le]. *)
Lemma key_ltb_false k1 k2 : key_ltb k1 k2 = false -> key_le k2 k1.
Proof.
  destruct k1 as [[b1 n1] e1], k2 as [[b2 n2] e2]. simpl.
  destruct (String.eqb_spec b1 b2) as [->|Hb]; simpl.
  - destruct (N.eqb_spec n1 n2) as [->|Hn]; simpl.
    + intros H. right. split; [reflexivity|]. right. split; [reflexivity|].
      apply string_ltb_false, H.
    + intros H. apply N.ltb_ge in H. right. split; [reflexivity|]. left. lia.
  - intros H. left. apply string_leb_neq_ltb; [apply string_ltb_false, H | congruence].
Qed.

Lemma key_ltb_true k1 k2 : key_ltb k1 k2 = true -> key_le k1 k2.
Proof.
  destruct k1 as [[b1 n1] e1], k2 as [[b2 n2] e2]. simpl.
  destruct (String.eqb_spec b1 b2) as [->|Hb]; simpl.
  - destruct (N.eqb_spec n1 n2) as [->|Hn]; simpl.
    + intros H. right. split; [reflexivity|]. right. split; [reflexivity|].
      apply string_ltb_leb, H.
    + intros H. apply N.ltb_lt in H. right. split; [reflexivity|]. left. lia.
  - intros H. left. exact H.
Qed.

Lemma key_le_antisym k1 k2 : key_le k1 k2 -> key_le k2 k1 -> k1 = k2.
Proof.
  destruct k1 as [[b1 n1] e1], k2 as [[b2 n2] e2]. simpl.
  intros [H1 | [-> H1]] [H2 | [E H2]].
  - pose proof (string_ltb_trans _ _ _ H1 H2) as H. rewrite string_ltb_irrefl in H. discriminate.
  - subst. rewrite string_ltb_irrefl in H1. discriminate.
  - rewrite string_ltb_irrefl in H2. discriminate.
  - destruct H1 as [H1 | [-> H1]], H2 as [H2 | [E' H2]]; try lia.
    f_equal. apply String.leb_antisym; auto.
Qed.

(** ** The stable sort *)

Section SortedFacts.
Context {A : Type} (key : A -> sort_key).

Lemma insert_sorted_perm x l :
  Permutation (insert_sorted key_ltb key x l) (x :: l).
Proof.
  induction l as [|y l IH]; simpl; [reflexivity|].
  destruct (key_ltb (key y) (key x)); [|reflexivity].
  rewrite IH. apply perm_swap.
Qed.

Lemma sorted_perm l : Permutation (sorted key_ltb key l) l.
Proof.
  induction l as [|x l IH]; simpl; [reflexivity|].
  rewrite insert_sorted_perm. constructor. exact IH.
Qed.

Lemma insert_sorted_HdRel a x l :
  key_order key a x -> HdRel (key_order key) a l ->
  HdRel (key_order key) a (insert_sorted key_ltb key x l).
Proof.
  intros Hax Hal. destruct l as [|y l]; simpl; [constructor; auto|].
  destruct (key_ltb (key y) (key x)); constructor; auto.
  inversion Hal; auto.
Qed.

Lemma insert_sorted_Sorted x l :
  Sorted (key_order key) l -> Sorted (key_order key) (insert_sorted key_ltb key x l).
Proof.
  induction 1 as [|y l Hs IH Hhd]; simpl; [repeat constructor|].
  destruct (key_ltb (key y) (key x)) eqn:E.
  - constructor; [exact IH|]. apply insert_sorted_HdRel; [|exact Hhd].
    apply key_ltb_true, E.
  - constructor; [constructor; auto|]. constructor. apply key_ltb_false, E.
Qed.

Lemma sorted_Sorted l : Sorted (key_order key) (sorted key_ltb key l).
Proof.
  induction l as [|x l IH]; simpl; [constructor|]. apply insert_sorted_Sorted, IH.
Qed.

Lemma sorted_StronglySorted l :
  StronglySorted (key_order key) (sorted key_ltb key l).
Proof.
  apply Sorted_StronglySorted; [|apply sorted_Sorted].
  intros a b c. unfold key_order. apply key_le_trans.
Qed.

End SortedFacts.

(** Two sorted arrangements of the same elements are equal when distinct
    elements have distinct keys. *)
Lemma StronglySorted_perm_unique {A} (R : A -> A -> Prop) (l1 l2 : list A) :
  (forall x y, In x l1 -> In y l1 -> R x y -> R y x -> x = y) ->
  StronglySorted R l1 -> StronglySorted R l2 -> Permutation l1 l2 -> l1 = l2.
Proof.
  revert l2. induction l1 as [|x l1 IH]; intros l2 Hanti H1 H2 Hp.
  - apply Permutation_nil in Hp. auto.
  - destruct l2 as [|y l2]; [apply Permutation_sym, Permutation_nil in Hp; discriminate|].
    apply StronglySorted_inv in H1 as [H1 Hx]. apply StronglySorted_inv in H2 as [H2 Hy].
    rewrite List.Forall_forall in Hx, Hy.
    assert (x = y) as <-.
    { assert (Hyin : In y (x :: l1)).
      { eapply Permutation_in; [symmetry; exact Hp | left; reflexivity]. }
      assert (Hxin : In x (y :: l2)).
      { eapply Permutation_in; [exact Hp | left; reflexivity]. }
      destruct Hyin as [E | Hyin]; [auto|].
      destruct Hxin as [E | Hxin]; [auto|].
      apply Hanti; [left; reflexivity | right; auto | apply Hx, Hyin | apply Hy, Hxin]. }
    f_equal. apply IH; auto.
    + intros a b Ha Hb. apply Hanti; right; auto.
    + eapply Permutation_cons_inv, Hp.
Qed.

(** ** The pattern and the decomposition of the specification *)

Lemma match_ext_extension e : is_extension e -> re.match_ext e = Some e.
Proof.
  intros [t [-> [Ht Hd]]]. simpl. rewrite Ht, Hd. reflexivity.
Qed.

Lemma match_ext_inner u e :
  Str.nonempty u = true -> Str.contains "." e = true ->
  re.match_ext (u +:+ e) = None.
Proof.
  destruct u as [|a u]; [discriminate|]. intros _ He.
  rewrite str_app_cons. unfold re.match_ext.
  destruct (Ascii.eqb_spec a ".") as [->|Hne].
  - rewrite contains_app, He, orb_true_r, andb_false_r. reflexivity.
  - destruct a as [[] [] [] [] [] [] [] []]; try reflexivity. exfalso. apply Hne. reflexivity.
Qed.

Lemma extension_contains_dot e : is_extension e -> Str.contains "." e = true.
Proof. intros [t [-> _]]. reflexivity. Qed.

Lemma extension_digit_run e : is_extension e -> re.digit_run e = O.
Proof. intros [t [-> _]]. reflexivity. Qed.

Lemma digit_run_all_digits d e :
  all_digits d = true -> re.digit_run e = O ->
  re.digit_run (d +:+ e) = String.length d.
Proof.
  intros Hd He. induction d as [|c d IH]; [exact He|].
  simpl in Hd. apply andb_true_iff in Hd as [Hc Hd].
  rewrite str_app_cons. simpl. rewrite Hc, IH; auto.
Qed.

Lemma str_drop_app_length u v : Str.drop (String.length u) (u +:+ v) = v.
Proof. induction u as [|a u IH]; [destruct v; reflexivity|]. rewrite str_app_cons. exact IH. Qed.

Lemma str_take_app_length u v : Str.take (String.length u) (u +:+ v) = u.
Proof.
  induction u as [|a u IH]; [destruct v; reflexivity|].
  rewrite str_app_cons. simpl. rewrite IH. reflexivity.
Qed.

Lemma str_drop_app_lt j u v :
  (j < String.length u)%nat ->
  Str.drop j (u +:+ v) = Str.drop j u +:+ v /\ Str.nonempty (Str.drop j u) = true.
Proof.
  revert u. induction j as [|j IH]; intros [|a u] Hj; simpl in Hj; try lia.
  - split; reflexivity.
  - rewrite str_app_cons. simpl. apply IH. lia.
Qed.

Lemma no_digit_suffix_tail c p :
  no_digit_suffix (String c p) ->
  no_digit_suffix p /\
  (p = EmptyString -> Str.is_digit c = false).
Proof.
  unfold no_digit_suffix. cbn [trailing_digits].
  destruct (trailing_digits p) as [q dd] eqn:E. destruct q as [|b q]; intros H.
  - destruct (Str.is_digit c) eqn:Hc; [discriminate H|].
    injection H as Hp Hd. subst. split; [reflexivity | auto].
  - injection H as Hp Hd. subst. split; [reflexivity | discriminate].
Qed.

Lemma digit_run_prefix p x :
  no_digit_suffix p -> Str.nonempty p = true ->
  (re.digit_run (p +:+ x) < String.length p)%nat.
Proof.
  induction p as [|c p IH]; [discriminate|]. intros Hp _.
  apply no_digit_suffix_tail in Hp as [Hp Hc].
  rewrite str_app_cons. cbn [re.digit_run String.length].
  destruct (Str.is_digit c) eqn:E; [|lia].
  destruct p as [|b p]; [discriminate (Hc eq_refl)|].
  specialize (IH Hp eq_refl). lia.
Qed.

Lemma match_digits_none k s :
  (forall j, (j <= k)%nat -> re.match_ext (Str.drop j s) = None) ->
  re.match_digits k s = None.
Proof.
  induction k as [|k IH]; intros H; cbn [re.match_digits].
  - specialize (H O (Nat.le_refl _)). cbn [Str.drop] in H. rewrite H. reflexivity.
  - rewrite H by lia. apply IH. intros j Hj. apply H. lia.
Qed.

Lemma match_tail_inside p x :
  no_digit_suffix p -> Str.nonempty p = true -> Str.contains "." x = true ->
  re.match_tail (p +:+ x) = None.
Proof.
  intros Hp Hne Hx. unfold re.match_tail. apply match_digits_none.
  intros j Hj. pose proof (digit_run_prefix p x Hp Hne).
  destruct (str_drop_app_lt j p x) as [-> Hd]; [lia|].
  apply match_ext_inner; auto.
Qed.

Lemma match_tail_digits d e :
  all_digits d = true -> is_extension e ->
  re.match_tail (d +:+ e)
  = Some (if Str.nonempty d then Some d else None, e).
Proof.
  intros Hd He. unfold re.match_tail.
  rewrite digit_run_all_digits by auto using extension_digit_run.
  destruct d as [|c d].
  - simpl. rewrite str_app_nil_l, match_ext_extension by auto. reflexivity.
  - cbn [String.length re.match_digits].
    change (S (String.length d)) with (String.length (String c d)).
    rewrite str_drop_app_length, str_take_app_length, match_ext_extension by auto.
    reflexivity.
Qed.

Lemma match_name_unfold s :
  re.match_name s
  = match re.match_tail s with
    | Some (num, ext) => Some (EmptyString, num, ext)
    | None =>
        match s with
        | EmptyString => None
        | String c s' =>
            if Ascii.eqb c re.newline then None
            else match re.match_name s' with
                 | Some (base, num, ext) => Some (String c base, num, ext)
                 | None => None
                 end
        end
    end.
Proof. destruct s; reflexivity. Qed.

Lemma match_name_decomposed p d e :
  no_digit_suffix p -> no_line_break p ->
  all_digits d = true -> is_extension e ->
  re.match_name (p +:+ d +:+ e)
  = Some (p, if Str.nonempty d then Some d else None, e).
Proof.
  intros Hp Hnl Hd He. induction p as [|c p IH]; rewrite match_name_unfold.
  - rewrite str_app_nil_l, match_tail_digits by auto. reflexivity.
  - rewrite match_tail_inside; auto.
    2:{ rewrite contains_app, (extension_contains_dot e He), orb_true_r. reflexivity. }
    rewrite str_app_cons.
    unfold no_line_break in Hnl. simpl in Hnl. apply orb_false_iff in Hnl as [Hc Hnl].
    rewrite Hc. apply no_digit_suffix_tail in Hp as [Hp _].
    rewrite IH by auto. reflexivity.
Qed.

Lemma rfind_drop c s :
  0 <= Str.rfind c s ->
  exists t, Str.drop (Z.to_nat (Str.rfind c s)) s = String c t
            /\ Str.contains c t = false.
Proof.
  induction s as [|a s IH]; cbn [Str.rfind]; [lia|].
  pose proof (rfind_contains c s) as Hc.
  destruct (0 <=? Str.rfind c s) eqn:E.
  - intros _. apply Z.leb_le in E. destruct (IH E) as [t [Ht Hn]].
    exists t. split; [|exact Hn].
    replace (Z.to_nat (Str.rfind c s + 1)) with (S (Z.to_nat (Str.rfind c s))) by lia.
    exact Ht.
  - destruct (Ascii.eqb_spec a c) as [->|]; [|lia].
    intros _. exists s. split; [reflexivity | congruence].
Qed.

Lemma trailing_digits_cons c s :
  trailing_digits (String c s)
  = let '(p, d) := trailing_digits s in
    match p with
    | EmptyString =>
        if Str.is_digit c then (EmptyString, String c d)
        else (String c EmptyString, d)
    | _ => (String c p, d)
    end.
Proof. reflexivity. Qed.

Lemma trailing_digits_spec s p d :
  trailing_digits s = (p, d) ->
  s = p +:+ d /\ all_digits d = true /\ no_digit_suffix p.
Proof.
  revert p d. induction s as [|c s IH]; intros p d; cbn [trailing_digits].
  - intros H. injection H as <- <-. repeat split.
  - destruct (trailing_digits s) as [q dd]. destruct (IH q dd eq_refl) as [-> [Hd Hq]].
    destruct q as [|b q].
    + destruct (Str.is_digit c) eqn:Hc; intros H; injection H as <- <-.
      * repeat split. simpl. rewrite Hc, Hd. reflexivity.
      * repeat split; auto. unfold no_digit_suffix. simpl. rewrite Hc. reflexivity.
    + intros H. injection H as <- <-. repeat split; auto.
      unfold no_digit_suffix in *. rewrite trailing_digits_cons, Hq. reflexivity.
Qed.

Lemma rfind_last c x t :
  Str.contains c t = false ->
  Str.rfind c (x +:+ String c t) = Z.of_nat (String.length x).
Proof.
  intros Ht. induction x as [|a x IH].
  - rewrite str_app_nil_l. cbn [Str.rfind String.length].
    pose proof (rfind_contains c t) as Hc. rewrite Ht in Hc. rewrite Hc.
    rewrite Ascii.eqb_refl. reflexivity.
  - rewrite str_app_cons. cbn [Str.rfind String.length]. rewrite IH.
    destruct (Z.leb_spec 0 (Z.of_nat (String.length x))); lia.
Qed.

Lemma final_extension_app x e :
  is_extension e -> final_extension (x +:+ e) = Some (x, e).
Proof.
  intros [t [-> [Hne Hdot]]]. unfold final_extension.
  rewrite rfind_last by exact Hdot.
  destruct (Z.ltb_spec (Z.of_nat (String.length x)) 0); [lia|].
  rewrite Nat2Z.id, str_drop_app_length, str_take_app_length.
  destruct t; [discriminate | reflexivity].
Qed.

Lemma final_extension_shape name stem e :
  final_extension name = Some (stem, e) ->
  name = stem +:+ e /\ is_extension e.
Proof.
  unfold final_extension.
  destruct (Str.rfind "." name <? 0) eqn:E; [discriminate|].
  apply Z.ltb_ge in E. destruct (rfind_drop "." name E) as [t [Ht Hn]].
  rewrite Ht. destruct t as [|b t]; [discriminate|].
  intros H. injection H as <- <-. split.
  - rewrite <- Ht. symmetry. apply str_take_drop.
  - exists (String b t). repeat split; auto.
Qed.

(** A match of the pattern ends with a final extension. *)
Lemma match_ext_some s e : re.match_ext s = Some e -> e = s /\ is_extension s.
Proof.
  unfold re.match_ext. destruct s as [|a t]; [discriminate|].
  destruct (Ascii.eqb_spec a ".") as [->|Hne].
  - destruct (Str.nonempty t) eqn:Hne; [|discriminate].
    destruct (Str.contains "." t) eqn:Hd; [discriminate|].
    intros H. injection H as <-. split; [reflexivity|]. exists t. auto.
  - destruct a as [[] [] [] [] [] [] [] []]; try discriminate.
    exfalso. apply Hne. reflexivity.
Qed.

Lemma match_digits_some k s num e :
  re.match_digits k s = Some (num, e) ->
  exists x, s = x +:+ e /\ is_extension e.
Proof.
  induction k as [|k IH]; cbn [re.match_digits].
  - destruct (re.match_ext s) as [e'|] eqn:E; [|discriminate].
    intros H. injection H as _ <-. apply match_ext_some in E as [-> He].
    exists EmptyString. auto.
  - destruct (re.match_ext (Str.drop (S k) s)) as [e'|] eqn:E; [|exact IH].
    intros H. injection H as _ <-. apply match_ext_some in E as [-> He].
    exists (Str.take (S k) s). split; [symmetry; apply str_take_drop | exact He].
Qed.

Lemma match_name_some s :
  forall b num e, re.match_name s = Some (b, num, e) ->
                  exists x, s = x +:+ e /\ is_extension e.
Proof.
  induction s as [|c s IH]; intros b num e; rewrite match_name_unfold.
  - destruct (re.match_tail EmptyString) as [[num' e']|] eqn:E; [|discriminate].
    intros H. injection H as _ _ <-. eapply match_digits_some, E.
  - destruct (re.match_tail (String c s)) as [[num' e']|] eqn:E.
    + intros H. injection H as _ _ <-. eapply match_digits_some, E.
    + destruct (Ascii.eqb c re.newline); [discriminate|].
      destruct (re.match_name s) as [[[b' num'] e']|] eqn:E'; [|discriminate].
      intros H. injection H as _ _ <-.
      destruct (IH _ _ _ eq_refl) as [x [-> He]].
      exists (String c x). auto.
Qed.

(** Without a final extension the pattern does not match, and the name
    is keyed as a whole. *)
Lemma extract_without_extension name :
  final_extension name = None ->
  extract_base_and_num name = (name, 0%N, EmptyString).
Proof.
  intros Hnone. unfold extract_base_and_num.
  destruct (re.match_name name) as [[[b num] e]|] eqn:E; [|reflexivity].
  apply match_name_some in E as [x [-> He]].
  rewrite final_extension_app in Hnone by exact He. discriminate.
Qed.

(** The key that the pattern extracts is the key of the specification. *)
Lemma extract_refines_spec name :
  prefix_on_one_line name ->
  extract_base_and_num name = spec_decompose name.
Proof.
  unfold prefix_on_one_line, spec_decompose.
  destruct (final_extension name) as [[stem e]|] eqn:Hext.
  - intros Hnl. specialize (Hnl ltac:(discriminate)).
    apply final_extension_shape in Hext as [-> He].
    destruct (trailing_digits stem) as [p d] eqn:Hq. cbn [fst] in Hnl.
    apply trailing_digits_spec in Hq as [-> [Hd Hp]].
    unfold extract_base_and_num. rewrite str_app_assoc.
    rewrite match_name_decomposed by auto.
    destruct d; reflexivity.
  - intros _. apply extract_without_extension, Hext.
Qed.

Lemma StronglySorted_impl_in {A} (R R' : A -> A -> Prop) l :
  (forall a b, In a l -> In b l -> R a b -> R' a b) ->
  StronglySorted R l -> StronglySorted R' l.
Proof.
  intros H Hs. induction Hs as [|a l Hs IH Ha]; constructor.
  - apply IH. intros x y Hx Hy. apply H; right; auto.
  - rewrite List.Forall_forall in *. intros x Hx. apply H; [left; auto | right; auto | auto].
Qed.

(** ** [dirname] *)

Lemma rstrip_nonempty c s :
  Str.all_char c s = false -> Str.nonempty (Str.rstrip c s) = true.
Proof.
  destruct s as [|a s]; [discriminate|]. intros H.
  cbn [Str.rstrip]. rewrite H. reflexivity.
Qed.

Lemma str_take_nonempty n s :
  Str.nonempty (Str.take (S n) s) = Str.nonempty s.
Proof. destruct s; reflexivity. Qed.

(** The directory part of a path is non-empty exactly when the path
    contains a separator. *)
Lemma dirname_nonempty r :
  Str.nonempty (posixpath.dirname r) = Str.contains "/" r.
Proof.
  unfold posixpath.dirname, posixpath.after_sep, posixpath.sep.
  pose proof (rfind_contains "/" r) as Hc. pose proof (rfind_range "/" r) as Hr.
  destruct (Str.contains "/" r).
  - apply Z.leb_le in Hc.
    replace (Z.to_nat (Str.rfind "/" r + 1)) with (S (Z.to_nat (Str.rfind "/" r))) by lia.
    assert (Hne : Str.nonempty r = true).
    { destruct r; [simpl in Hc; lia | reflexivity]. }
    rewrite str_take_nonempty, Hne. cbn [andb].
    destruct (Str.all_char "/" _) eqn:E; cbn [negb].
    + rewrite str_take_nonempty. exact Hne.
    + apply rstrip_nonempty, E.
  - apply Z.leb_gt in Hc. replace (Str.rfind "/" r) with (-1) by lia. reflexivity.
Qed.

(** ** [on_created] *)

Lemma endswith_nonempty s t :
  Str.endswith s t = true -> Str.nonempty t = true -> Str.nonempty s = true.
Proof.
  destruct s as [|a s]; [|reflexivity].
  rewrite endswith_nil. destruct t; [discriminate | discriminate].
Qed.

Lemma lower_nonempty s : Str.nonempty (Str.lower s) = Str.nonempty s.
Proof. destruct s; reflexivity. Qed.

Section OnCreated.
Variable copy : string -> string -> IO unit.
Variable self : CopyHandler.
Variable event : FileSystemEvent.
Variable w : world.

Lemma on_created_directory :
  is_directory event = true -> on_created_with copy self event w = (Done tt, w).
Proof. unfold on_created_with. intros ->. reflexivity. Qed.

Lemma on_created_empty_path :
  is_directory event = false -> src_path event = EmptyString ->
  on_created_with copy self event w
  = (Raised (Exn ValueError "no path specified"), w).
Proof. unfold on_created_with. intros -> ->. reflexivity. Qed.

Lemma on_created_nested :
  Str.nonempty (src_path event) = true ->
  Str.contains "/" (event_rel_path self event w) = true ->
  on_created_with copy self event w = (Done tt, w).
Proof.
  unfold on_created_with, event_rel_path. intros Hne Hsep.
  destruct (is_directory event); [reflexivity|].
  io_unfold. rewrite Hne. rewrite dirname_nonempty, Hsep. reflexivity.
Qed.

Lemma on_created_not_xml :
  Str.nonempty (src_path event) = true ->
  Str.endswith (Str.lower (src_path event)) ".xml" = false ->
  on_created_with copy self event w = (Done tt, w).
Proof.
  unfold on_created_with. intros Hne Hx.
  destruct (is_directory event); [reflexivity|].
  io_unfold. rewrite Hne, Hx.
  destruct (Str.nonempty (posixpath.dirname _)); reflexivity.
Qed.

Lemma on_created_accepts :
  is_directory event = false ->
  Str.contains "/" (event_rel_path self event w) = false ->
  Str.endswith (Str.lower (src_path event)) ".xml" = true ->
  on_created_with copy self event w
  = try_except (copy (src_path event) (event_dest_path self event))
      (fun e => fun w' =>
         (Done tt, emit (copy_error_line (event_rel_path self event w) e) w'))
      w.
Proof.
  unfold on_created_with, event_rel_path. intros -> Hsep Hx.
  assert (Hne : Str.nonempty (src_path event) = true).
  { rewrite <- lower_nonempty. eapply endswith_nonempty; [exact Hx | reflexivity]. }
  unfold bind at 1. unfold os_path_relpath. rewrite Hne.
  rewrite dirname_nonempty, Hsep, Hx. reflexivity.
Qed.

End OnCreated.

(** ** Every attempt of the retry loop targets the resolved name *)

Lemma copy2_leaves_shape w src d :
  copy2_leaves w src d = fs w
  \/ exists content, copy2_leaves w src d = <[d := File content]> (fs w).
Proof.
  unfold copy2_leaves, leaves. destruct (faults w) as [|[f|] fl]; auto.
  destruct (fault_written f) as [k|]; auto.
  destruct (read_file (fs w) src) as [e | content]; eauto.
Qed.

Lemma attempt_once_inv self src d retries delay a m c fl t :
  isdir_in m d = false ->
  exists r m' fl' new,
    attempt_once self src d retries delay a (World m c fl t)
    = (r, World m' c fl' (t ++ new))
    /\ r <> Diverged
    /\ Forall (targets src d) new
    /\ (r = Done true -> isdir_in m' d = false)
    /\ (m' = m \/ exists content, m' = <[d := File content]> m).
Proof.
  intros Hd. unfold attempt_once. io_unfold. cbn [fs cwd faults trace].
  rewrite Hd.
  destruct (copy2_result (World m c fl t) src) as [e | content].
  - assert (Hl : isdir_in (copy2_leaves (World m c fl t) src d) d = false).
    { destruct (copy2_leaves_shape (World m c fl t) src d) as [-> | [x ->]];
        [exact Hd|]. unfold isdir_in. rewrite lookup_insert_eq. reflexivity. }
    pose proof (copy2_leaves_shape (World m c fl t) src d) as Hs.
    cbn [fs] in Hs. revert Hl Hs.
    generalize (copy2_leaves (World m c fl t) src d). intros m1 Hl Hs.
    destruct (is_permission_error e); [destruct (a <? retries - 1);
      [destruct (sleep_failure delay)|]|]; cbn [fs cwd faults trace];
      rewrite <- ?app_assoc; do 4 eexists;
      (split; [reflexivity|]); (split; [discriminate|]);
      (split; [repeat constructor | split; [intros _; exact Hl | exact Hs]]).
  - cbn [fs cwd faults trace].
    destruct (Str.nonempty src); [destruct (Str.nonempty d)|];
      simpl; rewrite <- ?app_assoc; do 4 eexists;
      (split; [reflexivity|]); (split; [discriminate|]);
      (split; [repeat constructor | split; [discriminate | right; eauto]]).
Qed.

Lemma attempts_inv self src d retries delay m c :
  forall n a fl t m0,
  isdir_in m0 d = false ->
  (m0 = m \/ exists content, m0 = <[d := File content]> m) ->
  exists r m' fl' new,
    attempts self src d retries delay n a (World m0 c fl t)
    = (r, World m' c fl' (t ++ new))
    /\ r <> Diverged
    /\ Forall (targets src d) new
    /\ (m' = m \/ exists content, m' = <[d := File content]> m).
Proof.
  induction n as [|n IH]; intros a fl t m0 Hd H0.
  - exists (Done tt), m0, fl, []. rewrite app_nil_r. repeat split; auto; discriminate.
  - cbn [attempts]. unfold bind at 1.
    destruct (attempt_once_inv self src d retries delay a m0 c fl t Hd)
      as [r [m1 [fl1 [new1 [-> [Hr [Hnew [Hd1 Hm]]]]]]]].
    assert (H1 : m1 = m \/ exists content, m1 = <[d := File content]> m).
    { destruct Hm as [-> | [x ->]]; [exact H0|]. right.
      destruct H0 as [-> | [y ->]]; [eauto|].
      exists x. apply insert_insert_eq. }
    destruct r as [[|] | e |]; [| | |congruence].
    + destruct (IH (a + 1) fl1 (t ++ new1) m1 (Hd1 eq_refl) H1)
        as [r [m' [fl' [new [-> [Hr' [Hnew' Hm']]]]]]].
      exists r, m', fl', (new1 ++ new). rewrite app_assoc.
      split; [reflexivity|]. split; [exact Hr'|].
      split; [apply Forall_app; split; assumption | exact Hm'].
    + exists (Done tt), m1, fl1, new1.
      split; [reflexivity|]. split; [discriminate|]. split; [exact Hnew|].
      exact H1.
    + exists (Raised e), m1, fl1, new1.
      split; [reflexivity|]. split; [discriminate|]. split; [exact Hnew|].
      exact H1.
Qed.

Lemma first_free_not_dir m dest n :
  first_free m dest n -> isdir_in m (candidate dest n) = false.
Proof. intros [H _]. unfold isdir_in. rewrite H. reflexivity. Qed.

Lemma resolution_probes_no_copy dest n s x f :
  ~ In (Copy2 s x f) (resolution_probes dest n).
Proof.
  unfold resolution_probes. rewrite in_app_iff, in_map_iff.
  intros [[k [H _]] | [H | []]]; discriminate.
Qed.

Lemma copy_file_safely_resolved self src dest retries delay m c fl t n :
  is_temporary (posixpath.basename src) = false ->
  first_free m dest n -> (n <= size m)%nat ->
  copy_file_safely self src dest retries delay (World m c fl t)
  = attempts self src (candidate dest n) retries delay (Z.to_nat retries) 0
      (World m c fl (t ++ resolution_probes dest n)).
Proof.
  intros Htmp Hf Hn. unfold copy_file_safely, copy_file_safely_fuel.
  cbn [fs]. destruct (posixpath.splitext dest) as [b e] eqn:Hs. rewrite Htmp.
  unfold bind at 1.
  change dest with (candidate dest 0) at 1. change 1 with (Z.of_nat 0 + 1).
  rewrite (resolve_spec dest b e m c fl n Hs Hf) by lia.
  rewrite probes_from_0. reflexivity.
Qed.

(** The fuel that [copy_file_safely] gives to the resolution loop is
    enough: any larger amount yields the same run. *)
Lemma copy_file_safely_fuel_enough fuel self src dest retries delay w :
  (size (fs w) < fuel)%nat ->
  copy_file_safely_fuel fuel self src dest retries delay w
  = copy_file_safely self src dest retries delay w.
Proof.
  intros Hfuel. destruct w as [m c fl t]. cbn [fs] in Hfuel.
  unfold copy_file_safely, copy_file_safely_fuel. cbn [fs].
  destruct (posixpath.splitext dest) as [b e] eqn:Hs.
  destruct (is_temporary (posixpath.basename src)); [reflexivity|].
  destruct (first_free_exists m dest) as [n [Hn Hf]].
  assert (E : forall k, (size m < k)%nat ->
                resolve k b e dest 1 (World m c fl t)
                = (Done (candidate dest n),
                   World m c fl (t ++ probes_from dest 0 n))).
  { intros k Hk. apply (resolve_spec dest b e m c fl n Hs Hf k 0%nat t); lia. }
  unfold bind. rewrite !E by lia. reflexivity.
Qed.

(** C1. Over a fixed snapshot the safe copy probes the candidates [dest],
    "<base> 1<ext>", "<base> 2<ext>", ... in order and settles on the first
    one that is absent; every copy attempt it makes goes to that name, no
    other path is written, and so every entry of the snapshot is still
    there, unchanged, when it returns. *)
Theorem copy_file_safely_never_overwrites
    (self : CopyHandler) (src dest : string) (retries : Z) (delay : Q)
    (w : world) :
  let r := copy_file_safely self src dest retries delay w in
  fst r <> Diverged /\
  exists n new,
    first_free (fs w) dest n /\
    trace (snd r) = trace w ++ new /\
    (is_temporary (posixpath.basename src) = false ->
     exists rest, new = resolution_probes dest n ++ rest
                  /\ Forall (targets src (candidate dest n)) rest) /\
    (forall s x f, In (Copy2 s x f) new -> s = src /\ x = candidate dest n) /\
    (forall p, p <> candidate dest n -> fs (snd r) !! p = fs w !! p) /\
    (forall p x, fs w !! p = Some x -> fs (snd r) !! p = Some x).
Proof.
  destruct w as [m c fl t]. cbn zeta. cbn [fs trace].
  destruct (first_free_exists m dest) as [n [Hn Hf]].
  destruct (is_temporary (posixpath.basename src)) eqn:Htmp.
  - unfold copy_file_safely, copy_file_safely_fuel.
    destruct (posixpath.splitext dest) as [b e]. rewrite Htmp.
    split; [discriminate|]. exists n. eexists. split; [exact Hf|].
    split; [reflexivity|]. split; [discriminate|].
    split; [|split; auto].
    intros s x f [H | []]. discriminate.
  - rewrite (copy_file_safely_resolved _ _ _ _ _ _ _ _ _ n) by auto.
    destruct (attempts_inv self src (candidate dest n) retries delay m c
                (Z.to_nat retries) 0 fl (t ++ resolution_probes dest n) m
                (first_free_not_dir _ _ _ Hf) (or_introl eq_refl))
      as [r [m' [fl' [rest [-> [Hr [Hrest Hm]]]]]]].
    cbn [fst snd fs trace]. split; [exact Hr|].
    exists n, (resolution_probes dest n ++ rest).
    split; [exact Hf|]. split; [rewrite app_assoc; reflexivity|].
    split; [intros _; exists rest; auto|].
    split.
    + intros s x f Hin. apply in_app_iff in Hin as [Hin | Hin].
      * exfalso. eapply resolution_probes_no_copy, Hin.
      * rewrite List.Forall_forall in Hrest. apply (Hrest _ Hin).
    + destruct Hf as [Hfree _].
      destruct Hm as [-> | [content ->]]; split; auto.
      * intros p Hp. apply lookup_insert_ne. congruence.
      * intros p x Hx. rewrite lookup_insert_ne; [exact Hx | congruence].
Qed.


(** The theorem on the example, with the source locked at the first attempt. *)
Lemma copy_file_safely_never_overwrites_witness :
  let r := copy_file_safely ex_handler "/src/a.xml" "/dst/a.xml" 3 (1 # 2)
             (ex_world [Some ex_locked]) in
  fst r <> Diverged /\
  exists n new,
    first_free ex_fs "/dst/a.xml" n /\
    trace (snd r) = [] ++ new /\
    (is_temporary (posixpath.basename "/src/a.xml") = false ->
     exists rest, new = resolution_probes "/dst/a.xml" n ++ rest
                  /\ Forall (targets "/src/a.xml" (candidate "/dst/a.xml" n)) rest) /\
    (forall s x f, In (Copy2 s x f) new ->
                   s = "/src/a.xml" /\ x = candidate "/dst/a.xml" n) /\
    (forall p, p <> candidate "/dst/a.xml" n -> fs (snd r) !! p = ex_fs !! p) /\
    (forall p x, ex_fs !! p = Some x -> fs (snd r) !! p = Some x).
Proof.
  exact (copy_file_safely_never_overwrites ex_handler "/src/a.xml" "/dst/a.xml"
           3 (1 # 2) (ex_world [Some ex_locked])).
Defined.

(** C4. A source whose basename starts with "~$" or ends with ".tmp" is
    skipped: the call returns normally and its only effect is one
    informational log line -- no existence probe, no copy attempt, no
    wait; this also holds when the name ends in ".xml" and the event
    passes the filters of [on_created]. *)
Theorem temporary_file_skipped
    (self : CopyHandler) (src dest : string) (retries : Z) (delay : Q)
    (w : world) :
  Str.startswith (posixpath.basename src) "~$" = true
  \/ Str.endswith (posixpath.basename src) ".tmp" = true ->
  let skipped :=
    (Done tt,
     emit (Log INFO ("File temporaneo ignorato: " +:+ posixpath.basename src)) w) in
  copy_file_safely self src dest retries delay w = skipped
  /\ forall event,
       src_path event = src ->
       is_directory event = false ->
       Str.contains "/" (event_rel_path self event w) = false ->
       Str.endswith (Str.lower src) ".xml" = true ->
       on_created self event w = skipped.
Proof.
  intros Htmp.
  assert (Ht : is_temporary (posixpath.basename src) = true).
  { unfold is_temporary. destruct Htmp as [-> | ->]; auto using orb_true_r. }
  assert (Hskip : forall r d,
            copy_file_safely self src dest r d w
            = (Done tt,
               emit (Log INFO ("File temporaneo ignorato: "
                               +:+ posixpath.basename src)) w)).
  { intros r d. unfold copy_file_safely, copy_file_safely_fuel.
    destruct (posixpath.splitext dest). rewrite Ht. reflexivity. }
  cbn zeta. split; [apply Hskip|].
  intros event <- Hdir Hsep Hx. unfold on_created.
  rewrite on_created_accepts by auto. unfold try_except.
  unfold copy_file_safely, copy_file_safely_fuel.
  destruct (posixpath.splitext _). rewrite Ht. reflexivity.
Qed.

(** The lock file of an open document, called directly and through the event. *)
Lemma temporary_file_skipped_witness :
  copy_file_safely ex_handler "/src/~$draft.xml" "/dst/~$draft.xml" 3 (1 # 2)
    (ex_world [])
  = (Done tt,
     World ex_fs "/" [] [Log INFO "File temporaneo ignorato: ~$draft.xml"])
  /\ on_created ex_handler (ex_event "/src/~$draft.xml") (ex_world [])
     = (Done tt,
        World ex_fs "/" [] [Log INFO "File temporaneo ignorato: ~$draft.xml"]).
Proof.
  destruct (temporary_file_skipped ex_handler "/src/~$draft.xml"
              "/dst/~$draft.xml" 3 (1 # 2) (ex_world [])
              (or_introl eq_refl)) as [Hcopy Hevent].
  split; [exact Hcopy|].
  apply (Hevent (ex_event "/src/~$draft.xml")); reflexivity.
Defined.

(** ** The retry policy *)









(** ** The worker *)

Lemma time_sleep_tick w : time_sleep poll_tick w = (Done tt, emit (Sleep poll_tick) w).
Proof. reflexivity. Qed.

Lemma list_files_outcome env n directory extension w :
  list_files_windows_style env n directory extension w
  = (match os_listdir env n directory with
     | inl e => Raised e
     | inr entries =>
         Done (sorted key_ltb extract_base_and_num (select_files entries extension))
     end, emit (ListDir directory) w).
Proof.
  unfold list_files_windows_style, listdir, bind, ret.
  destruct (os_listdir env n directory); reflexivity.
Qed.

Lemma log_counts_listable env n s d w :
  listable env n s -> listable env n d ->
  exists w', log_counts env n s d w = (Done tt, w').
Proof.
  intros [l1 H1] [l2 H2].
  unfold log_counts, count_files_in_directory. unfold bind at 1. unfold bind at 1.
  rewrite list_files_outcome, H1.
  unfold ret at 1. unfold bind at 1. unfold bind at 1.
  rewrite list_files_outcome, H2. eexists. reflexivity.
Qed.

Lemma poll_loop_unfold fuel env s d i stop n w :
  poll_from (S fuel) env s d i stop n w
  = if stop_requested stop n then (Done tt, emit (Sleep poll_tick) w)
    else
      bind (if interval_elapsed env i n then log_counts env n s d else ret tt)
           (fun _ => poll_from fuel env s d i stop (S n))
           (emit (Sleep poll_tick) w).
Proof.
  unfold poll_from. cbn [poll_loop last_check_at].
  unfold bind at 1. rewrite time_sleep_tick. fold (interval_elapsed env i n).
  destruct (stop_requested stop n); [reflexivity|].
  destruct (interval_elapsed env i n); reflexivity.
Qed.

(** The loop is only left normally through the [break] of a stop event
    that is set. *)
Lemma poll_loop_done env s d i stop :
  forall fuel n w u w',
    poll_from fuel env s d i stop n w = (Done u, w') ->
    exists ev k, stop = Some ev /\ ev k = true.
Proof.
  induction fuel as [|fuel IH]; intros n w u w'; [discriminate|].
  rewrite poll_loop_unfold.
  destruct (stop_requested stop n) eqn:Hstop.
  - intros _. destruct stop as [ev|]; [eauto | discriminate].
  - unfold bind. destruct (interval_elapsed env i n).
    + destruct (log_counts env n s d _) as [[[] | e |] w1];
        [apply IH | discriminate | discriminate].
    + unfold ret. apply IH.
Qed.

(** While no stop is requested and the directories can be listed, the
    loop is still running when the fuel runs out. *)
Lemma poll_loop_runs env s d i stop :
  forall fuel n w,
    (forall k, (n <= k < n + fuel)%nat -> stop_requested stop k = false) ->
    (forall k, (n <= k < n + fuel)%nat -> interval_elapsed env i k = true ->
               listable env k s /\ listable env k d) ->
    fst (poll_from fuel env s d i stop n w) = Diverged.
Proof.
  induction fuel as [|fuel IH]; intros n w Hstop Hlist; [reflexivity|].
  rewrite poll_loop_unfold, Hstop by lia. unfold bind.
  destruct (interval_elapsed env i n) eqn:E.
  - destruct (Hlist n ltac:(lia) E) as [H1 H2].
    destruct (log_counts_listable env n s d (emit (Sleep poll_tick) w) H1 H2) as [w1 ->].
    apply IH; intros k Hk; [apply Hstop | apply Hlist]; lia.
  - unfold ret. apply IH; intros k Hk; [apply Hstop | apply Hlist]; lia.
Qed.

Lemma start_backup_worker_running fuel env s d i stop w :
  isdir_in (fs w) s = true -> isdir_in (fs w) d = true ->
  start_backup_worker fuel env s d i stop w
  = try_finally
      (poll_from fuel env s d i stop 0)
      (observer_stop >> observer_join >> logger_info "Backup worker terminato")
      (emit ObserverStart
         (emit (Schedule s false)
            (emit (Log INFO ("Backup worker avviato: " +:+ s +:+ " -> " +:+ d))
               (emit (ProbeDir d true) (emit (ProbeDir s true) w))))).
Proof.
  intros Hs Hd. unfold start_backup_worker. unfold bind at 1.
  unfold os_path_isdir at 1. rewrite Hs. cbn [negb]. unfold bind at 1.
  unfold os_path_isdir. cbn [fs emit]. rewrite Hd. reflexivity.
Qed.

Lemma try_finally_done {A} (m : IO A) f w u w' :
  try_finally m f w = (Done u, w') -> exists w1, m w = (Done u, w1).
Proof.
  unfold try_finally. destruct (m w) as [[a | e |] w1]; try discriminate;
    destruct (f w1) as [[[] | e' |] w2]; try discriminate.
  intros H. injection H as <- <-. eauto.
Qed.

Lemma missing_is_not_dir m p : exists_in m p = false -> isdir_in m p = false.
Proof. unfold exists_in, isdir_in. destruct (m !! p); [discriminate | reflexivity]. Qed.

Lemma count_files_outcome env n directory w :
  count_files_in_directory env n directory w
  = (match os_listdir env n directory with
     | inl e => Raised e
     | inr entries =>
         Done (length (select_files entries default_extension), listing entries)
     end, emit (ListDir directory) w).
Proof.
  unfold count_files_in_directory, bind. rewrite list_files_outcome.
  destruct (os_listdir env n directory) as [e | entries]; [reflexivity|].
  unfold ret, listing. do 2 f_equal. f_equal.
  apply Permutation_length, sorted_perm.
Qed.

(** The run of a reconciliation. *)
Lemma log_counts_outcome env n s d w :
  log_counts env n s d w
  = match os_listdir env n s with
    | inl e =>
        (Raised e, World (fs w) (cwd w) (faults w) (trace w ++ [ListDir s]))
    | inr src_entries =>
        match os_listdir env n d with
        | inl e =>
            (Raised e,
             World (fs w) (cwd w) (faults w) (trace w ++ [ListDir s; ListDir d]))
        | inr dst_entries =>
            (Done tt,
             World (fs w) (cwd w) (faults w)
               (trace w ++ [ListDir s; ListDir d]
                  ++ reconciliation_lines src_entries dst_entries))
        end
    end.
Proof.
  unfold log_counts. unfold bind at 1. rewrite count_files_outcome.
  destruct (os_listdir env n s) as [e | ls]; [reflexivity|].
  unfold bind at 1. rewrite count_files_outcome.
  destruct (os_listdir env n d) as [e | ld].
  - unfold emit. cbn [fs cwd faults trace]. rewrite <- app_assoc. reflexivity.
  - io_unfold. cbn [fs cwd faults trace fst snd].
    rewrite <- !app_assoc. reflexivity.
Qed.

Lemma interval_elapsed_iff env i n :
  interval_elapsed env i n = true
  <-> (inject_Z i < time_test env n - last_check_at env i n)%Q.
Proof.
  unfold interval_elapsed, interval_test. rewrite negb_true_iff. split.
  - intros H. apply Qnot_le_lt. intros H'. apply Qle_bool_iff in H'. congruence.
  - intros H. destruct (Qle_bool _ _) eqn:E; [|reflexivity].
    apply Qle_bool_iff in E. exfalso. apply (Qlt_not_le _ _ H E).
Qed.

(** An iteration that goes on to the next. *)
Lemma poll_step_run env i s d n w :
  (interval_elapsed env i n = true -> listable env n s /\ listable env n d) ->
  (if interval_elapsed env i n then log_counts env n s d else ret tt)
    (emit (Sleep poll_tick) w)
  = (Done tt,
     World (fs w) (cwd w) (faults w) (trace w ++ poll_step env i s d n)).
Proof.
  intros Hlist. unfold poll_step, reconciliation.
  destruct (interval_elapsed env i n).
  - destruct (Hlist eq_refl) as [[ls Hs] [ld Hd]].
    rewrite log_counts_outcome, Hs, Hd. cbn [emit fs cwd faults trace].
    rewrite <- app_assoc. reflexivity.
  - reflexivity.
Qed.

(** The loop under a stop event that is first seen set at poll [k]:
    its trace. *)
Lemma poll_from_stops env s d i (ev : stop_event) :
  forall fuel n w k,
    (forall j, (n <= j < k)%nat -> ev j = false) -> ev k = true ->
    (forall j, (n <= j < k)%nat -> interval_elapsed env i j = true ->
               listable env j s /\ listable env j d) ->
    (n <= k)%nat -> (k - n < fuel)%nat ->
    poll_from fuel env s d i (Some ev) n w
    = (Done tt,
       World (fs w) (cwd w) (faults w)
         (trace w ++ flat_map (poll_step env i s d) (seq n (k - n))
            ++ [Sleep poll_tick])).
Proof.
  induction fuel as [|fuel IH]; intros n w k Hbefore Hk Hlist Hn Hfuel; [lia|].
  rewrite poll_loop_unfold. cbn [stop_requested].
  destruct (decide (n = k)) as [->|Hne].
  - rewrite Hk, Nat.sub_diag. reflexivity.
  - rewrite Hbefore by lia. unfold bind at 1.
    rewrite poll_step_run by (apply Hlist; lia).
    rewrite (IH (S n) _ k); auto; try lia.
    + cbn [fs cwd faults trace].
      replace (k - n)%nat with (S (k - S n)) by lia.
      cbn [seq flat_map]. rewrite <- !app_assoc. reflexivity.
    + intros j Hj. apply Hbefore. lia.
    + intros j Hj. apply Hlist. lia.
Qed.

Lemma reconciliation_reconciles s d src_entries dst_entries :
  reconciles s d src_entries dst_entries
    ([ListDir s; ListDir d] ++ reconciliation_lines src_entries dst_entries).
Proof.
  exists (listing src_entries), (listing dst_entries).
  assert (Hp : forall entries,
            Permutation (listing entries)
                        (select_files entries default_extension))
    by (intros entries; apply sorted_perm).
  split; [apply Hp|]. split; [apply Hp|]. split; [reflexivity|].
  split; [reflexivity|].
  unfold reconciliation_lines. cbn [app].
  rewrite !(Permutation_length (Hp _)). reflexivity.
Qed.

(** C8, with the reconciliations where the loop makes them.  The clock
    is read once after each poll tick, and the counts and listings are
    logged at exactly the polls whose reading is more than the interval
    later than the reading taken after the latest reconciliation (before
    the loop, for the first): an interval that has elapsed exactly, or
    between two polls, passes without a line until a later poll finds
    more than the interval gone.  Once the stop event is set, the loop
    is left at the first poll that finds it set, after the wait of that
    poll and without a reconciliation; the observer is then stopped and
    joined and the termination banner is logged before the worker
    returns. *)
Theorem reconciliation_at_polls
    (fuel : nat) (env : environment) (s d : string) (i : Z)
    (ev : stop_event) (k : nat) (w : world) :
  isdir_in (fs w) s = true -> isdir_in (fs w) d = true ->
  (forall j, (j < k)%nat -> ev j = false) -> ev k = true ->
  (forall j, (j < k)%nat -> interval_elapsed env i j = true ->
             listable env j s /\ listable env j d) ->
  (k < fuel)%nat ->
  exists steps : nat -> list effect,
    start_backup_worker fuel env s d i (Some ev) w
    = (Done tt,
       World (fs w) (cwd w) (faults w)
         (trace w ++ worker_prelude s d
            ++ flat_map (fun j => Sleep poll_tick :: steps j) (seq 0 k)
            ++ [Sleep poll_tick] ++ worker_shutdown))
    /\ (forall j, (j < k)%nat -> interval_elapsed env i j = false ->
                  steps j = [])
    /\ (forall j, (j < k)%nat -> interval_elapsed env i j = true ->
          exists src_entries dst_entries,
            os_listdir env j s = inr src_entries
            /\ os_listdir env j d = inr dst_entries
            /\ reconciles s d src_entries dst_entries (steps j))
    /\ (forall j,
          interval_elapsed env i j = true
          <-> (inject_Z i < time_test env j - last_check_at env i j)%Q)
    /\ last_check_at env i 0 = time_start env
    /\ (forall j,
          last_check_at env i (S j)
          = if interval_elapsed env i j then time_after env j
            else last_check_at env i j).
Proof.
  intros Hs Hd Hbefore Hk Hlist Hfuel.
  exists (fun j => if interval_elapsed env i j then reconciliation env s d j
                   else []).
  split; [|split; [|split; [|split; [apply interval_elapsed_iff|]]]];
    [| | |split; reflexivity].
  - rewrite start_backup_worker_running by assumption. unfold try_finally.
    rewrite (poll_from_stops env s d i ev fuel 0 _ k); try lia; auto.
    + io_unfold. cbn [fs cwd faults trace].
      unfold worker_prelude, worker_shutdown. rewrite Nat.sub_0_r.
      rewrite <- ?app_assoc. cbn [app]. reflexivity.
    + intros j Hj. apply Hbefore. lia.
    + intros j Hj. apply Hlist. lia.
  - intros j _ ->. reflexivity.
  - intros j Hj E. rewrite E.
    destruct (Hlist j Hj E) as [[ls Hls] [ld Hld]].
    exists ls, ld. split; [exact Hls|]. split; [exact Hld|].
    unfold reconciliation. rewrite Hls, Hld. apply reconciliation_reconciles.
Qed.

(** An interval of a second under the clock of the example, the stop
    event being set before the thirteenth poll. *)
Lemma reconciliation_at_polls_witness :
  exists steps : nat -> list effect,
    start_backup_worker 20 (ex_tick_env ex_entries) "/src" "/dst" 1
      (Some (fun n => Nat.eqb n 12)) (ex_world [])
    = (Done tt,
       World ex_fs "/" []
         ([] ++ worker_prelude "/src" "/dst"
            ++ flat_map (fun j => Sleep poll_tick :: steps j) (seq 0 12)
            ++ [Sleep poll_tick] ++ worker_shutdown))
    /\ (forall j, (j < 12)%nat ->
                  interval_elapsed (ex_tick_env ex_entries) 1 j = false ->
                  steps j = [])
    /\ (forall j, (j < 12)%nat ->
                  interval_elapsed (ex_tick_env ex_entries) 1 j = true ->
          exists src_entries dst_entries,
            os_listdir (ex_tick_env ex_entries) j "/src" = inr src_entries
            /\ os_listdir (ex_tick_env ex_entries) j "/dst" = inr dst_entries
            /\ reconciles "/src" "/dst" src_entries dst_entries (steps j)).
Proof.
  destruct (reconciliation_at_polls 20 (ex_tick_env ex_entries) "/src" "/dst" 1
              (fun n => Nat.eqb n 12) 12 (ex_world []))
    as [steps [Hrun [Hnone [Hsome _]]]].
  - reflexivity.
  - reflexivity.
  - intros j Hj. apply Nat.eqb_neq. lia.
  - reflexivity.
  - intros j _ _. split; exists ex_entries; reflexivity.
  - lia.
  - exists steps. split; [exact Hrun|]. split; [exact Hnone | exact Hsome].
Defined.

(** That run: the polls up to the tenth find at most a second gone, the
    eleventh reconciles, the twelfth waits and the thirteenth leaves the
    loop. *)
Lemma reconciliation_at_polls_example :
  start_backup_worker 20 (ex_tick_env ex_entries) "/src" "/dst" 1
    (Some (fun n => Nat.eqb n 12)) (ex_world [])
  = (Done tt,
     World ex_fs "/" []
       (worker_prelude "/src" "/dst"
          ++ repeat (Sleep poll_tick) 10
          ++ [Sleep poll_tick; ListDir "/src"; ListDir "/dst";
              Log INFO "File in source: 4 | File in dest: 4";
              Log INFO "Lista file source: ['b.xml', 'b1.xml', 'b2.xml', 'b10.xml']";
              Log INFO "Lista file dest: ['b.xml', 'b1.xml', 'b2.xml', 'b10.xml']"]
          ++ [Sleep poll_tick] ++ [Sleep poll_tick] ++ worker_shutdown))
  /\ interval_elapsed (ex_tick_env ex_entries) 1 9 = false
  /\ interval_elapsed (ex_tick_env ex_entries) 1 10 = true.
Proof. repeat split; vm_compute; reflexivity. Qed.

(** An interval of a second under the same clock, the stop event being
    set before the eleventh poll: the worker runs for more than a second
    -- the tenth poll reads the clock a full second after the start --
    and returns without having logged the counts once.  And under a clock
    that advances by five seconds from poll to poll, the stop event being
    set before the fourth poll: fifteen seconds go by and the counts are
    logged three times. *)
Lemma interval_passes_without_reconciliation :
  (let env := ex_tick_env ex_entries in
   let r := start_backup_worker 20 env "/src" "/dst" 1
              (Some (fun n => Nat.eqb n 10)) (ex_world []) in
   isdir_in ex_fs "/src" = true /\ isdir_in ex_fs "/dst" = true
   /\ (time_test env 9 - time_start env == inject_Z 1)%Q
   /\ fst r = Done tt
   /\ trace (snd r)
      = worker_prelude "/src" "/dst" ++ repeat (Sleep poll_tick) 11
        ++ worker_shutdown
   /\ count_effects (is_listing_of "/src") (trace (snd r)) = 0%nat)
  /\
  (let env := ex_slow_env ex_entries in
   let r := start_backup_worker 20 env "/src" "/dst" 1
              (Some (fun n => Nat.eqb n 3)) (ex_world []) in
   (time_test env 2 - time_start env == inject_Z 15)%Q
   /\ fst r = Done tt
   /\ count_effects (is_listing_of "/src") (trace (snd r)) = 3%nat).
Proof.
  cbn zeta. split.
  - split; [reflexivity|]. split; [reflexivity|].
    split; [reflexivity|]. split; [vm_compute; reflexivity|].
    split; vm_compute; reflexivity.
  - split; [reflexivity|]. split; vm_compute; reflexivity.
Qed.

(** C7. When the source or the destination is not an existing directory
    (in particular when it does not exist), [start_backup_worker] returns
    normally after logging exactly one line, the error naming that
    directory: the start banner is not logged, the observer is neither
    scheduled nor started, and the poll loop is not entered. *)
Theorem missing_directory_stops_start
    (fuel : nat) (env : environment) (s d : string) (i : Z)
    (stop : option stop_event) (w : world) :
  isdir_in (fs w) s = false \/ isdir_in (fs w) d = false ->
  exists new,
    start_backup_worker fuel env s d i stop w
    = (Done tt, World (fs w) (cwd w) (faults w) (trace w ++ new))
    /\ ((isdir_in (fs w) s = false
         /\ new = [ProbeDir s false;
                   Log ERROR ("La directory sorgente non esiste: " +:+ s)])
        \/ (isdir_in (fs w) s = true /\ isdir_in (fs w) d = false
            /\ new = [ProbeDir s true; ProbeDir d false;
                      Log ERROR ("La directory di destinazione non esiste: "
                                 +:+ d)])).
Proof.
  intros H. unfold start_backup_worker. unfold bind at 1.
  unfold os_path_isdir at 1. destruct (isdir_in (fs w) s) eqn:Hs.
  - destruct H as [H | Hd]; [discriminate|].
    cbn [negb]. unfold bind at 1. unfold os_path_isdir. cbn [fs emit].
    rewrite Hd. cbn [negb]. unfold logger_error, emit. cbn [fs cwd faults trace].
    eexists. split; [rewrite <- !app_assoc; reflexivity|].
    right. auto.
  - cbn [negb]. unfold logger_error, emit. cbn [fs cwd faults trace].
    eexists. split; [rewrite <- !app_assoc; reflexivity|].
    left. auto.
Qed.

(** The destination /backup does not exist. *)
Lemma missing_directory_stops_start_witness :
  start_backup_worker 5 (ex_env []) "/src" "/backup" default_count_interval None
    (ex_world [])
  = (Done tt,
     World ex_fs "/" []
       [ProbeDir "/src" true; ProbeDir "/backup" false;
        Log ERROR "La directory di destinazione non esiste: /backup"]).
Proof.
  destruct (missing_directory_stops_start 5 (ex_env []) "/src" "/backup"
              default_count_interval None (ex_world [])
              (or_intror (missing_is_not_dir ex_fs "/backup" eq_refl)))
    as [new [Hrun [[Hsrc _] | [_ [_ Hnew]]]]].
  - discriminate Hsrc.
  - rewrite Hrun, Hnew. reflexivity.
Defined.

(** C9, with the exceptions of the reconciliation.  Started without a
    stop event on two existing directories, the worker never returns
    normally: as long as the directories can be listed whenever
    the interval has elapsed, it is still in the poll loop after any
    number of iterations, and it leaves the loop only when an exception
    propagates.  With any argument, a normal return after a successful
    validation means that a stop event was provided and was seen set. *)
Theorem worker_without_stop_event
    (fuel : nat) (env : environment) (s d : string) (i : Z) (w : world) :
  isdir_in (fs w) s = true -> isdir_in (fs w) d = true ->
  (forall u w', start_backup_worker fuel env s d i None w <> (Done u, w'))
  /\ ((forall k, (k < fuel)%nat -> interval_elapsed env i k = true ->
                 listable env k s /\ listable env k d) ->
      fst (start_backup_worker fuel env s d i None w) = Diverged)
  /\ (forall stop u w',
        start_backup_worker fuel env s d i stop w = (Done u, w') ->
        exists ev k, stop = Some ev /\ ev k = true).
Proof.
  intros Hs Hd.
  assert (Hdone : forall stop u w',
            start_backup_worker fuel env s d i stop w = (Done u, w') ->
            exists ev k, stop = Some ev /\ ev k = true).
  { intros stop u w'. rewrite start_backup_worker_running by auto.
    intros H. apply try_finally_done in H as [w1 H].
    eapply poll_loop_done, H. }
  split; [|split; [|exact Hdone]].
  - intros u w' H. apply Hdone in H as [ev [k [H _]]]. discriminate.
  - intros Hlist. rewrite start_backup_worker_running by auto.
    unfold try_finally.
    pose proof (poll_loop_runs env s d i None fuel 0
                  (emit ObserverStart
                     (emit (Schedule s false)
                        (emit (Log INFO ("Backup worker avviato: " +:+ s
                                         +:+ " -> " +:+ d))
                           (emit (ProbeDir d true) (emit (ProbeDir s true) w))))))
      as Hrun.
    destruct (poll_from fuel env s d i None 0 _) as [r w1].
    cbn [fst] in Hrun. rewrite Hrun; [reflexivity | reflexivity |].
    intros k Hk. apply Hlist. lia.
Qed.

(** The example directories, listed at every iteration. *)
Lemma worker_without_stop_event_witness :
  (forall u w',
     start_backup_worker 3 (ex_env ex_entries) "/src" "/dst"
       default_count_interval None (ex_world []) <> (Done u, w'))
  /\ fst (start_backup_worker 3 (ex_env ex_entries) "/src" "/dst"
            default_count_interval None (ex_world [])) = Diverged.
Proof.
  destruct (worker_without_stop_event 3 (ex_env ex_entries) "/src" "/dst"
              default_count_interval (ex_world []) eq_refl eq_refl)
    as [Hnever [Hruns _]].
  split; [exact Hnever|].
  apply Hruns. intros k _ _. split; exists ex_entries; reflexivity.
Defined.

(** The source directory is removed while the worker runs without a stop
    event: the first reconciliation raises, the loop is left, and the
    worker ends. *)
Lemma listing_failure_ends_worker :
  isdir_in ex_fs "/src" = true /\ isdir_in ex_fs "/dst" = true /\
  start_backup_worker 1 ex_env_gone "/src" "/dst" default_count_interval None
    (ex_world [])
  = (Raised (Exn FileNotFoundError "[Errno 2] No such file or directory: '/src'"),
     World ex_fs "/" []
       [ProbeDir "/src" true; ProbeDir "/dst" true;
        Log INFO "Backup worker avviato: /src -> /dst";
        Schedule "/src" false; ObserverStart; Sleep poll_tick; ListDir "/src";
        ObserverStop; ObserverJoin; Log INFO "Backup worker terminato"]).
Proof. repeat split; vm_compute; reflexivity. Qed.

(** Once the stop event is seen set, the loop is left at that very
    iteration and the worker stops and joins the observer and logs the
    termination banner before it returns. *)
Lemma stop_event_shuts_down env s d i ev :
  forall fuel n w k,
    (forall j, (n <= j < k)%nat -> ev j = false) -> ev k = true ->
    (forall j, (n <= j < k)%nat -> interval_elapsed env i j = true ->
               listable env j s /\ listable env j d) ->
    (n <= k)%nat -> (k - n < fuel)%nat ->
    exists t,
      try_finally
        (poll_from fuel env s d i (Some ev) n)
        (observer_stop >> observer_join >> logger_info "Backup worker terminato")
        w
      = (Done tt,
         World (fs w) (cwd w) (faults w)
           (trace w ++ t ++ [Sleep poll_tick; ObserverStop; ObserverJoin;
                             Log INFO "Backup worker terminato"])).
Proof.
  induction fuel as [|fuel IH]; intros n w k Hbefore Hk Hlist Hn Hfuel; [lia|].
  unfold try_finally. rewrite poll_loop_unfold. cbn [stop_requested].
  destruct (decide (n = k)) as [->|Hne].
  - rewrite Hk. exists []. io_unfold. cbn [fs cwd faults trace].
    rewrite <- !app_assoc. reflexivity.
  - rewrite Hbefore by lia. unfold bind at 1.
    assert (Hstep : exists t1,
              (if interval_elapsed env i n then log_counts env n s d else ret tt)
                (emit (Sleep poll_tick) w)
              = (Done tt, World (fs w) (cwd w) (faults w) (trace w ++ t1))).
    { destruct (interval_elapsed env i n) eqn:E.
      - destruct (Hlist n ltac:(lia) E) as [[l1 H1] [l2 H2]].
        unfold log_counts, count_files_in_directory.
        unfold bind at 1. unfold bind at 1. rewrite list_files_outcome, H1.
        unfold ret at 1. unfold bind at 1. unfold bind at 1.
        rewrite list_files_outcome, H2. unfold ret at 1.
        io_unfold. cbn [fs cwd faults trace fst snd].
        rewrite <- !app_assoc. eexists. reflexivity.
      - io_unfold. eexists. reflexivity. }
    destruct Hstep as [t1 ->].
    destruct (IH (S n) (World (fs w) (cwd w) (faults w) (trace w ++ t1)) k)
      as [t2 Ht2]; auto; try lia.
    { intros j Hj. apply Hbefore. lia. }
    { intros j Hj. apply Hlist. lia. }
    unfold try_finally in Ht2. cbn [fs cwd faults trace] in Ht2.
    rewrite Ht2. exists (t1 ++ t2). rewrite <- !app_assoc. reflexivity.
Qed.

(** A run in which the stop event is set between the first and the second
    poll. *)
Lemma stop_event_shuts_down_example :
  start_backup_worker 10 (ex_env ex_entries) "/src" "/dst" default_count_interval
    (Some (fun n => Nat.eqb n 1)) (ex_world [])
  = (Done tt,
     World ex_fs "/" []
       [ProbeDir "/src" true; ProbeDir "/dst" true;
        Log INFO "Backup worker avviato: /src -> /dst";
        Schedule "/src" false; ObserverStart;
        Sleep poll_tick; ListDir "/src"; ListDir "/dst";
        Log INFO "File in source: 4 | File in dest: 4";
        Log INFO "Lista file source: ['b.xml', 'b1.xml', 'b2.xml', 'b10.xml']";
        Log INFO "Lista file dest: ['b.xml', 'b1.xml', 'b2.xml', 'b10.xml']";
        Sleep poll_tick;
        ObserverStop; ObserverJoin; Log INFO "Backup worker terminato"]).
Proof. vm_compute. reflexivity. Qed.


(** C3. A creation event is ignored -- the world is left as it was,
    whatever method the copy would be dispatched to -- when it is a
    directory event, or when its path relative to the watched directory
    contains a separator, or when its lowercased path does not end in
    ".xml" (the only other outcome, for the empty path, is the ValueError
    of relpath, again with the world as it was).  An event that passes
    the three filters hands its path, and the destination directory
    joined with its basename, to the safe copy. *)
Theorem creation_event_filters
    (copy : string -> string -> IO unit) (self : CopyHandler)
    (event : FileSystemEvent) (w : world) :
  (is_directory event = true
   \/ Str.contains "/" (event_rel_path self event w) = true
   \/ Str.endswith (Str.lower (src_path event)) ".xml" = false ->
   on_created_with copy self event w = (Done tt, w)
   \/ (src_path event = EmptyString
       /\ on_created_with copy self event w
          = (Raised (Exn ValueError "no path specified"), w)))
  /\
  (is_directory event = false ->
   Str.contains "/" (event_rel_path self event w) = false ->
   Str.endswith (Str.lower (src_path event)) ".xml" = true ->
   on_created_with copy self event w
   = try_except (copy (src_path event) (event_dest_path self event))
       (fun e => fun w' =>
          (Done tt, emit (copy_error_line (event_rel_path self event w) e) w'))
       w).
Proof.
  split.
  - intros H. destruct (is_directory event) eqn:Hdir.
    { left. apply on_created_directory, Hdir. }
    destruct (Str.nonempty (src_path event)) eqn:Hne.
    + left. destruct H as [H | [H | H]]; [discriminate | |].
      * apply on_created_nested; auto.
      * apply on_created_not_xml; auto.
    + right. assert (Hp : src_path event = EmptyString).
      { destruct (src_path event); [reflexivity | discriminate]. }
      split; [exact Hp | apply on_created_empty_path; auto].
  - apply on_created_accepts.
Qed.

(** A nested file, a text file, a directory event and an accepted event. *)
Lemma creation_event_filters_witness :
  on_created ex_handler (ex_event "/src/sub/a.xml") (ex_world [])
  = (Done tt, ex_world [])
  /\ on_created ex_handler (ex_event "/src/notes.txt") (ex_world [])
     = (Done tt, ex_world [])
  /\ on_created ex_handler {| src_path := "/src/a.xml"; is_directory := true |}
       (ex_world [])
     = (Done tt, ex_world [])
  /\ on_created ex_handler (ex_event "/src/a.xml") (ex_world [])
     = try_except
         (copy_file_safely ex_handler "/src/a.xml" "/dst/a.xml"
            default_retries default_delay)
         (fun e => fun w' => (Done tt, emit (copy_error_line "a.xml" e) w'))
         (ex_world []).
Proof.
  unfold on_created.
  pose proof (fun ev =>
                creation_event_filters
                  (fun src dest =>
                     copy_file_safely ex_handler src dest default_retries
                                      default_delay)
                  ex_handler ev (ex_world [])) as H.
  split; [|split; [|split]].
  - destruct (proj1 (H (ex_event "/src/sub/a.xml"))
                (or_intror (or_introl eq_refl))) as [E | [E _]];
      [exact E | discriminate E].
  - destruct (proj1 (H (ex_event "/src/notes.txt"))
                (or_intror (or_intror eq_refl))) as [E | [E _]];
      [exact E | discriminate E].
  - destruct (proj1 (H {| src_path := "/src/a.xml"; is_directory := true |})
                (or_introl eq_refl)) as [E | [E _]];
      [exact E | discriminate E].
  - apply (proj2 (H (ex_event "/src/a.xml"))); reflexivity.
Defined.



(** Outside of what the observer delivers: the relative path is computed
    before the guarded region, so that for the empty path, which no entry
    of a directory has, [relpath] raises and [on_created] lets it
    through. *)
Lemma empty_path_event_raises :
  on_created ex_handler (ex_event EmptyString) (ex_world [])
  = (Raised (Exn ValueError "no path specified"), ex_world []).
Proof. reflexivity. Qed.

(** ** Selection by extension *)

Lemma lower_app s t : Str.lower (s +:+ t) = Str.lower s +:+ Str.lower t.
Proof.
  induction s as [|a s IH]; [reflexivity|].
  rewrite str_app_cons. cbn [Str.lower]. rewrite IH. reflexivity.
Qed.








(** ** The order of the listing *)

Lemma example_listing_sorted :
  StronglySorted
    (key_order extract_base_and_num)
    example_listing.
Proof.
  unfold example_listing.
  repeat (constructor; [| repeat (constructor; [apply key_ltb_false; vm_compute; reflexivity|]); constructor]).
  constructor.
Qed.

Lemma example_listing_keys_differ x y :
  In x example_listing -> In y example_listing ->
  extract_base_and_num x = extract_base_and_num y -> x = y.
Proof.
  unfold example_listing. cbn [In].
  intros [<- | [<- | [<- | [<- | []]]]] [<- | [<- | [<- | [<- | []]]]] H;
    try reflexivity; vm_compute in H; discriminate H.
Qed.

(** X23. The listing is a rearrangement of the selected names.  When
    the selected names are of ASCII characters, have a final extension
    and no line break before it, the listing is in ascending order of the
    key (prefix, trailing number, extension) of the specification, prefix
    and extension compared as strings and the number as a number; a
    directory whose matching files are b.xml, b1.xml, b2.xml and b10.xml
    is listed in exactly that order. *)
Theorem listing_in_natural_order
    (env : environment) (n : nat) (directory extension : string) (w : world)
    (entries : dir_listing) :
  os_listdir env n directory = inr entries ->
  exists files,
    list_files_windows_style env n directory extension w
    = (Done files, emit (ListDir directory) w)
    /\ Permutation files (select_files entries extension)
    /\ (Forall (fun name => Str.isascii name = true
                            /\ final_extension name <> None
                            /\ prefix_on_one_line name)
               (select_files entries extension) ->
        spec_ordered files)
    /\ (Permutation (select_files entries extension) example_listing ->
        files = example_listing).
Proof.
  intros Hl. eexists. split; [rewrite list_files_outcome, Hl; reflexivity|].
  set (selected := select_files entries extension).
  pose proof (sorted_perm extract_base_and_num selected) as Hperm.
  pose proof (sorted_StronglySorted extract_base_and_num selected) as Hsorted.
  split; [exact Hperm|]. split.
  - intros Hline. unfold spec_ordered.
    eapply StronglySorted_impl_in; [|exact Hsorted].
    intros a b Ha Hb Hle. rewrite List.Forall_forall in Hline.
    unfold key_order in *.
    rewrite <- !extract_refines_spec
      by (apply Hline; eapply Permutation_in; eauto).
    exact Hle.
  - intros Hex.
    apply (StronglySorted_perm_unique (key_order extract_base_and_num));
      [| exact Hsorted | exact example_listing_sorted | rewrite Hperm; exact Hex].
    intros x y Hx Hy Hxy Hyx.
    apply example_listing_keys_differ.
    + eapply Permutation_in; [exact Hex|]. eapply Permutation_in; [exact Hperm | exact Hx].
    + eapply Permutation_in; [exact Hex|]. eapply Permutation_in; [exact Hperm | exact Hy].
    + apply key_le_antisym; assumption.
Qed.

(** The example directory, listed out of order and with a text file and
    a subdirectory named old.xml. *)
Lemma listing_in_natural_order_witness :
  list_files_windows_style (ex_env ex_entries) 0 "/src" ".xml" (ex_world [])
  = (Done example_listing, World ex_fs "/" [] [ListDir "/src"])
  /\ spec_ordered example_listing.
Proof.
  destruct (listing_in_natural_order (ex_env ex_entries) 0 "/src" ".xml"
              (ex_world []) ex_entries eq_refl)
    as [files [Hrun [Hperm [Hord Hex]]]].
  assert (Hs : sorted key_ltb extract_base_and_num
                 (select_files ex_entries ".xml") = example_listing)
    by (vm_compute; reflexivity).
  assert (E : files = example_listing).
  { apply Hex. rewrite <- Hs. symmetry. apply sorted_perm. }
  subst files. split; [exact Hrun|].
  apply Hord.
  repeat (constructor;
          [split; [vm_compute; reflexivity|];
           split; [vm_compute; discriminate|];
           intros _; vm_compute; reflexivity|]).
  constructor.
Defined.

(** C5, where the code leaves the order of its docstring.  Two names
    that differ in the number after a prefix with a line break: the dot
    of the pattern does not match the line break, so [re.match] fails,
    the names are keyed by the whole name with number 0 and listed as
    plain strings, 10 before 9, whereas by the key (prefix, trailing
    number, extension) 9 comes before 10. *)
Lemma line_break_names_in_string_order :
  let n10 := "a" +:+ line_break +:+ "10.xml" in
  let n9 := "a" +:+ line_break +:+ "9.xml" in
  list_files_windows_style (ex_env [(n9, true); (n10, true)]) 0 "/src" ".xml"
    (ex_world [])
  = (Done [n10; n9], World ex_fs "/" [] [ListDir "/src"])
  /\ spec_decompose n10 = ("a" +:+ line_break, 10%N, ".xml")
  /\ spec_decompose n9 = ("a" +:+ line_break, 9%N, ".xml")
  /\ ~ spec_ordered [n10; n9].
Proof.
  cbn zeta. split; [vm_compute; reflexivity|].
  split; [vm_compute; reflexivity|].
  split; [vm_compute; reflexivity|].
  intros H. apply StronglySorted_inv in H as [_ H]. apply Forall_inv in H.
  vm_compute in H. destruct H as [H | [_ [H | [H _]]]]; discriminate H.
Qed.

(* ================================================================== *)
(** * Further properties of the safe copy *)
(* ================================================================== *)

Lemma count_effects_app p t u :
  count_effects p (t ++ u) = (count_effects p t + count_effects p u)%nat.
Proof. induction t as [|e t IH]; simpl; [reflexivity | rewrite IH; lia]. Qed.

Lemma resolution_probes_counts dest n :
  count_effects is_probe (resolution_probes dest n) = S n
  /\ count_effects is_copy2 (resolution_probes dest n) = O
  /\ count_effects is_sleep (resolution_probes dest n) = O
  /\ forall delay, Forall (waits_for delay) (resolution_probes dest n).
Proof.
  unfold resolution_probes. rewrite !count_effects_app. simpl.
  assert (H : forall l,
             count_effects is_probe
               (map (fun k => Probe (candidate dest k) true) l) = length l
             /\ count_effects is_copy2
                  (map (fun k => Probe (candidate dest k) true) l) = O
             /\ count_effects is_sleep
                  (map (fun k => Probe (candidate dest k) true) l) = O
             /\ forall delay, Forall (waits_for delay)
                  (map (fun k => Probe (candidate dest k) true) l)).
  { induction l as [|k l [H1 [H2 [H3 H4]]]]; simpl.
    - repeat split; auto.
    - rewrite H1, H2, H3. repeat split; auto. intros delay.
      constructor; [exact I | apply H4]. }
  destruct (H (seq 0 n)) as [H1 [H2 [H3 H4]]].
  rewrite H1, H2, H3, length_seq. repeat split; try lia.
  intros delay. apply Forall_app. split; [apply H4 | repeat constructor].
Qed.

Ltac no_copy :=
  unfold not; intros;
  repeat match goal with
         | H : _ \/ _ |- _ => destruct H
         | H : False |- _ => destruct H
         end;
  match goal with H : _ = _ |- _ => discriminate H end.

Lemma copy2_result_read w src content :
  copy2_result w src = inr content -> fs w !! src = Some (File content).
Proof.
  unfold copy2_result. intros H. apply read_file_inr.
  destruct (faults w) as [|[f|] fl]; [exact H | discriminate | exact H].
Qed.

Lemma residue_copy2_leaves m0 src d m c fl t :
  m0 !! d = None -> residue m0 src d m ->
  residue m0 src d (copy2_leaves (World m c fl t) src d).
Proof.
  intros Hfree H. unfold copy2_leaves. cbn [faults fs].
  destruct fl as [|[f|] fl]; auto using residue_leaves.
Qed.

(** One pass of the retry loop, after passes that left [m] of [m0]: its
    outcome, what it adds to the trace and what it does to the file
    system. *)
Lemma attempt_once_run self src d retries delay a m0 m c fl t :
  m0 !! d = None -> residue m0 src d m ->
  exists r m' fl' new,
    attempt_once self src d retries delay a (World m c fl t)
    = (r, World m' c fl' (t ++ new))
    /\ (r = Done true \/ r = Done false
        \/ (exists e, r = Raised e /\ sleep_failure delay = Some e
                      /\ a < retries - 1))
    /\ count_effects is_probe new = O
    /\ count_effects is_copy2 new = 1%nat
    /\ (count_effects is_sleep new <= 1)%nat
    /\ (retries - 1 <= a -> count_effects is_sleep new = O)
    /\ Forall (waits_for delay) new
    /\ Forall (targets src d) new
    /\ residue m0 src d m'
    /\ (r = Done true -> forall x y, ~ In (Copy2 x y None) new)
    /\ (forall x y, In (Copy2 x y None) new ->
        exists content, m0 !! src = Some (File content)
                        /\ m' = <[d := File content]> m0).
Proof.
  intros Hfree Hm. pose proof (residue_not_dir m0 src d Hfree m Hm) as Hd.
  unfold attempt_once. io_unfold. cbn [fs cwd faults trace]. rewrite Hd.
  destruct (copy2_result (World m c fl t) src) as [e | content] eqn:Hc.
  - pose proof (residue_copy2_leaves m0 src d m c fl t Hfree Hm) as Hl.
    revert Hl. generalize (copy2_leaves (World m c fl t) src d). intros m1 Hl.
    destruct (is_permission_error e).
    + destruct (Z.ltb_spec a (retries - 1)).
      * destruct (sleep_failure delay) as [e'|] eqn:Hq; cbn [fs cwd faults trace];
          rewrite <- ?app_assoc; do 4 eexists;
          (split; [reflexivity|]); simpl;
          (split; [first [left; reflexivity | right; right; eauto]|]);
          repeat split; auto; try lia;
          try (repeat constructor; reflexivity); no_copy.
      * cbn [fs cwd faults trace]; rewrite <- ?app_assoc; do 4 eexists;
          (split; [reflexivity|]); simpl;
          repeat split; auto; try lia; try (repeat constructor; fail);
          no_copy.
    + cbn [fs cwd faults trace]; rewrite <- ?app_assoc; do 4 eexists;
        (split; [reflexivity|]); simpl;
        repeat split; auto; try lia; try (repeat constructor; fail);
        no_copy.
  - cbn [fs cwd faults trace].
    assert (Hsrc : m0 !! src = Some (File content)).
    { rewrite <- (residue_lookup_src m0 src d Hfree m Hm).
      apply (copy2_result_read _ _ _ Hc). }
    rewrite (residue_insert m0 src d m _ Hm).
    pose proof (residue_copied m0 src d content Hsrc) as Hres.
    destruct (Str.nonempty src); [destruct (Str.nonempty d)|];
      simpl; rewrite <- ?app_assoc; do 4 eexists;
      (split; [reflexivity|]); simpl;
      repeat split; auto; try lia; try (repeat constructor; fail);
      try discriminate; intros; eauto.
Qed.

(** The retry loop from attempt [a] on, with [n] passes left. *)
Lemma attempts_run self src d retries delay m0 c :
  m0 !! d = None ->
  forall n a m fl t,
  residue m0 src d m ->
  0 <= a ->
  (n = O \/ a + Z.of_nat n = retries) ->
  exists r m' fl' new,
    attempts self src d retries delay n a (World m c fl t)
    = (r, World m' c fl' (t ++ new))
    /\ (r = Done tt
        \/ (exists e, r = Raised e /\ sleep_failure delay = Some e
                      /\ 1 < retries))
    /\ count_effects is_probe new = O
    /\ (count_effects is_copy2 new <= n)%nat
    /\ (count_effects is_sleep new <= n - 1)%nat
    /\ Forall (waits_for delay) new
    /\ Forall (targets src d) new
    /\ residue m0 src d m'
    /\ (forall x y, In (Copy2 x y None) new ->
        exists content, m0 !! src = Some (File content)
                        /\ m' = <[d := File content]> m0).
Proof.
  intros Hfree. induction n as [|n IH]; intros a m fl t Hm Ha0 Hn.
  - exists (Done tt), m, fl, []. rewrite app_nil_r. simpl.
    repeat split; auto. intros x y [].
  - destruct Hn as [Hn | Hn]; [discriminate|].
    cbn [attempts]. unfold bind at 1.
    destruct (attempt_once_run self src d retries delay a m0 m c fl t Hfree Hm)
      as [r [m1 [fl1 [new1 [-> [Hr [Hp [Hc [Hs [Hlast [Hw [Ht [Hm1 [Hno Hin]]]]]]]]]]]]]].
    destruct Hr as [-> | [-> | [e [-> [Hq Ha]]]]].
    + destruct (IH (a + 1) m1 fl1 (t ++ new1) Hm1) as
        [r [m' [fl' [new [-> [Hr' [Hp' [Hc' [Hs' [Hw' [Ht' [Hm' Hin']]]]]]]]]]]].
      { lia. }
      { destruct n; [left; reflexivity | right; lia]. }
      exists r, m', fl', (new1 ++ new). rewrite app_assoc.
      rewrite !count_effects_app.
      split; [reflexivity|]. split; [exact Hr'|].
      split; [lia|]. split; [lia|]. split.
      { destruct n as [|n'].
        - rewrite Hlast by lia. simpl in Hs'. lia.
        - lia. }
      split; [apply Forall_app; split; assumption|].
      split; [apply Forall_app; split; assumption|].
      split; [exact Hm'|].
      intros x y Hxy. apply in_app_iff in Hxy as [Hxy | Hxy].
      * exfalso. apply (Hno eq_refl x y Hxy).
      * apply (Hin' x y Hxy).
    + exists (Done tt), m1, fl1, new1.
      split; [reflexivity|]. split; [left; reflexivity|].
      split; [exact Hp|]. split; [lia|]. split.
      { destruct n as [|n']; [rewrite Hlast by lia|]; lia. }
      split; [exact Hw|]. split; [exact Ht|]. split; [exact Hm1 | exact Hin].
    + exists (Raised e), m1, fl1, new1.
      split; [reflexivity|].
      split; [right; exists e; repeat split; auto; lia|].
      split; [exact Hp|]. split; [lia|]. split.
      { destruct n as [|n']; [rewrite Hlast by lia|]; lia. }
      split; [exact Hw|]. split; [exact Ht|]. split; [exact Hm1 | exact Hin].
Qed.

(** The whole of a safe copy, from the end of the name resolution on. *)
Lemma copy_file_safely_run self src dest retries delay w :
  is_temporary (posixpath.basename src) = false ->
  exists n r m' fl' new,
    first_free (fs w) dest n /\ (n <= size (fs w))%nat
    /\ copy_file_safely self src dest retries delay w
       = (r, World m' (cwd w) fl'
               (trace w ++ resolution_probes dest n ++ new))
    /\ (r = Done tt
        \/ (exists e, r = Raised e /\ sleep_failure delay = Some e
                      /\ 1 < retries))
    /\ count_effects is_probe new = O
    /\ (count_effects is_copy2 new <= Z.to_nat retries)%nat
    /\ (count_effects is_sleep new <= Z.to_nat retries - 1)%nat
    /\ Forall (waits_for delay) new
    /\ Forall (targets src (candidate dest n)) new
    /\ residue (fs w) src (candidate dest n) m'
    /\ (forall x y, In (Copy2 x y None) new ->
        exists content,
          fs w !! src = Some (File content)
          /\ m' = <[candidate dest n := File content]> (fs w)).
Proof.
  intros Htmp. destruct w as [m c fl t]. cbn [fs cwd trace].
  destruct (first_free_exists m dest) as [n [Hn Hf]].
  rewrite (copy_file_safely_resolved _ _ _ _ _ _ _ _ _ n Htmp Hf Hn).
  destruct (attempts_run self src (candidate dest n) retries delay m c
              (proj1 Hf) (Z.to_nat retries) 0 m fl
              (t ++ resolution_probes dest n))
    as [r [m' [fl' [new [E H]]]]].
  { apply residue_refl. }
  { lia. }
  { destruct (Z.le_gt_cases retries 0); [left | right]; lia. }
  exists n, r, m', fl', new. rewrite E, <- app_assoc.
  split; [exact Hf|]. split; [exact Hn|]. split; [reflexivity | exact H].
Qed.

Lemma copy_file_safely_temporary self src dest retries delay w :
  is_temporary (posixpath.basename src) = true ->
  copy_file_safely self src dest retries delay w
  = (Done tt,
     emit (Log INFO ("File temporaneo ignorato: " +:+ posixpath.basename src)) w).
Proof.
  intros Htmp. unfold copy_file_safely, copy_file_safely_fuel.
  destruct (posixpath.splitext dest) as [b e]. rewrite Htmp. reflexivity.
Qed.



(** X2. The work of one call is bounded: the name resolution makes at
    most one existence probe more than the file system has entries, the
    retry loop makes at most [retries] copy attempts and waits at most
    [retries - 1] times, each time for [delay]. *)
Theorem copy_file_safely_bounded_work
    (self : CopyHandler) (src dest : string) (retries : Z) (delay : Q)
    (w : world) :
  exists new,
    trace (snd (copy_file_safely self src dest retries delay w))
    = trace w ++ new
    /\ (count_effects is_probe new <= S (size (fs w)))%nat
    /\ (count_effects is_copy2 new <= Z.to_nat retries)%nat
    /\ (count_effects is_sleep new <= Z.to_nat retries - 1)%nat
    /\ Forall (waits_for delay) new.
Proof.
  destruct (is_temporary (posixpath.basename src)) eqn:Htmp.
  - rewrite copy_file_safely_temporary by exact Htmp.
    eexists. split; [reflexivity|]. simpl.
    repeat split; try lia. repeat constructor.
  - destruct (copy_file_safely_run self src dest retries delay w Htmp)
      as [n [r [m' [fl' [new [_ [Hn [-> [_ [Hp [Hc [Hs [Hw _]]]]]]]]]]]]].
    destruct (resolution_probes_counts dest n) as [P1 [P2 [P3 P4]]].
    exists (resolution_probes dest n ++ new). cbn [snd trace].
    rewrite !count_effects_app, P1, P2, P3, Hp.
    split; [reflexivity|]. repeat split; try lia.
    apply Forall_app. split; [apply P4 | exact Hw].
Qed.

(** X3. A call changes the file system by at most one file: either
    nothing is written, or the source is a regular file and the one new
    entry is the resolved name, holding what the attempts have written
    of the content of the source -- its first bytes after a failure, all
    of it once an attempt went through; the source stays where it was. *)
Theorem copy_file_safely_faithful_copy
    (self : CopyHandler) (src dest : string) (retries : Z) (delay : Q)
    (w : world) :
  let w' := snd (copy_file_safely self src dest retries delay w) in
  exists new,
    trace w' = trace w ++ new
    /\ (fs w' = fs w
        \/ exists n content k,
             first_free (fs w) dest n
             /\ fs w !! src = Some (File content)
             /\ fs w' = <[candidate dest n := File (Str.take k content)]> (fs w)
             /\ fs w' !! src = Some (File content)
             /\ size (fs w') = S (size (fs w)))
    /\ (forall x y, In (Copy2 x y None) new ->
        exists n content,
          first_free (fs w) dest n
          /\ x = src /\ y = candidate dest n
          /\ fs w !! src = Some (File content)
          /\ fs w' = <[candidate dest n := File content]> (fs w)).
Proof.
  cbv zeta.
  destruct (is_temporary (posixpath.basename src)) eqn:Htmp.
  - rewrite copy_file_safely_temporary by exact Htmp. eexists.
    split; [reflexivity|]. split; [left; reflexivity|].
    intros x y [H | []]. discriminate H.
  - destruct (copy_file_safely_run self src dest retries delay w Htmp)
      as [n [r [m' [fl' [new [Hf [_ [-> [_ [_ [_ [_ [_ [Ht [Hm Hin]]]]]]]]]]]]]]].
    cbn [snd fs trace]. exists (resolution_probes dest n ++ new).
    split; [reflexivity|]. split.
    + destruct Hm as [-> | [content [k [Hsrc ->]]]]; [left; reflexivity | right].
      exists n, content, k. split; [exact Hf|]. split; [exact Hsrc|].
      split; [reflexivity|]. destruct Hf as [Hfree _]. split.
      * rewrite lookup_insert_ne; [exact Hsrc | congruence].
      * apply map_size_insert_None. exact Hfree.
    + intros x y Hxy. apply in_app_iff in Hxy as [Hxy | Hxy].
      { exfalso. eapply resolution_probes_no_copy, Hxy. }
      destruct (Hin x y Hxy) as [content [Hsrc ->]].
      rewrite List.Forall_forall in Ht. destruct (Ht _ Hxy) as [-> ->].
      exists n, content. auto.
Qed.

(** A full disk after two bytes. *)
Lemma copy_file_safely_faithful_copy_witness :
  let w := World ex_fs "/" [Some (Fault ex_disk_full (Some 2%nat))] [] in
  let w' := snd (copy_file_safely ex_handler "/src/a.xml" "/dst/a.xml" 3
                   (1 # 2) w) in
  exists new,
    trace w' = trace w ++ new
    /\ (fs w' = fs w
        \/ exists n content k,
             first_free (fs w) "/dst/a.xml" n
             /\ fs w !! "/src/a.xml" = Some (File content)
             /\ fs w' = <[candidate "/dst/a.xml" n
                           := File (Str.take k content)]> (fs w)
             /\ fs w' !! "/src/a.xml" = Some (File content)
             /\ size (fs w') = S (size (fs w)))
    /\ (forall x y, In (Copy2 x y None) new ->
        exists n content,
          first_free (fs w) "/dst/a.xml" n
          /\ x = "/src/a.xml" /\ y = candidate "/dst/a.xml" n
          /\ fs w !! "/src/a.xml" = Some (File content)
          /\ fs w' = <[candidate "/dst/a.xml" n := File content]> (fs w)).
Proof.
  exact (copy_file_safely_faithful_copy ex_handler "/src/a.xml" "/dst/a.xml" 3
           (1 # 2) (World ex_fs "/" [Some (Fault ex_disk_full (Some 2%nat))] [])).
Defined.

(** A copy that meets no failure: one attempt, to the resolved name. *)
Lemma copy_file_safely_unhindered self src dest retries delay m c t content n :
  is_temporary (posixpath.basename src) = false ->
  m !! src = Some (File content) ->
  1 <= retries ->
  first_free m dest n -> (n <= size m)%nat ->
  copy_file_safely self src dest retries delay (World m c [] t)
  = (Done tt,
     World (<[candidate dest n := File content]> m) c []
       (t ++ resolution_probes dest n
          ++ [Copy2 src (candidate dest n) None;
              copied_line self c src (candidate dest n)])).
Proof.
  intros Htmp Hsrc Hr Hf Hn.
  rewrite (copy_file_safely_resolved _ _ _ _ _ _ _ _ _ n Htmp Hf Hn).
  destruct (Z.to_nat retries) as [|k] eqn:Hk; [lia|].
  cbn [attempts]. unfold bind at 1.
  rewrite (attempt_once_copied _ _ _ _ _ _ _ _ content).
  - rewrite <- app_assoc. reflexivity.
  - unfold copy2_result, read_file. cbn [faults fs]. rewrite Hsrc. reflexivity.
  - apply first_free_not_dir. exact Hf.
Qed.

(** X4. Two events for the same file give two copies: when nothing
    fails, the second call of [copy_file_safely] with the same arguments
    resolves to a later candidate than the first, and afterwards both
    names hold the content of the source, next to everything that was
    there before. *)
Theorem repeated_copy_makes_numbered_duplicates
    (self : CopyHandler) (src dest : string) (retries : Z) (delay : Q)
    (w : world) (content : string) :
  is_temporary (posixpath.basename src) = false ->
  fs w !! src = Some (File content) ->
  faults w = [] ->
  1 <= retries ->
  let w1 := snd (copy_file_safely self src dest retries delay w) in
  let w2 := snd (copy_file_safely self src dest retries delay w1) in
  exists n1 n2,
    (n1 < n2)%nat
    /\ first_free (fs w) dest n1
    /\ first_free (fs w1) dest n2
    /\ fs w2 = <[candidate dest n2 := File content]>
                 (<[candidate dest n1 := File content]> (fs w))
    /\ fs w2 !! candidate dest n1 = Some (File content)
    /\ fs w2 !! candidate dest n2 = Some (File content)
    /\ size (fs w2) = S (S (size (fs w)))
    /\ forall p x, fs w !! p = Some x -> fs w2 !! p = Some x.
Proof.
  intros Htmp Hsrc Hfl Hr. destruct w as [m c fl t].
  cbn [fs faults] in *. subst fl. cbv zeta.
  destruct (first_free_exists m dest) as [n1 [Hn1 Hf1]].
  rewrite (copy_file_safely_unhindered self src dest retries delay m c t
             content n1 Htmp Hsrc Hr Hf1 Hn1).
  cbn [snd fs].
  set (m1 := <[candidate dest n1 := File content]> m).
  assert (Hne : src <> candidate dest n1).
  { destruct Hf1 as [Hnone _]. congruence. }
  assert (Hsrc1 : m1 !! src = Some (File content)).
  { unfold m1. rewrite lookup_insert_ne by congruence. exact Hsrc. }
  destruct (first_free_exists m1 dest) as [n2 [Hn2 Hf2]].
  rewrite (copy_file_safely_unhindered self src dest retries delay m1 c _
             content n2 Htmp Hsrc1 Hr Hf2 Hn2).
  cbn [snd fs].
  assert (Hlt : (n1 < n2)%nat).
  { destruct Hf1 as [Hnone1 Hbelow1]. destruct Hf2 as [Hnone2 _].
    destruct (Nat.lt_trichotomy n2 n1) as [H | [H | H]]; [| |exact H].
    - exfalso. apply (Hbelow1 n2 H).
      unfold m1 in Hnone2. rewrite lookup_insert_ne in Hnone2; [exact Hnone2|].
      intros E. apply candidate_inj in E. lia.
    - subst n2. unfold m1 in Hnone2. rewrite lookup_insert_eq in Hnone2.
      discriminate. }
  assert (Hcne : candidate dest n1 <> candidate dest n2).
  { intros E. apply candidate_inj in E. lia. }
  exists n1, n2. split; [exact Hlt|]. split; [exact Hf1|].
  split; [exact Hf2|]. split; [reflexivity|]. split.
  { rewrite lookup_insert_ne by congruence. unfold m1.
    apply lookup_insert_eq. }
  split; [apply lookup_insert_eq|]. split.
  { rewrite map_size_insert_None by apply Hf2. unfold m1.
    rewrite map_size_insert_None by apply Hf1. reflexivity. }
  intros p x Hp.
  destruct Hf1 as [Hnone1 _]. destruct Hf2 as [Hnone2 _].
  rewrite lookup_insert_ne.
  - unfold m1. rewrite lookup_insert_ne by congruence. exact Hp.
  - intros E. subst p. unfold m1 in Hnone2.
    destruct (decide (candidate dest n1 = candidate dest n2)) as [E|E];
      [contradiction|].
    rewrite lookup_insert_ne in Hnone2 by exact E. congruence.
Qed.

Lemma repeated_copy_makes_numbered_duplicates_witness :
  let w1 := snd (copy_file_safely ex_handler "/src/a.xml" "/dst/a.xml" 3 (1 # 2)
                   (ex_world [])) in
  let w2 := snd (copy_file_safely ex_handler "/src/a.xml" "/dst/a.xml" 3 (1 # 2)
                   w1) in
  exists n1 n2,
    (n1 < n2)%nat
    /\ first_free ex_fs "/dst/a.xml" n1
    /\ first_free (fs w1) "/dst/a.xml" n2
    /\ fs w2 = <[candidate "/dst/a.xml" n2 := File "<a/>"]>
                 (<[candidate "/dst/a.xml" n1 := File "<a/>"]> ex_fs)
    /\ fs w2 !! candidate "/dst/a.xml" n1 = Some (File "<a/>")
    /\ fs w2 !! candidate "/dst/a.xml" n2 = Some (File "<a/>")
    /\ size (fs w2) = S (S (size ex_fs))
    /\ forall p x, ex_fs !! p = Some x -> fs w2 !! p = Some x.
Proof.
  apply (repeated_copy_makes_numbered_duplicates ex_handler "/src/a.xml"
           "/dst/a.xml" 3 (1 # 2) (ex_world []) "<a/>").
  - reflexivity.
  - reflexivity.
  - reflexivity.
  - lia.
Defined.

(** With the retry parameters of [on_created] the safe copy returns. *)
Lemma copy_file_safely_default_returns self src dest w :
  fst (copy_file_safely self src dest default_retries default_delay w) = Done tt.
Proof.
  destruct (is_temporary (posixpath.basename src)) eqn:Htmp.
  - rewrite copy_file_safely_temporary by exact Htmp. reflexivity.
  - destruct (copy_file_safely_run self src dest default_retries default_delay
                w Htmp)
      as [n [r [m' [fl' [new [_ [_ [-> [[-> | [e [_ [Hq _]]]] _]]]]]]]]];
      [reflexivity | discriminate Hq].
Qed.

(** An accepted event is one call of the safe copy; the handler of
    [on_created] is not reached. *)
Lemma on_created_accepted self event w :
  is_directory event = false ->
  Str.contains "/" (event_rel_path self event w) = false ->
  Str.endswith (Str.lower (src_path event)) ".xml" = true ->
  on_created self event w
  = copy_file_safely self (src_path event) (event_dest_path self event)
      default_retries default_delay w.
Proof.
  intros Hd Hrel Hxml. unfold on_created.
  rewrite on_created_accepts by assumption. unfold try_except.
  pose proof (copy_file_safely_default_returns self (src_path event)
                (event_dest_path self event) w) as H.
  destruct (copy_file_safely self (src_path event)
              (event_dest_path self event) default_retries default_delay w)
    as [[u | e |] w1]; [reflexivity | discriminate | reflexivity].
Qed.

(** An event that is not accepted leaves the world as it is. *)
Lemma on_created_rejected self event w :
  is_directory event = true
  \/ Str.contains "/" (event_rel_path self event w) = true
  \/ Str.endswith (Str.lower (src_path event)) ".xml" = false ->
  snd (on_created self event w) = w
  /\ (src_path event <> EmptyString -> fst (on_created self event w) = Done tt).
Proof.
  intros H. unfold on_created.
  destruct (is_directory event) eqn:Hd.
  { rewrite on_created_directory by exact Hd. auto. }
  destruct (Str.nonempty (src_path event)) eqn:Hne.
  - destruct H as [H | [H | H]]; [discriminate | |].
    + rewrite on_created_nested by assumption. auto.
    + rewrite on_created_not_xml by assumption. auto.
  - destruct (src_path event) eqn:Hp; [|discriminate].
    rewrite on_created_empty_path by assumption. split; [reflexivity|].
    intros Hc. contradiction.
Qed.



(* ================================================================== *)
(** * Further properties of the listing *)
(* ================================================================== *)











Lemma take_digit_run k s :
  (k <= re.digit_run s)%nat -> all_digits (Str.take k s) = true.
Proof.
  revert s. induction k as [|k IH]; intros s Hk; [reflexivity|].
  destruct s as [|c s]; [reflexivity|]. cbn [re.digit_run] in Hk.
  cbn [Str.take all_digits].
  destruct (Str.is_digit c); [|lia]. apply IH. lia.
Qed.

Lemma match_digits_parts k s num e :
  (k <= re.digit_run s)%nat ->
  re.match_digits k s = Some (num, e) ->
  exists d, s = d +:+ e /\ all_digits d = true
            /\ num = (if Str.nonempty d then Some d else None).
Proof.
  induction k as [|k IH]; intros Hk; cbn [re.match_digits].
  - destruct (re.match_ext s) as [e'|] eqn:E; [|discriminate].
    intros H. injection H as <- <-. apply match_ext_some in E as [-> _].
    exists EmptyString. auto.
  - destruct (re.match_ext (Str.drop (S k) s)) as [e'|] eqn:E;
      [|apply IH; lia].
    intros H. injection H as <- <-. apply match_ext_some in E as [-> _].
    exists (Str.take (S k) s).
    split; [symmetry; apply str_take_drop|].
    split; [apply take_digit_run, Hk|].
    rewrite str_take_nonempty.
    destruct s; [cbn [re.digit_run] in Hk; lia | reflexivity].
Qed.

Lemma match_name_parts s :
  forall b num e,
    re.match_name s = Some (b, num, e) ->
    exists d, s = b +:+ d +:+ e /\ all_digits d = true
              /\ num = (if Str.nonempty d then Some d else None)
              /\ is_extension e.
Proof.
  induction s as [|c s IH]; intros b num e; rewrite match_name_unfold.
  - destruct (re.match_tail EmptyString) as [[num' e']|] eqn:E; [|discriminate].
    intros H. injection H as <- <- <-.
    destruct (match_digits_some _ _ _ _ E) as [_ [_ He]].
    destruct (match_digits_parts _ _ _ _ (Nat.le_refl _) E) as [d [Hs [Hd Hn]]].
    exists d. auto.
  - destruct (re.match_tail (String c s)) as [[num' e']|] eqn:E.
    + intros H. injection H as <- <- <-.
      destruct (match_digits_some _ _ _ _ E) as [_ [_ He]].
      destruct (match_digits_parts _ _ _ _ (Nat.le_refl _) E) as [d [Hs [Hd Hn]]].
      exists d. auto.
    + destruct (Ascii.eqb c re.newline); [discriminate|].
      destruct (re.match_name s) as [[[b' num'] e']|] eqn:E'; [|discriminate].
      intros H. injection H as <- <- <-.
      destruct (IH _ _ _ eq_refl) as [d [Hs [Hd [Hn He]]]].
      exists d. rewrite str_app_cons, <- Hs. auto.
Qed.

(** X8. The sort key of a name of ASCII characters loses nothing of the
    name but the spelling of its number: the name is the key's prefix, a
    run of digits whose value is the key's number, and the key's
    extension, in this order. *)
Theorem sort_key_recomposes (name : string) :
  Str.isascii name = true ->
  let '(base, num, ext) := extract_base_and_num name in
  exists digits,
    name = base +:+ digits +:+ ext
    /\ all_digits digits = true
    /\ num = digits_value digits
    /\ (ext = EmptyString \/ is_extension ext).
Proof.
  intros _. unfold extract_base_and_num.
  destruct (re.match_name name) as [[[b num] e]|] eqn:E.
  - destruct (match_name_parts _ _ _ _ E) as [d [Hs [Hd [Hn He]]]].
    exists d. subst num. unfold digits_value.
    destruct (Str.nonempty d); auto.
  - exists EmptyString. rewrite str_app_nil_l, str_app_nil_r. auto.
Qed.

Lemma sort_key_recomposes_witness :
  exists digits,
    "b010.xml" = "b" +:+ digits +:+ ".xml"
    /\ all_digits digits = true
    /\ 10%N = digits_value digits
    /\ (".xml" = EmptyString \/ is_extension ".xml").
Proof.
  exact (sort_key_recomposes "b010.xml" eq_refl).
Defined.

(** X9. Zeros in front of the trailing number do not show in the sort
    key, and a trailing 0 counts like no number, after a prefix of ASCII
    characters that holds no line break and does not end in a digit:
    b01.xml and b1.xml have one key, and so have b0.xml and b.xml. *)
Theorem zero_padding_shares_key (p d e : string) :
  Str.isascii p = true ->
  no_digit_suffix p -> no_line_break p ->
  all_digits d = true -> is_extension e ->
  extract_base_and_num (p +:+ "0" +:+ d +:+ e)
  = extract_base_and_num (p +:+ d +:+ e).
Proof.
  intros _ Hp Hnl Hd He. unfold extract_base_and_num.
  change ("0" +:+ d +:+ e) with (("0" +:+ d) +:+ e).
  rewrite (match_name_decomposed p ("0" +:+ d) e) by auto.
  rewrite (match_name_decomposed p d e) by auto.
  change (Str.nonempty ("0" +:+ d)) with true. cbv iota.
  destruct d as [|c d]; reflexivity.
Qed.

Lemma zero_padding_shares_key_witness :
  extract_base_and_num "b01.xml" = extract_base_and_num "b1.xml"
  /\ extract_base_and_num "b0.xml" = extract_base_and_num "b.xml".
Proof.
  split.
  - apply (zero_padding_shares_key "b" "1" ".xml"); try reflexivity.
    exists "xml". repeat split.
  - apply (zero_padding_shares_key "b" EmptyString ".xml"); try reflexivity.
    exists "xml". repeat split.
Defined.

(* ================================================================== *)
(** * Further properties of the reconciliation and of the worker *)
(* ================================================================== *)

(** X10. A reconciliation logs all of its three lines or none: it lists
    the source, then the destination, and logs only when both listings
    went through, the counts being the numbers of regular files whose
    lowercased name ends with .xml and the two lists holding exactly
    those names; when the source cannot be listed the destination is not
    even looked at.  It changes nothing on disk. *)
Theorem log_counts_all_or_nothing
    (env : environment) (n : nat) (s d : string) (w : world) :
  exists r new,
    log_counts env n s d w
    = (r, World (fs w) (cwd w) (faults w) (trace w ++ new))
    /\ match os_listdir env n s with
       | inl e => r = Raised e /\ new = [ListDir s]
       | inr src_entries =>
           match os_listdir env n d with
           | inl e => r = Raised e /\ new = [ListDir s; ListDir d]
           | inr dst_entries =>
               r = Done tt /\ reconciles s d src_entries dst_entries new
           end
       end.
Proof.
  rewrite log_counts_outcome.
  destruct (os_listdir env n s) as [e | ls]; [eauto|].
  destruct (os_listdir env n d) as [e | ld]; [eauto|].
  do 2 eexists. split; [reflexivity|]. split; [reflexivity|].
  apply reconciliation_reconciles.
Qed.

Lemma log_counts_all_or_nothing_witness :
  exists r new,
    log_counts (ex_env ex_entries) 0 "/src" "/dst" (ex_world [])
    = (r, World ex_fs "/" [] ([] ++ new))
    /\ r = Done tt /\ reconciles "/src" "/dst" ex_entries ex_entries new.
Proof.
  exact (log_counts_all_or_nothing (ex_env ex_entries) 0 "/src" "/dst"
           (ex_world [])).
Defined.

Ltac poll_effects :=
  repeat first [apply List.Forall_nil
               | apply List.Forall_cons; [simpl; auto|]].

Lemma log_counts_run env n s d w :
  exists r new,
    log_counts env n s d w
    = (r, World (fs w) (cwd w) (faults w) (trace w ++ new))
    /\ Forall (poll_effect s d) new
    /\ count_effects is_sleep new = O
    /\ (listable env n s -> listable env n d -> r = Done tt)
    /\ (forall e, listing_failure env n s d = Some e -> r = Raised e).
Proof.
  unfold log_counts, listing_failure. unfold bind at 1.
  rewrite count_files_outcome.
  destruct (os_listdir env n s) as [e | ls] eqn:Hs.
  - do 2 eexists. split; [reflexivity|].
    split; [|split; [reflexivity|split]].
    + poll_effects.
    + intros [l Hl]. unfold listable in *. congruence.
    + intros e' E. congruence.
  - unfold bind at 1. rewrite count_files_outcome.
    destruct (os_listdir env n d) as [e | ld] eqn:Hd.
    + unfold emit. cbn [fs cwd faults trace]. rewrite <- app_assoc.
      do 2 eexists. split; [reflexivity|].
      split; [|split; [reflexivity|split]].
      * poll_effects.
      * intros _ [l Hl]. congruence.
      * intros e' E. congruence.
    + io_unfold. cbn [fs cwd faults trace fst snd]. rewrite <- !app_assoc.
      do 2 eexists. split; [reflexivity|].
      split; [|split; [reflexivity|split]].
      * poll_effects.
      * reflexivity.
      * discriminate.
Qed.

(** The poll loop only waits, lists and logs. *)
Lemma poll_loop_run env s d i stop :
  forall fuel n w,
  exists r mid,
    poll_from fuel env s d i stop n w
    = (r, World (fs w) (cwd w) (faults w) (trace w ++ mid))
    /\ Forall (poll_effect s d) mid.
Proof.
  induction fuel as [|fuel IH]; intros n w.
  - exists Diverged, []. rewrite app_nil_r. destruct w. split; [reflexivity|].
    constructor.
  - rewrite poll_loop_unfold. destruct (stop_requested stop n).
    + exists (Done tt), [Sleep poll_tick]. split; [reflexivity|].
      repeat constructor.
    + unfold bind.
      assert (Hstep : exists r new,
                (if interval_elapsed env i n then log_counts env n s d
                 else ret tt) (emit (Sleep poll_tick) w)
                = (r, World (fs w) (cwd w) (faults w)
                        (trace w ++ Sleep poll_tick :: new))
                /\ Forall (poll_effect s d) new).
      { destruct (interval_elapsed env i n).
        - destruct (log_counts_run env n s d (emit (Sleep poll_tick) w))
            as [r [new [E [Hnew _]]]].
          exists r, new. rewrite E. cbn [emit fs cwd faults trace].
          rewrite <- app_assoc. auto.
        - exists (Done tt), []. split; [reflexivity | constructor]. }
      destruct Hstep as [r [new [-> Hnew]]].
      destruct r as [[] | e |].
      * destruct (IH (S n) (World (fs w) (cwd w) (faults w)
                              (trace w ++ Sleep poll_tick :: new)))
          as [r [mid [-> Hmid]]].
        cbn [fs cwd faults trace].
        exists r, (Sleep poll_tick :: new ++ mid).
        rewrite <- app_assoc. split; [reflexivity|].
        constructor; [reflexivity|]. apply Forall_app. auto.
      * exists (Raised e), (Sleep poll_tick :: new). split; [reflexivity|].
        constructor; [reflexivity | exact Hnew].
      * exists Diverged, (Sleep poll_tick :: new). split; [reflexivity|].
        constructor; [reflexivity | exact Hnew].
Qed.

(** X11. A worker whose directories exist watches the source directory
    alone, not its subdirectories, starts the observer once, and from
    then on only waits, lists its two directories and logs: it never
    copies and never changes the file system.  Whenever it terminates,
    by return or by exception, it has stopped and joined the observer
    and logged the last banner. *)
Theorem worker_lifecycle
    (fuel : nat) (env : environment) (s d : string) (i : Z)
    (stop : option stop_event) (w : world) :
  isdir_in (fs w) s = true -> isdir_in (fs w) d = true ->
  exists r mid,
    start_backup_worker fuel env s d i stop w
    = (r, World (fs w) (cwd w) (faults w)
            (trace w ++ worker_prelude s d ++ mid
               ++ (if terminated r then worker_shutdown else [])))
    /\ Forall (poll_effect s d) mid.
Proof.
  intros Hs Hd. rewrite start_backup_worker_running by assumption.
  unfold try_finally.
  destruct (poll_loop_run env s d i stop fuel 0
              (emit ObserverStart
                 (emit (Schedule s false)
                    (emit (Log INFO ("Backup worker avviato: " +:+ s +:+ " -> "
                                     +:+ d))
                       (emit (ProbeDir d true) (emit (ProbeDir s true) w))))))
    as [r [mid [-> Hmid]]].
  exists r, mid. split; [|exact Hmid].
  destruct r as [[] | e |]; io_unfold; cbn [fs cwd faults trace terminated];
    unfold worker_prelude, worker_shutdown; rewrite <- ?app_assoc;
    cbn [app]; rewrite ?app_nil_r; reflexivity.
Qed.

Lemma worker_lifecycle_witness :
  exists r mid,
    start_backup_worker 2 ex_env_gone "/src" "/dst" default_count_interval None
      (ex_world [])
    = (r, World ex_fs "/" []
            ([] ++ worker_prelude "/src" "/dst" ++ mid
                ++ (if terminated r then worker_shutdown else [])))
    /\ Forall (poll_effect "/src" "/dst") mid.
Proof.
  apply (worker_lifecycle 2 ex_env_gone "/src" "/dst" default_count_interval
           None (ex_world [])); reflexivity.
Defined.

(** The loop under a stop event that is first seen set at poll [k]. *)
Lemma poll_loop_stops env s d i (ev : stop_event) :
  forall fuel n w k,
    (forall j, (n <= j < k)%nat -> ev j = false) -> ev k = true ->
    (forall j, (n <= j < k)%nat -> interval_elapsed env i j = true ->
               listable env j s /\ listable env j d) ->
    (n <= k)%nat -> (k - n < fuel)%nat ->
    exists mid,
      poll_from fuel env s d i (Some ev) n w
      = (Done tt, World (fs w) (cwd w) (faults w)
                    (trace w ++ mid ++ [Sleep poll_tick]))
      /\ Forall (poll_effect s d) mid
      /\ count_effects is_sleep mid = (k - n)%nat.
Proof.
  induction fuel as [|fuel IH]; intros n w k Hbefore Hk Hlist Hn Hfuel; [lia|].
  rewrite poll_loop_unfold. cbn [stop_requested].
  destruct (decide (n = k)) as [->|Hne].
  - rewrite Hk. exists []. split; [reflexivity|].
    split; [constructor | simpl; lia].
  - rewrite Hbefore by lia. unfold bind at 1.
    assert (Hstep : exists new,
              (if interval_elapsed env i n then log_counts env n s d else ret tt)
                (emit (Sleep poll_tick) w)
              = (Done tt, World (fs w) (cwd w) (faults w)
                            (trace w ++ Sleep poll_tick :: new))
              /\ Forall (poll_effect s d) new
              /\ count_effects is_sleep new = O).
    { destruct (interval_elapsed env i n) eqn:E.
      - destruct (Hlist n ltac:(lia) E) as [H1 H2].
        destruct (log_counts_run env n s d (emit (Sleep poll_tick) w))
          as [r [new [E' [Hnew [Hc [Hr _]]]]]].
        exists new. rewrite E', (Hr H1 H2). cbn [emit fs cwd faults trace].
        rewrite <- app_assoc. auto.
      - exists []. split; [reflexivity|]. split; [constructor | reflexivity]. }
    destruct Hstep as [new [-> [Hnew Hc]]].
    destruct (IH (S n) (World (fs w) (cwd w) (faults w)
                          (trace w ++ Sleep poll_tick :: new)) k)
      as [mid [-> [Hmid Hcm]]]; auto; try lia.
    { intros j Hj. apply Hbefore. lia. }
    { intros j Hj. apply Hlist. lia. }
    cbn [fs cwd faults trace].
    exists (Sleep poll_tick :: new ++ mid).
    split; [rewrite <- ?app_assoc; cbn [app]; rewrite <- ?app_assoc;
            reflexivity|].
    split.
    + constructor; [reflexivity|]. apply Forall_app. auto.
    + cbn [count_effects is_sleep]. rewrite count_effects_app, Hc, Hcm. lia.
Qed.

(** X12. A stop request ends the worker at the poll that sees it: when
    the stop event is first seen set at poll [k] (and the directories
    could be listed until then), the worker has waited [k + 1] ticks in
    all, leaves the loop straight after the last of them, without a
    reconciliation even if one is due, stops and joins the observer, logs
    the last banner and returns normally. *)
Theorem stop_request_ends_worker
    (fuel : nat) (env : environment) (s d : string) (i : Z)
    (ev : stop_event) (k : nat) (w : world) :
  isdir_in (fs w) s = true -> isdir_in (fs w) d = true ->
  (forall j, (j < k)%nat -> ev j = false) -> ev k = true ->
  (forall j, (j < k)%nat -> interval_elapsed env i j = true ->
             listable env j s /\ listable env j d) ->
  (k < fuel)%nat ->
  exists mid,
    start_backup_worker fuel env s d i (Some ev) w
    = (Done tt,
       World (fs w) (cwd w) (faults w)
         (trace w ++ worker_prelude s d ++ mid ++ [Sleep poll_tick]
            ++ worker_shutdown))
    /\ Forall (poll_effect s d) mid
    /\ count_effects is_sleep (mid ++ [Sleep poll_tick]) = S k.
Proof.
  intros Hs Hd Hbefore Hk Hlist Hfuel.
  rewrite start_backup_worker_running by assumption. unfold try_finally.
  destruct (poll_loop_stops env s d i ev fuel 0
              (emit ObserverStart
                 (emit (Schedule s false)
                    (emit (Log INFO ("Backup worker avviato: " +:+ s +:+ " -> "
                                     +:+ d))
                       (emit (ProbeDir d true) (emit (ProbeDir s true) w)))))
              k)
    as [mid [-> [Hmid Hc]]]; try lia; auto.
  { intros j Hj. apply Hbefore. lia. }
  { intros j Hj. apply Hlist. lia. }
  exists mid. split; [|split; [exact Hmid|]].
  - io_unfold. cbn [fs cwd faults trace].
    unfold worker_prelude, worker_shutdown. rewrite <- ?app_assoc.
    cbn [app]. reflexivity.
  - rewrite count_effects_app, Hc. simpl. lia.
Qed.

Lemma stop_request_ends_worker_witness :
  exists mid,
    start_backup_worker 10 (ex_env ex_entries) "/src" "/dst"
      default_count_interval (Some (fun n => Nat.eqb n 1)) (ex_world [])
    = (Done tt,
       World ex_fs "/" []
         ([] ++ worker_prelude "/src" "/dst" ++ mid ++ [Sleep poll_tick]
             ++ worker_shutdown))
    /\ Forall (poll_effect "/src" "/dst") mid
    /\ count_effects is_sleep (mid ++ [Sleep poll_tick]) = 2%nat.
Proof.
  apply (stop_request_ends_worker 10 (ex_env ex_entries) "/src" "/dst"
           default_count_interval (fun n => Nat.eqb n 1) 1 (ex_world [])).
  - reflexivity.
  - reflexivity.
  - intros j Hj. destruct j as [|j]; [reflexivity | lia].
  - reflexivity.
  - intros j _ _. split; eexists; reflexivity.
  - lia.
Defined.

(** The loop when the reconciliation due at poll [k] cannot list. *)
Lemma poll_loop_fails env s d i stop e :
  forall fuel n w k,
    (forall j, (n <= j <= k)%nat -> stop_requested stop j = false) ->
    (forall j, (n <= j < k)%nat -> interval_elapsed env i j = true ->
               listable env j s /\ listable env j d) ->
    interval_elapsed env i k = true ->
    listing_failure env k s d = Some e ->
    (n <= k)%nat -> (k - n < fuel)%nat ->
    exists mid,
      poll_from fuel env s d i stop n w
      = (Raised e, World (fs w) (cwd w) (faults w) (trace w ++ mid))
      /\ Forall (poll_effect s d) mid.
Proof.
  induction fuel as [|fuel IH]; intros n w k Hstop Hlist Hk He Hn Hfuel; [lia|].
  rewrite poll_loop_unfold, Hstop by lia. unfold bind at 1.
  destruct (decide (n = k)) as [->|Hne].
  - rewrite Hk.
    destruct (log_counts_run env k s d (emit (Sleep poll_tick) w))
      as [r [new [E [Hnew [_ [_ Hr]]]]]].
    rewrite E, (Hr e He). cbn [emit fs cwd faults trace].
    exists (Sleep poll_tick :: new). rewrite <- app_assoc.
    split; [reflexivity|]. constructor; [reflexivity | exact Hnew].
  - assert (Hstep : exists new,
              (if interval_elapsed env i n then log_counts env n s d else ret tt)
                (emit (Sleep poll_tick) w)
              = (Done tt, World (fs w) (cwd w) (faults w)
                            (trace w ++ Sleep poll_tick :: new))
              /\ Forall (poll_effect s d) new).
    { destruct (interval_elapsed env i n) eqn:E.
      - destruct (Hlist n ltac:(lia) E) as [H1 H2].
        destruct (log_counts_run env n s d (emit (Sleep poll_tick) w))
          as [r [new [E' [Hnew [_ [Hr _]]]]]].
        exists new. rewrite E', (Hr H1 H2). cbn [emit fs cwd faults trace].
        rewrite <- app_assoc. auto.
      - exists []. split; [reflexivity | constructor]. }
    destruct Hstep as [new [-> Hnew]].
    destruct (IH (S n) (World (fs w) (cwd w) (faults w)
                          (trace w ++ Sleep poll_tick :: new)) k)
      as [mid [-> Hmid]]; auto; try lia.
    { intros j Hj. apply Hstop. lia. }
    { intros j Hj. apply Hlist. lia. }
    cbn [fs cwd faults trace].
    exists (Sleep poll_tick :: new ++ mid).
    split; [rewrite <- ?app_assoc; cbn [app]; rewrite <- ?app_assoc;
            reflexivity|].
    constructor; [reflexivity|]. apply Forall_app. auto.
Qed.

(** X21. A reconciliation that cannot list a directory ends the worker:
    when, before any stop request is seen, the reconciliation due at
    poll [k] fails to list the source or the destination, the exception
    of the listing leaves [start_backup_worker], after the observer has
    been stopped and joined and the last banner logged; from then on no
    file is copied. *)
Theorem listing_failure_stops_worker
    (fuel : nat) (env : environment) (s d : string) (i : Z)
    (stop : option stop_event) (k : nat) (e : exn) (w : world) :
  isdir_in (fs w) s = true -> isdir_in (fs w) d = true ->
  (forall j, (j <= k)%nat -> stop_requested stop j = false) ->
  (forall j, (j < k)%nat -> interval_elapsed env i j = true ->
             listable env j s /\ listable env j d) ->
  interval_elapsed env i k = true ->
  listing_failure env k s d = Some e ->
  (k < fuel)%nat ->
  exists mid,
    start_backup_worker fuel env s d i stop w
    = (Raised e,
       World (fs w) (cwd w) (faults w)
         (trace w ++ worker_prelude s d ++ mid ++ worker_shutdown))
    /\ Forall (poll_effect s d) mid.
Proof.
  intros Hs Hd Hstop Hlist Hk He Hfuel.
  rewrite start_backup_worker_running by assumption. unfold try_finally.
  destruct (poll_loop_fails env s d i stop e fuel 0
              (emit ObserverStart
                 (emit (Schedule s false)
                    (emit (Log INFO ("Backup worker avviato: " +:+ s +:+ " -> "
                                     +:+ d))
                       (emit (ProbeDir d true) (emit (ProbeDir s true) w)))))
              k)
    as [mid [-> Hmid]]; try lia; auto.
  { intros j Hj. apply Hstop. lia. }
  { intros j Hj. apply Hlist. lia. }
  exists mid. split; [|exact Hmid].
  io_unfold. cbn [fs cwd faults trace].
  unfold worker_prelude, worker_shutdown. rewrite <- ?app_assoc.
  cbn [app]. reflexivity.
Qed.

Lemma listing_failure_stops_worker_witness :
  exists mid,
    start_backup_worker 5 ex_env_gone "/src" "/dst" default_count_interval
      (Some (fun n => Nat.eqb n 3)) (ex_world [])
    = (Raised (Exn FileNotFoundError
                   "[Errno 2] No such file or directory: '/src'"),
       World ex_fs "/" []
         ([] ++ worker_prelude "/src" "/dst" ++ mid ++ worker_shutdown))
    /\ Forall (poll_effect "/src" "/dst") mid.
Proof.
  apply (listing_failure_stops_worker 5 ex_env_gone "/src" "/dst"
           default_count_interval (Some (fun n => Nat.eqb n 3)) 0
           (Exn FileNotFoundError "[Errno 2] No such file or directory: '/src'")
           (ex_world [])).
  - reflexivity.
  - reflexivity.
  - intros j Hj. replace j with O by lia. reflexivity.
  - intros j Hj. lia.
  - reflexivity.
  - reflexivity.
  - lia.
Defined.

(* ================================================================== *)
(** * Where the copies go *)
(* ================================================================== *)

Lemma rfind_app c x t :
  Str.rfind c (x +:+ t)
  = if 0 <=? Str.rfind c t then Z.of_nat (String.length x) + Str.rfind c t
    else Str.rfind c x.
Proof.
  induction x as [|a x IH].
  - rewrite str_app_nil_l. cbn [String.length Str.rfind].
    destruct (Z.leb_spec 0 (Str.rfind c t)); [lia|].
    pose proof (rfind_range c t). lia.
  - rewrite str_app_cons. cbn [Str.rfind String.length]. rewrite IH.
    destruct (Z.leb_spec 0 (Str.rfind c t)) as [H|H].
    + destruct (Z.leb_spec 0 (Z.of_nat (String.length x) + Str.rfind c t)); lia.
    + reflexivity.
Qed.

Lemma rfind_absent c t : Str.contains c t = false -> Str.rfind c t = -1.
Proof.
  intros H. rewrite <- rfind_contains in H.
  pose proof (rfind_range c t). destruct (Z.leb_spec 0 (Str.rfind c t)); [discriminate | lia].
Qed.

Lemma str_take_app_ge k x t :
  Str.take (String.length x + k) (x +:+ t) = x +:+ Str.take k t.
Proof.
  induction x as [|a x IH]; [rewrite !str_app_nil_l; reflexivity|].
  rewrite !str_app_cons. cbn [String.length Nat.add Str.take]. rewrite IH.
  reflexivity.
Qed.

Lemma str_drop_app_ge k x t :
  Str.drop (String.length x + k) (x +:+ t) = Str.drop k t.
Proof.
  induction x as [|a x IH]; [rewrite !str_app_nil_l; reflexivity|].
  rewrite !str_app_cons. cbn [String.length Nat.add Str.drop]. exact IH.
Qed.

Lemma contains_take_drop c k s :
  Str.contains c s = false ->
  Str.contains c (Str.take k s) = false /\ Str.contains c (Str.drop k s) = false.
Proof.
  intros H. rewrite <- (str_take_drop k s), contains_app in H.
  apply orb_false_iff in H. exact H.
Qed.

Lemma str_drop_succ n : forall s, Str.drop (S n) s = Str.drop 1 (Str.drop n s).
Proof.
  induction n as [|n IH]; intros s; [reflexivity|].
  destruct s as [|a s]; [reflexivity|].
  change (Str.drop (S (S n)) (String a s)) with (Str.drop (S n) s).
  change (Str.drop (S n) (String a s)) with (Str.drop n s). apply IH.
Qed.

Lemma basename_no_sep p : Str.contains "/" (posixpath.basename p) = false.
Proof.
  unfold posixpath.basename, posixpath.after_sep, posixpath.sep.
  destruct (Z.leb_spec 0 (Str.rfind "/" p)) as [H|H].
  - destruct (rfind_drop "/" p H) as [t [Ht Hc]].
    replace (Z.to_nat (Str.rfind "/" p + 1))
      with (S (Z.to_nat (Str.rfind "/" p))) by lia.
    rewrite str_drop_succ, Ht. exact Hc.
  - pose proof (rfind_range "/" p).
    replace (Str.rfind "/" p + 1) with 0 by lia.
    change (Str.drop (Z.to_nat 0) p) with (Str.drop 0 p).
    replace (Str.drop 0 p) with p by (destruct p; reflexivity).
    rewrite <- rfind_contains.
    destruct (Z.leb_spec 0 (Str.rfind "/" p)); [lia | reflexivity].
Qed.

Lemma uint_no_sep d : Str.contains "/" (NilEmpty.string_of_uint d) = false.
Proof. induction d; simpl; auto. Qed.

Lemma of_int_no_sep z : Str.contains "/" (Str.of_int z) = false.
Proof.
  unfold Str.of_int, NilZero.string_of_int, NilZero.string_of_uint.
  destruct (Z.to_int z) as [d | d]; destruct d; try reflexivity;
    try apply (uint_no_sep (_ d));
    cbn [Str.contains]; try apply (uint_no_sep (_ d)).
Qed.

Lemma startswith_sep b :
  Str.startswith b "/" = true -> Str.contains "/" b = true.
Proof.
  destruct b as [|a b]; [discriminate|]. cbn [Str.startswith Str.contains].
  destruct (Ascii.eqb a "/"); [reflexivity | discriminate].
Qed.

Lemma join_leaf dir b :
  Str.contains "/" b = false -> posixpath.join dir b = dir_prefix dir +:+ b.
Proof.
  intros Hb. unfold posixpath.join, dir_prefix.
  destruct (Str.startswith b "/") eqn:E.
  - apply startswith_sep in E. congruence.
  - destruct (negb (Str.nonempty dir) || Str.endswith dir "/");
      [reflexivity | rewrite str_app_assoc; reflexivity].
Qed.

Lemma dir_prefix_shape dir :
  dir_prefix dir = EmptyString \/ exists x, dir_prefix dir = x +:+ "/".
Proof.
  unfold dir_prefix. destruct dir as [|a dir]; [left; reflexivity | right].
  cbn [Str.nonempty negb orb].
  destruct (Str.endswith (String a dir) "/") eqn:E.
  - apply endswith_spec in E. exact E.
  - eexists. reflexivity.
Qed.

(** The extension of a path is cut out of its last component. *)
Lemma splitext_leaf pre b :
  pre = EmptyString \/ (exists x, pre = x +:+ "/") ->
  Str.contains "/" b = false ->
  exists b1 b2,
    b = b1 +:+ b2 /\ posixpath.splitext (pre +:+ b) = (pre +:+ b1, b2).
Proof.
  intros Hpre Hb.
  assert (Hsep : Str.rfind "/" (pre +:+ b)
                 = Z.of_nat (String.length pre) - 1).
  { rewrite rfind_app, (rfind_absent _ _ Hb). cbn [Z.leb Z.compare].
    destruct Hpre as [-> | [x ->]]; [reflexivity|].
    rewrite (rfind_last "/" x EmptyString eq_refl), str_length_app.
    cbn [String.length]. lia. }
  unfold posixpath.splitext, posixpath.sep, posixpath.extsep. rewrite Hsep.
  destruct (Z.ltb_spec (Z.of_nat (String.length pre) - 1)
                       (Str.rfind "." (pre +:+ b))) as [Hlt|Hge].
  - destruct (Str.all_char "." _).
    + exists b, EmptyString. rewrite !str_app_nil_r. auto.
    + assert (Hdot : 0 <= Str.rfind "." b).
      { rewrite rfind_app in Hlt.
        destruct (Z.leb_spec 0 (Str.rfind "." b)); [assumption|].
        pose proof (rfind_range "." pre). lia. }
      rewrite rfind_app in *.
      destruct (Z.leb_spec 0 (Str.rfind "." b)); [|lia].
      replace (Z.to_nat (Z.of_nat (String.length pre) + Str.rfind "." b))
        with (String.length pre + Z.to_nat (Str.rfind "." b))%nat by lia.
      rewrite str_take_app_ge, str_drop_app_ge.
      exists (Str.take (Z.to_nat (Str.rfind "." b)) b),
             (Str.drop (Z.to_nat (Str.rfind "." b)) b).
      split; [symmetry; apply str_take_drop | reflexivity].
  - exists b, EmptyString. rewrite !str_app_nil_r. auto.
Qed.

(** Every candidate for the copy of an entry lies next to it. *)
Lemma candidate_directly_under dir b n :
  Str.nonempty b = true -> Str.contains "/" b = false ->
  directly_under dir (candidate (posixpath.join dir b) n).
Proof.
  intros Hne Hb. rewrite join_leaf by exact Hb. destruct n as [|n].
  - exists b. auto.
  - unfold candidate.
    destruct (splitext_leaf (dir_prefix dir) b (dir_prefix_shape dir) Hb)
      as [b1 [b2 [Hsplit ->]]].
    exists (b1 +:+ " " +:+ Str.of_int (Z.of_nat (S n)) +:+ b2).
    rewrite !str_app_assoc. split; [reflexivity|].
    rewrite Hsplit, contains_app in Hb. apply orb_false_iff in Hb as [H1 H2].
    split.
    + destruct b1; reflexivity.
    + rewrite !contains_app, H1, H2, of_int_no_sep. reflexivity.
Qed.

Lemma lower_char_sep c : Ascii.eqb (Str.lower_char c) "/" = Ascii.eqb c "/".
Proof. destruct c as [[] [] [] [] [] [] [] []]; reflexivity. Qed.

Lemma contains_sep_lower s :
  Str.contains "/" (Str.lower s) = Str.contains "/" s.
Proof.
  induction s as [|c s IH]; [reflexivity|].
  cbn [Str.lower Str.contains]. rewrite lower_char_sep, IH. reflexivity.
Qed.

Lemma lower_suffix p : forall x e,
  Str.lower p = x +:+ e -> exists q t, p = q +:+ t /\ Str.lower t = e.
Proof.
  induction p as [|c p IH]; intros x e H.
  - exists EmptyString, EmptyString. cbn [Str.lower] in *.
    destruct x; [|discriminate]. rewrite str_app_nil_l in H. auto.
  - destruct x as [|a x].
    + rewrite str_app_nil_l in H. exists EmptyString, (String c p). auto.
    + cbn [Str.lower] in H. rewrite str_app_cons in H. injection H as _ H.
      destruct (IH _ _ H) as [q [t [-> Ht]]].
      exists (String c q), t. auto.
Qed.

Lemma basename_app_leaf q t :
  Str.contains "/" t = false ->
  posixpath.basename (q +:+ t) = posixpath.basename q +:+ t.
Proof.
  intros Ht. unfold posixpath.basename, posixpath.after_sep, posixpath.sep.
  rewrite rfind_app, (rfind_absent _ _ Ht). cbn [Z.leb Z.compare].
  pose proof (rfind_range "/" q) as Hr.
  remember (Z.to_nat (Str.rfind "/" q + 1)) as k.
  assert (Hk : (k <= String.length q)%nat) by lia.
  clear Heqk Hr. revert k Hk. induction q as [|a q IH]; intros k Hk.
  - cbn [String.length] in Hk. replace k with O by lia.
    rewrite str_app_nil_l. destruct t; reflexivity.
  - destruct k as [|k]; [reflexivity|]. rewrite str_app_cons.
    cbn [Str.drop]. apply IH. cbn [String.length] in Hk. lia.
Qed.

(** The name of an accepted file: not empty and free of separators. *)
Lemma xml_basename p :
  Str.endswith (Str.lower p) ".xml" = true ->
  Str.nonempty (posixpath.basename p) = true.
Proof.
  intros H. apply endswith_spec in H as [x H].
  apply lower_suffix in H as [q [t [-> Ht]]].
  assert (Hsep : Str.contains "/" t = false).
  { rewrite <- contains_sep_lower, Ht. reflexivity. }
  rewrite basename_app_leaf by exact Hsep.
  assert (Hne : Str.nonempty t = true).
  { rewrite <- lower_nonempty, Ht. reflexivity. }
  destruct (posixpath.basename q); [rewrite str_app_nil_l; exact Hne|].
  reflexivity.
Qed.

(** X13. [on_created] writes nowhere but directly into the destination
    directory: every copy attempt it makes reads the path of the event
    and aims at a name without separator placed right under [dest_dir],
    never at the directory itself, a subdirectory or a path outside. *)
Theorem copies_land_in_dest_dir
    (self : CopyHandler) (event : FileSystemEvent) (w : world) :
  exists new,
    trace (snd (on_created self event w)) = trace w ++ new
    /\ forall s x f,
         In (Copy2 s x f) new ->
         s = src_path event /\ directly_under (dest_dir self) x.
Proof.
  assert (Hrej : snd (on_created self event w) = w ->
                 exists new,
                   trace (snd (on_created self event w)) = trace w ++ new
                   /\ forall s x f,
                        In (Copy2 s x f) new ->
                        s = src_path event /\ directly_under (dest_dir self) x).
  { intros ->. exists []. rewrite app_nil_r. split; [reflexivity|].
    intros s x f []. }
  destruct (is_directory event) eqn:Hd;
    [apply Hrej, on_created_rejected; auto|].
  destruct (Str.contains "/" (event_rel_path self event w)) eqn:Hrel;
    [apply Hrej, on_created_rejected; auto|].
  destruct (Str.endswith (Str.lower (src_path event)) ".xml") eqn:Hxml;
    [|apply Hrej, on_created_rejected; auto].
  clear Hrej. rewrite on_created_accepted by assumption.
  destruct (is_temporary (posixpath.basename (src_path event))) eqn:Htmp.
  - rewrite copy_file_safely_temporary by exact Htmp.
    eexists. split; [reflexivity|].
    intros s x f [H | []]. discriminate.
  - destruct (copy_file_safely_run self (src_path event)
                (event_dest_path self event) default_retries default_delay
                w Htmp)
      as [n [r [m' [fl' [new [_ [_ [-> [_ [_ [_ [_ [_ [Ht _]]]]]]]]]]]]]].
    eexists. split; [reflexivity|]. intros s x f Hin.
    apply in_app_or in Hin as [Hin | Hin].
    + exfalso. eapply resolution_probes_no_copy, Hin.
    + rewrite List.Forall_forall in Ht. destruct (Ht _ Hin) as [-> ->].
      split; [reflexivity|]. unfold event_dest_path.
      apply candidate_directly_under;
        [apply xml_basename, Hxml | apply basename_no_sep].
Qed.

Lemma copies_land_in_dest_dir_witness :
  exists new,
    trace (snd (on_created ex_handler (ex_event "/src/a.xml")
                  (ex_world [Some ex_locked])))
    = [] ++ new
    /\ forall s x f,
         In (Copy2 s x f) new ->
         s = "/src/a.xml" /\ directly_under "/dst" x.
Proof.
  exact (copies_land_in_dest_dir ex_handler (ex_event "/src/a.xml")
           (ex_world [Some ex_locked])).
Defined.

(* ================================================================== *)
(** * Paths below the watched directory *)
(* ================================================================== *)

(** ** Splitting and joining at separators *)

Lemma split_nonnil c s : Str.split c s <> [].
Proof.
  destruct s as [|a s]; [discriminate|]. cbn [Str.split].
  destruct (Str.split c s); [discriminate|].
  destruct (Ascii.eqb a c); discriminate.
Qed.

Lemma split_app_sep c x y :
  Str.split c (x +:+ String c y) = Str.split c x ++ Str.split c y.
Proof.
  induction x as [|a x IH].
  - rewrite str_app_nil_l. cbn [Str.split].
    destruct (Str.split c y) eqn:E; [destruct (split_nonnil _ _ E)|].
    rewrite Ascii.eqb_refl. reflexivity.
  - rewrite str_app_cons. cbn [Str.split]. rewrite IH.
    destruct (Str.split c x) as [|u us] eqn:E; [destruct (split_nonnil _ _ E)|].
    cbn [app]. destruct (Ascii.eqb a c); reflexivity.
Qed.

Lemma split_absent c s : Str.contains c s = false -> Str.split c s = [s].
Proof.
  induction s as [|a s IH]; [reflexivity|]. cbn [Str.contains Str.split].
  intros H. apply orb_false_iff in H as [Ha Hs]. rewrite (IH Hs), Ha.
  reflexivity.
Qed.

Lemma split_no_sep c s :
  Forall (fun x => Str.contains c x = false) (Str.split c s).
Proof.
  induction s as [|a s IH]; [repeat constructor|]. cbn [Str.split].
  destruct (Str.split c s) as [|u us]; [repeat constructor|].
  apply List.Forall_cons_iff in IH as [Hu Hus].
  destruct (Ascii.eqb a c) eqn:E.
  - constructor; [reflexivity|]. constructor; assumption.
  - constructor; [|assumption]. cbn [Str.contains]. rewrite E. exact Hu.
Qed.

Lemma join_cons sep a b l :
  Str.join sep (a :: b :: l) = a +:+ sep +:+ Str.join sep (b :: l).
Proof. reflexivity. Qed.

Lemma split_join c ns :
  ns <> [] -> Forall (fun x => Str.contains c x = false) ns ->
  Str.split c (Str.join (String c EmptyString) ns) = ns.
Proof.
  induction ns as [|a ns IH]; [congruence|]. intros _ H.
  apply List.Forall_cons_iff in H as [Ha Hns]. destruct ns as [|b ns].
  - apply split_absent, Ha.
  - rewrite join_cons. change (String c EmptyString +:+ ?x) with (String c x).
    rewrite split_app_sep, (split_absent _ _ Ha), IH by (congruence || assumption).
    reflexivity.
Qed.

(** ** The components of a normalised absolute path *)

Lemma plain_name_spec b :
  plain_name b = true ->
  clean b /\ String.eqb b EmptyString = false
  /\ String.eqb b "." = false /\ String.eqb b ".." = false.
Proof.
  unfold plain_name, clean. rewrite !andb_true_iff, !negb_true_iff.
  intros [[[H1 H2] H3] H4]. repeat split; auto.
  destruct b; [discriminate | reflexivity].
Qed.

Lemma norm_comps_app i cs rest : forall acc,
  posixpath.norm_comps i (cs ++ rest) acc
  = posixpath.norm_comps i rest (posixpath.norm_comps i cs acc).
Proof.
  induction cs as [|comp cs IH]; intros acc; [reflexivity|].
  cbn [app posixpath.norm_comps].
  destruct (String.eqb comp EmptyString || String.eqb comp "."); [apply IH|].
  destruct (negb (String.eqb comp "..") || _ || _); apply IH.
Qed.

Lemma norm_comps_plain i ns : forall acc,
  Forall (fun b => plain_name b = true) ns ->
  posixpath.norm_comps i ns acc = acc ++ ns.
Proof.
  induction ns as [|b ns IH]; intros acc H; [symmetry; apply app_nil_r|].
  apply List.Forall_cons_iff in H as [Hb Hns].
  apply plain_name_spec in Hb as [_ [H0 [H1 H2]]].
  cbn [posixpath.norm_comps]. rewrite H0, H1, H2. cbn [orb negb].
  rewrite IH by exact Hns. rewrite <- app_assoc. reflexivity.
Qed.

Lemma norm_comps_rooted i cs : forall acc,
  (0 < i)%nat ->
  posixpath.norm_comps i cs acc = posixpath.norm_comps 1 cs acc.
Proof.
  induction cs as [|comp cs IH]; intros acc Hi; [reflexivity|].
  cbn [posixpath.norm_comps]. rewrite !IH by exact Hi.
  destruct i; [lia | reflexivity].
Qed.

Lemma Forall_removelast {A} (P : A -> Prop) l :
  Forall P l -> Forall P (removelast l).
Proof.
  induction 1 as [|x l Hx Hl IH]; [constructor|].
  cbn [removelast]. destruct l; [constructor|]. constructor; assumption.
Qed.

Lemma norm_comps_clean i cs : forall acc,
  Forall (fun x => Str.contains "/" x = false) cs ->
  Forall clean acc ->
  Forall clean (posixpath.norm_comps i cs acc).
Proof.
  induction cs as [|comp cs IH]; intros acc Hcs Hacc; [exact Hacc|].
  apply List.Forall_cons_iff in Hcs as [Hc Hcs].
  cbn [posixpath.norm_comps].
  destruct (String.eqb comp EmptyString) eqn:E0; [apply IH; assumption|].
  destruct (String.eqb comp "."); [apply IH; assumption|]. cbn [orb].
  destruct (negb (String.eqb comp "..") || _ || _).
  - apply IH; [assumption|]. apply Forall_app. split; [assumption|].
    constructor; [|constructor]. split; [|exact Hc].
    destruct comp; [discriminate | reflexivity].
  - apply IH; [assumption | apply Forall_removelast; assumption].
Qed.

Lemma lstrip_clean c x :
  Str.nonempty x = true -> Str.contains c x = false -> Str.lstrip c x = x.
Proof.
  destruct x as [|a x]; [discriminate|]. intros _ H.
  cbn [Str.contains] in H. apply orb_false_iff in H as [H _].
  cbn [Str.lstrip]. rewrite H. reflexivity.
Qed.

Lemma join_clean_head a l :
  clean a ->
  exists c t, Str.join "/" (a :: l) = String c t /\ Ascii.eqb c "/" = false.
Proof.
  intros [Hne Hs]. destruct a as [|c a]; [discriminate|].
  cbn [Str.contains] in Hs. apply orb_false_iff in Hs as [Hc _].
  destruct l as [|b l].
  - exists c, a. auto.
  - rewrite join_cons, str_app_cons. eexists _, _. split; [reflexivity | exact Hc].
Qed.

(** The components that [relpath] sees of an absolute path. *)
Lemma abs_components x :
  posixpath.isabs x = true ->
  posixpath.components (Str.lstrip posixpath.sep (posixpath.normpath x))
  = posixpath.norm_comps 1 (Str.split posixpath.sep x) [].
Proof.
  unfold posixpath.isabs. intros Habs.
  assert (Hne : Str.nonempty x = true).
  { destruct x; [discriminate | reflexivity]. }
  unfold posixpath.normpath. rewrite Hne, Habs. cbn [negb].
  set (i := if Str.startswith x "//" && negb (Str.startswith x "///")
            then 2%nat else 1%nat).
  assert (Hi : (0 < i)%nat) by (unfold i; destruct (_ && _); lia).
  rewrite (norm_comps_rooted i) by exact Hi.
  pose proof (norm_comps_clean 1 (Str.split posixpath.sep x) []
                (split_no_sep _ _) (List.Forall_nil _)) as Hclean.
  set (comps := posixpath.norm_comps 1 (Str.split posixpath.sep x) []) in *.
  assert (Hstrip : Str.lstrip posixpath.sep
                     (Str.take i "//" +:+ Str.join "/" comps)
                   = Str.join "/" comps).
  { assert (H : Str.lstrip posixpath.sep (Str.join "/" comps)
                = Str.join "/" comps).
    { destruct comps as [|a l]; [reflexivity|].
      apply List.Forall_cons_iff in Hclean as [Ha _].
      destruct (join_clean_head a l Ha) as [c [t [-> Hc]]].
      cbn [Str.lstrip]. unfold posixpath.sep. rewrite Hc. reflexivity. }
    unfold i. destruct (_ && _); cbn [Str.take];
      rewrite ?str_app_cons, ?str_app_nil_l; cbn [Str.lstrip];
      unfold posixpath.sep in *; cbn [Ascii.eqb Bool.eqb]; exact H. }
  assert (Hpath : Str.nonempty (Str.take i "//" +:+ Str.join "/" comps) = true).
  { unfold i. destruct (_ && _); reflexivity. }
  rewrite Hpath, Hstrip. unfold posixpath.components.
  destruct comps as [|a l]; [reflexivity|].
  pose proof Hclean as Hclean'.
  apply List.Forall_cons_iff in Hclean' as [Ha _].
  destruct (join_clean_head a l Ha) as [c [t [E Hc]]]. rewrite E.
  cbn [Str.nonempty]. rewrite <- E.
  apply (split_join "/"); [discriminate|].
  eapply Forall_impl; [exact Hclean|]. intros y [_ Hy]. exact Hy.
Qed.

(** ** Joining a relative path to a directory *)

Lemma join_relative dir r :
  Str.startswith r "/" = false -> posixpath.join dir r = dir_prefix dir +:+ r.
Proof.
  intros Hr. unfold posixpath.join, dir_prefix. rewrite Hr.
  destruct (negb (Str.nonempty dir) || Str.endswith dir "/");
    [reflexivity | rewrite str_app_assoc; reflexivity].
Qed.

Lemma endswith_app_r x s t :
  Str.endswith s t = true -> Str.endswith (x +:+ s) t = true.
Proof.
  intros H. apply endswith_spec in H as [p ->]. apply endswith_spec.
  exists (x +:+ p). symmetry. apply str_app_assoc.
Qed.

Lemma endswith_char_cons a s c :
  Str.endswith (String a s) (String c EmptyString)
  = if Str.nonempty s then Str.endswith s (String c EmptyString)
    else Ascii.eqb a c.
Proof.
  rewrite endswith_cons. destruct s as [|b s]; cbn [Str.nonempty].
  - rewrite endswith_nil. cbn [String.eqb].
    destruct (Ascii.eqb a c); reflexivity.
  - cbn [String.eqb]. destruct (Ascii.eqb a c); reflexivity.
Qed.

Lemma endswith_sep_app x a s :
  Str.endswith (x +:+ String a s) "/" = Str.endswith (String a s) "/".
Proof.
  induction x as [|b x IH]; [rewrite str_app_nil_l; reflexivity|].
  rewrite str_app_cons, endswith_char_cons.
  destruct (x +:+ String a s) eqn:E; [|exact IH].
  destruct x; discriminate.
Qed.

Lemma dir_prefix_idem dir : dir_prefix (dir_prefix dir) = dir_prefix dir.
Proof.
  destruct (dir_prefix_shape dir) as [-> | [x ->]]; [reflexivity|].
  unfold dir_prefix.
  replace (Str.endswith (x +:+ "/") "/") with true;
    [rewrite orb_true_r; reflexivity|].
  symmetry. apply endswith_spec. exists x. reflexivity.
Qed.

Lemma dir_prefix_app x a s :
  dir_prefix (x +:+ String a s) = x +:+ dir_prefix (String a s).
Proof.
  unfold dir_prefix. rewrite endswith_sep_app.
  replace (Str.nonempty (x +:+ String a s)) with true
    by (destruct x; reflexivity).
  cbn [Str.nonempty negb orb].
  destruct (Str.endswith (String a s) "/");
    [reflexivity | apply str_app_assoc].
Qed.

Lemma startswith_app_l x y t :
  Str.startswith x t = true -> Str.startswith (x +:+ y) t = true.
Proof.
  revert x. induction t as [|c t IH]; intros x H; [reflexivity|].
  destruct x as [|a x]; [discriminate|]. rewrite str_app_cons.
  cbn [Str.startswith] in *. apply andb_true_iff in H as [-> H].
  apply IH, H.
Qed.

Lemma dir_prefix_head a s :
  exists t, dir_prefix (String a s) = String a t.
Proof.
  unfold dir_prefix. destruct (_ || _); [|rewrite str_app_cons]; eauto.
Qed.

(** [abspath] of a relative path joined to a directory reads the path
    below what it reads for the directory. *)
Lemma abs_input_join cwd dir r :
  Str.startswith r "/" = false ->
  abs_input cwd (posixpath.join dir r) = dir_prefix (abs_input cwd dir) +:+ r.
Proof.
  intros Hr. rewrite join_relative by exact Hr.
  unfold abs_input, posixpath.isabs. destruct dir as [|a dir].
  - change (dir_prefix EmptyString) with EmptyString.
    rewrite str_app_nil_l, Hr. cbn [Str.startswith].
    rewrite !join_relative by (exact Hr || reflexivity).
    rewrite str_app_nil_r, dir_prefix_idem. reflexivity.
  - destruct (dir_prefix_head a dir) as [t Ht]. rewrite Ht, str_app_cons.
    cbn [Str.startswith]. destruct (Ascii.eqb a "/") eqn:Ea; cbn [andb].
    + rewrite <- str_app_cons, <- Ht. reflexivity.
    + rewrite <- str_app_cons, <- Ht.
      rewrite !join_relative.
      * rewrite dir_prefix_app, str_app_assoc. reflexivity.
      * cbn [Str.startswith]. rewrite Ea. reflexivity.
      * rewrite Ht, str_app_cons. cbn [Str.startswith]. rewrite Ea.
        reflexivity.
Qed.

Lemma abs_input_isabs cwd dir :
  posixpath.isabs cwd = true -> posixpath.isabs (abs_input cwd dir) = true.
Proof.
  intros Hc. unfold abs_input. destruct (posixpath.isabs dir) eqn:E; [exact E|].
  rewrite join_relative by exact E. unfold posixpath.isabs in *.
  apply startswith_app_l. destruct cwd as [|a cwd]; [discriminate|].
  destruct (dir_prefix_head a cwd) as [t ->]. exact Hc.
Qed.

Lemma comps_extend q ns :
  ns <> [] -> Forall (fun b => plain_name b = true) ns ->
  posixpath.norm_comps 1
    (Str.split posixpath.sep (dir_prefix q +:+ Str.join "/" ns)) []
  = posixpath.norm_comps 1 (Str.split posixpath.sep q) [] ++ ns.
Proof.
  intros Hne Hplain.
  assert (Hsep : Forall (fun x => Str.contains "/" x = false) ns).
  { eapply Forall_impl; [exact Hplain|]. intros b Hb.
    apply plain_name_spec in Hb as [[_ Hb] _]. exact Hb. }
  assert (Hsplit : forall x,
             posixpath.norm_comps 1
               (Str.split posixpath.sep ((x +:+ "/") +:+ Str.join "/" ns)) []
             = posixpath.norm_comps 1 (Str.split posixpath.sep x) [] ++ ns).
  { intros x. rewrite str_app_assoc, str_app_cons, str_app_nil_l.
    unfold posixpath.sep. rewrite split_app_sep, (split_join "/") by assumption.
    rewrite norm_comps_app. apply norm_comps_plain, Hplain. }
  unfold dir_prefix. destruct q as [|a q].
  - cbn [Str.nonempty negb orb]. rewrite str_app_nil_l.
    unfold posixpath.sep. rewrite (split_join "/") by assumption.
    rewrite norm_comps_plain by exact Hplain. reflexivity.
  - cbn [Str.nonempty negb orb].
    destruct (Str.endswith (String a q) "/") eqn:E; [|apply Hsplit].
    apply endswith_spec in E as [x ->]. rewrite Hsplit.
    change (x +:+ "/") with (x +:+ String "/" EmptyString).
    unfold posixpath.sep. rewrite split_app_sep, norm_comps_app. reflexivity.
Qed.

Lemma common_len_app l ns : posixpath.common_len l (l ++ ns) = length l.
Proof.
  induction l as [|a l IH]; [destruct ns; reflexivity|].
  cbn [app posixpath.common_len length]. rewrite String.eqb_refl, IH.
  reflexivity.
Qed.

Lemma skipn_length_app {A} (l ns : list A) : skipn (length l) (l ++ ns) = ns.
Proof. induction l as [|a l IH]; [reflexivity | exact IH]. Qed.

Lemma join_plain_relative ns :
  ns <> [] -> Forall (fun b => plain_name b = true) ns ->
  Str.startswith (Str.join "/" ns) "/" = false
  /\ Str.nonempty (Str.join "/" ns) = true.
Proof.
  intros Hne H. destruct ns as [|a l]; [congruence|].
  apply List.Forall_cons_iff in H as [Ha _].
  apply plain_name_spec in Ha as [Ha _].
  destruct (join_clean_head a l Ha) as [c [t [-> Hc]]].
  cbn [Str.startswith Str.nonempty]. rewrite Hc. auto.
Qed.

(** Relative to a directory, a path made by joining names to the
    directory is those names again. *)
Lemma relpath_join cwd dir ns :
  posixpath.isabs cwd = true ->
  ns <> [] -> Forall (fun b => plain_name b = true) ns ->
  posixpath.relpath_nonempty cwd (posixpath.join dir (Str.join "/" ns)) dir
  = Str.join "/" ns.
Proof.
  intros Hcwd Hne Hplain.
  destruct (join_plain_relative ns Hne Hplain) as [Hrel _].
  unfold posixpath.relpath_nonempty, posixpath.abspath.
  change (if posixpath.isabs dir then dir else posixpath.join cwd dir)
    with (abs_input cwd dir).
  change (if posixpath.isabs (posixpath.join dir (Str.join "/" ns))
          then posixpath.join dir (Str.join "/" ns)
          else posixpath.join cwd (posixpath.join dir (Str.join "/" ns)))
    with (abs_input cwd (posixpath.join dir (Str.join "/" ns))).
  rewrite abs_input_join by exact Hrel.
  pose proof (abs_input_isabs cwd dir Hcwd) as Habs.
  rewrite !abs_components.
  - rewrite comps_extend by assumption.
    rewrite common_len_app, Nat.sub_diag, skipn_length_app. cbn [repeat app].
    destruct ns; [congruence | reflexivity].
  - unfold posixpath.isabs in *. apply startswith_app_l.
    destruct (abs_input cwd dir) as [|a q]; [discriminate|].
    destruct (dir_prefix_head a q) as [t ->]. exact Habs.
  - exact Habs.
Qed.

Lemma basename_dir_prefix dir : posixpath.basename (dir_prefix dir) = EmptyString.
Proof.
  destruct (dir_prefix_shape dir) as [-> | [x ->]]; [reflexivity|].
  unfold posixpath.basename, posixpath.after_sep, posixpath.sep.
  rewrite (rfind_last "/" x EmptyString eq_refl).
  replace (Z.to_nat (Z.of_nat (String.length x) + 1))
    with (String.length x + 1)%nat by lia.
  rewrite str_drop_app_ge. reflexivity.
Qed.

Lemma basename_join dir name :
  Str.contains "/" name = false ->
  posixpath.basename (posixpath.join dir name) = name.
Proof.
  intros H. rewrite join_leaf by exact H.
  rewrite basename_app_leaf by exact H.
  rewrite basename_dir_prefix. apply str_app_nil_l.
Qed.

(** X14. A file created directly in the watched directory under a name
    that ends with .xml in any letter case is handed to the safe copy,
    with the same name in the destination directory as its target. *)
Theorem direct_child_is_copied
    (self : CopyHandler) (name : string) (w : world) :
  posixpath.isabs (cwd w) = true ->
  plain_name name = true ->
  Str.endswith (Str.lower name) ".xml" = true ->
  on_created self
    {| src_path := posixpath.join (source_dir self) name;
       is_directory := false |} w
  = copy_file_safely self (posixpath.join (source_dir self) name)
      (posixpath.join (dest_dir self) name) default_retries default_delay w.
Proof.
  intros Hcwd Hname Hxml.
  pose proof (plain_name_spec _ Hname) as [[_ Hsep] _].
  rewrite on_created_accepted.
  - unfold event_dest_path. cbn [src_path].
    rewrite basename_join by exact Hsep. reflexivity.
  - reflexivity.
  - unfold event_rel_path. cbn [src_path].
    change name with (Str.join "/" [name]) at 1.
    rewrite relpath_join; [exact Hsep | exact Hcwd | discriminate|].
    constructor; [exact Hname | constructor].
  - cbn [src_path]. rewrite join_leaf by exact Hsep.
    rewrite lower_app. apply endswith_app_r, Hxml.
Qed.

Lemma direct_child_is_copied_witness :
  on_created ex_handler
    {| src_path := posixpath.join "/src" "Report.XML"; is_directory := false |}
    (ex_world [])
  = copy_file_safely ex_handler (posixpath.join "/src" "Report.XML")
      (posixpath.join "/dst" "Report.XML") default_retries default_delay
      (ex_world []).
Proof.
  apply (direct_child_is_copied ex_handler "Report.XML" (ex_world []));
    reflexivity.
Defined.

(** X15. Whatever is created below a subdirectory of the watched
    directory is ignored: the event leaves no trace and changes nothing. *)
Theorem nested_file_is_ignored
    (self : CopyHandler) (sub : string) (names : list string)
    (isdir : bool) (w : world) :
  posixpath.isabs (cwd w) = true ->
  plain_name sub = true ->
  names <> [] -> Forall (fun b => plain_name b = true) names ->
  on_created self
    {| src_path := posixpath.join (source_dir self)
                     (Str.join "/" (sub :: names));
       is_directory := isdir |} w
  = (Done tt, w).
Proof.
  intros Hcwd Hsub Hne Hnames. unfold on_created.
  destruct isdir; [apply on_created_directory; reflexivity|].
  assert (Hall : Forall (fun b => plain_name b = true) (sub :: names)).
  { constructor; assumption. }
  destruct (join_plain_relative (sub :: names) ltac:(discriminate) Hall)
    as [Hrel Hnonempty].
  apply on_created_nested.
  - cbn [src_path]. rewrite join_relative by exact Hrel.
    destruct (dir_prefix (source_dir self)); [|reflexivity].
    rewrite str_app_nil_l. exact Hnonempty.
  - unfold event_rel_path. cbn [src_path].
    rewrite relpath_join; [|exact Hcwd | discriminate | exact Hall].
    destruct names as [|b names]; [congruence|].
    rewrite join_cons, !contains_app. cbn [Str.contains Ascii.eqb Bool.eqb].
    rewrite orb_true_r. reflexivity.
Qed.

Lemma nested_file_is_ignored_witness :
  on_created ex_handler
    {| src_path := posixpath.join "/src" (Str.join "/" ["sub"; "a.xml"]);
       is_directory := false |} (ex_world [])
  = (Done tt, ex_world []).
Proof.
  apply (nested_file_is_ignored ex_handler "sub" ["a.xml"] false (ex_world []));
    try reflexivity; [discriminate | repeat constructor].
Defined.

(* ================================================================== *)
(** * The logger of the service *)
(* ================================================================== *)

Lemma logger_of_set name l st : logger_of (set_logger name l st) name = l.
Proof. unfold logger_of, set_logger. cbn [loggers]. rewrite lookup_insert_eq. reflexivity. Qed.

Lemma logger_of_set_ne name name' l st :
  name <> name' -> logger_of (set_logger name l st) name' = logger_of st name'.
Proof.
  intros H. unfold logger_of, set_logger. cbn [loggers].
  rewrite lookup_insert_ne by exact H. reflexivity.
Qed.

Lemma logger_of_emit e st name : logger_of (log_emit e st) name = logger_of st name.
Proof. reflexivity. Qed.

(** What a call that gets as far as the [logging] module leaves behind. *)
Lemma setup_logger_configures env log_dir log_file max_bytes backup_count st :
  (if path_exists env log_dir then None else makedirs_failure env log_dir)
  = None ->
  let base :=
    posixpath.abspath (log_cwd st) (posixpath.join log_dir log_file) in
  let r := setup_logger env log_dir log_file max_bytes backup_count st in
  service_level (snd r) = Some INFO
  /\ (forall name, name <> service_logger_name ->
                   logger_of (snd r) name = logger_of st name)
  /\ log_cwd (snd r) = log_cwd st
  /\ match open_failure env base with
     | Some e =>
         fst r = Raised e
         /\ service_handlers (snd r) = service_handlers st
     | None =>
         fst r = Done service_logger_name
         /\ service_handlers (snd r)
            = match service_handlers st with
              | [] => [handler_for (log_cwd st) log_dir log_file max_bytes
                                   backup_count]
              | hs => hs
              end
         /\ In (OpenAppend base None) (log_trace (snd r))
     end.
Proof.
  intros Hdir. cbv zeta.
  destruct (setup_logger env log_dir log_file max_bytes backup_count st)
    as [o st'] eqn:Hr.
  cbn [fst snd]. revert Hr.
  unfold setup_logger. unfold lbind at 1. unfold log_path_exists.
  unfold lbind at 1.
  assert (Hdir' : exists t,
            (if negb (path_exists env log_dir)
             then os_makedirs env log_dir else lret tt)
              (log_emit (PathExists log_dir (path_exists env log_dir)) st)
            = (Done tt, LoggingWorld (loggers st) (log_cwd st) t)).
  { destruct (path_exists env log_dir); cbn [negb]; [eexists; reflexivity|].
    unfold os_makedirs. rewrite Hdir. eexists. reflexivity. }
  destruct Hdir' as [t ->].
  unfold lbind, logging_getLogger, logger_setLevel, RotatingFileHandler,
    logger_get_handlers, logger_addHandler, lret, service_level,
    service_handlers, logger_of, set_logger, log_emit.
  cbn [loggers log_cwd log_trace].
  rewrite !lookup_insert_eq. cbn [logger_level logger_handlers].
  destruct (open_failure env _) as [e|].
  - intros Hr. injection Hr as <- <-. cbn [loggers log_cwd].
    rewrite !lookup_insert_eq. cbn [logger_level logger_handlers].
    repeat split; try reflexivity.
    intros name Hname. rewrite !lookup_insert_ne by congruence. reflexivity.
  - cbn [loggers log_cwd log_trace]. rewrite !lookup_insert_eq.
    cbn [logger_level logger_handlers].
    destruct (loggers st !! service_logger_name) as [[lvl [|h hs]]|];
      cbn [logger_level logger_handlers];
      intros Hr; injection Hr as <- <-;
      cbn [loggers log_cwd log_trace];
      rewrite ?lookup_insert_eq; cbn [logger_level logger_handlers app];
      (repeat split; try reflexivity;
       [ intros name Hname; rewrite !lookup_insert_ne by congruence;
         reflexivity
       | apply in_or_app; right; left; reflexivity ]).
Qed.

Lemma setup_logger_no_directory env log_dir log_file max_bytes backup_count st e :
  (if path_exists env log_dir then None else makedirs_failure env log_dir)
  = Some e ->
  setup_logger env log_dir log_file max_bytes backup_count st
  = (Raised e,
     log_emit (MakeDirs log_dir (Some e))
       (log_emit (PathExists log_dir false) st)).
Proof.
  intros H. unfold setup_logger. unfold lbind at 1. unfold log_path_exists.
  destruct (path_exists env log_dir); [discriminate|]. cbn [negb].
  unfold lbind, os_makedirs. rewrite H. reflexivity.
Qed.

(** X16. [setup_logger] attaches a handler only to a logger that has
    none.  On a logger without handlers a call that succeeds leaves
    exactly one, which writes to the file [log_file] of [log_dir] with
    the rotation parameters and the format of the call, and the level
    INFO; a call that fails leaves none.  On a logger that has handlers
    no call changes them, whatever its arguments and its outcome. *)
Theorem setup_logger_attaches_once
    (env : log_environment) (log_dir log_file : string)
    (max_bytes backup_count : Z) (st : logging_world) :
  let r := setup_logger env log_dir log_file max_bytes backup_count st in
  (service_handlers st <> [] -> service_handlers (snd r) = service_handlers st)
  /\ (service_handlers st = [] ->
      match fst r with
      | Done logger =>
          logger = service_logger_name
          /\ service_handlers (snd r)
             = [handler_for (log_cwd st) log_dir log_file max_bytes backup_count]
          /\ service_level (snd r) = Some INFO
      | _ => service_handlers (snd r) = []
      end).
Proof.
  cbv zeta.
  destruct (if path_exists env log_dir then None
            else makedirs_failure env log_dir) as [e|] eqn:Hdir.
  - rewrite (setup_logger_no_directory _ _ _ _ _ _ _ Hdir). cbn [fst snd].
    split; [reflexivity | intros H; exact H].
  - pose proof (setup_logger_configures env log_dir log_file max_bytes
                  backup_count st Hdir) as H.
    cbv zeta in H. destruct H as [Hlvl [_ [_ H]]].
    destruct (open_failure env _) as [e|].
    + destruct H as [-> ->]. split; [reflexivity | intros H; exact H].
    + destruct H as [-> [-> _]]. split.
      * intros Hne. destruct (service_handlers st); [congruence | reflexivity].
      * intros ->. auto.
Qed.

Lemma setup_logger_attaches_once_witness :
  let r := setup_logger ex_log_env "logs" "backup.log" 1048576 5 ex_logging in
  fst r = Done service_logger_name
  /\ service_handlers (snd r)
     = [handler_for "/srv" "logs" "backup.log" 1048576 5]
  /\ service_level (snd r) = Some INFO.
Proof.
  destruct (setup_logger_attaches_once ex_log_env "logs" "backup.log" 1048576 5
              ex_logging) as [_ H].
  specialize (H eq_refl). cbv zeta.
  destruct (setup_logger ex_log_env "logs" "backup.log" 1048576 5 ex_logging)
    as [[logger | e |] st1] eqn:E; cbn [fst snd] in *.
  - destruct H as [-> H]. split; [reflexivity | exact H].
  - exfalso. vm_compute in E. discriminate E.
  - exfalso. vm_compute in E. discriminate E.
Defined.

(** X17. A second call does not redirect the log: once a call has
    configured the logger, any later call, with whatever directory, file
    name and rotation parameters, leaves the first handler as the only
    one; when it succeeds it returns the same logger, and it has opened
    the file it was called with, to which nothing will be logged. *)
Theorem setup_logger_keeps_first_handler
    (env1 env2 : log_environment) (dir1 file1 dir2 file2 : string)
    (max_bytes1 backup_count1 max_bytes2 backup_count2 : Z)
    (st st1 : logging_world) (logger1 : string) :
  service_handlers st = [] ->
  setup_logger env1 dir1 file1 max_bytes1 backup_count1 st = (Done logger1, st1) ->
  let r2 := setup_logger env2 dir2 file2 max_bytes2 backup_count2 st1 in
  service_handlers (snd r2)
  = [handler_for (log_cwd st) dir1 file1 max_bytes1 backup_count1]
  /\ forall logger2,
       fst r2 = Done logger2 ->
       logger2 = logger1
       /\ In (OpenAppend
                (posixpath.abspath (log_cwd st) (posixpath.join dir2 file2))
                None)
             (log_trace (snd r2)).
Proof.
  intros Hfresh H1. cbv zeta.
  assert (Hfirst : logger1 = service_logger_name
                   /\ service_handlers st1
                      = [handler_for (log_cwd st) dir1 file1 max_bytes1
                                     backup_count1]
                   /\ log_cwd st1 = log_cwd st).
  { destruct (if path_exists env1 dir1 then None
              else makedirs_failure env1 dir1) as [e|] eqn:Hdir.
    - rewrite (setup_logger_no_directory _ _ _ _ _ _ _ Hdir) in H1.
      discriminate.
    - pose proof (setup_logger_configures env1 dir1 file1 max_bytes1
                    backup_count1 st Hdir) as H.
      cbv zeta in H. rewrite H1 in H. cbn [fst snd] in H.
      destruct H as [_ [_ [Hcwd H]]].
      destruct (open_failure env1 _) as [e|].
      + destruct H as [H _]. discriminate.
      + destruct H as [H [Hh _]]. rewrite Hfresh in Hh.
        injection H as ->. auto. }
  destruct Hfirst as [-> [Hh1 Hcwd]].
  destruct (if path_exists env2 dir2 then None
            else makedirs_failure env2 dir2) as [e|] eqn:Hdir.
  - rewrite (setup_logger_no_directory _ _ _ _ _ _ _ Hdir). cbn [fst snd].
    split; [exact Hh1 | discriminate].
  - pose proof (setup_logger_configures env2 dir2 file2 max_bytes2
                  backup_count2 st1 Hdir) as H.
    cbv zeta in H. destruct H as [_ [_ [_ H]]]. rewrite Hcwd in H.
    destruct (open_failure env2 _) as [e|].
    + destruct H as [-> ->]. split; [exact Hh1 | discriminate].
    + destruct H as [-> [-> Hin]]. rewrite Hh1.
      split; [reflexivity|]. intros logger2 E. injection E as <-. auto.
Qed.

Lemma setup_logger_keeps_first_handler_witness :
  let r1 := setup_logger ex_log_env "logs" "backup.log" 1048576 5 ex_logging in
  let r2 := setup_logger ex_log_env "/var/log" "other.log" 10 1 (snd r1) in
  service_handlers (snd r2)
  = [handler_for "/srv" "logs" "backup.log" 1048576 5]
  /\ forall logger2,
       fst r2 = Done logger2 ->
       logger2 = service_logger_name
       /\ In (OpenAppend
                (posixpath.abspath "/srv" (posixpath.join "/var/log" "other.log"))
                None)
             (log_trace (snd r2)).
Proof.
  apply (setup_logger_keeps_first_handler ex_log_env ex_log_env
           "logs" "backup.log" "/var/log" "other.log" 1048576 5 10 1
           ex_logging).
  - reflexivity.
  - reflexivity.
Defined.

(* ================================================================== *)
(** * Edges of the copy and of the worker *)
(* ================================================================== *)

(** X18. Without retries there is no attempt: for [retries <= 0] the
    safe copy of a file that is not temporary resolves a name and
    returns, having copied nothing and logged nothing. *)
Theorem no_attempt_without_retries
    (self : CopyHandler) (src dest : string) (retries : Z) (delay : Q)
    (w : world) :
  retries <= 0 ->
  is_temporary (posixpath.basename src) = false ->
  exists n,
    first_free (fs w) dest n
    /\ copy_file_safely self src dest retries delay w
       = (Done tt,
          World (fs w) (cwd w) (faults w)
            (trace w ++ resolution_probes dest n)).
Proof.
  intros Hr Htmp. destruct w as [m c fl t]. cbn [fs cwd faults trace].
  destruct (first_free_exists m dest) as [n [Hn Hf]]. exists n.
  split; [exact Hf|].
  rewrite (copy_file_safely_resolved _ _ _ _ _ _ _ _ _ n Htmp Hf Hn).
  replace (Z.to_nat retries) with O by lia. reflexivity.
Qed.

Lemma no_attempt_without_retries_witness :
  exists n,
    first_free ex_fs "/dst/a.xml" n
    /\ copy_file_safely ex_handler "/src/a.xml" "/dst/a.xml" 0 (1 # 2)
         (ex_world [])
       = (Done tt,
          World ex_fs "/" [] ([] ++ resolution_probes "/dst/a.xml" n)).
Proof.
  apply (no_attempt_without_retries ex_handler "/src/a.xml" "/dst/a.xml" 0
           (1 # 2) (ex_world [])).
  - lia.
  - reflexivity.
Defined.

Lemma lower_length s : String.length (Str.lower s) = String.length s.
Proof. induction s as [|c s IH]; [reflexivity|]. cbn [Str.lower String.length]. rewrite IH. reflexivity. Qed.

Lemma str_app_inv_suffix a b c d :
  a +:+ b = c +:+ d -> String.length b = String.length d -> b = d.
Proof.
  revert c. induction a as [|x a IH]; intros c H Hl.
  - rewrite str_app_nil_l in H. destruct c as [|y c].
    + rewrite str_app_nil_l in H. exact H.
    + exfalso. apply (f_equal String.length) in H.
      rewrite str_length_app in H. cbn [String.length] in H. lia.
  - destruct c as [|y c].
    + exfalso. apply (f_equal String.length) in H.
      rewrite str_length_app, str_app_nil_l in H. cbn [String.length] in H. lia.
    + rewrite !str_app_cons in H. injection H as _ H. apply (IH c H Hl).
Qed.

(** X19. The suffix rule for temporary files is never what skips a
    created file: a path that passes the extension filter of
    [on_created] has a name that does not end with .tmp, so that
    [copy_file_safely] skips it only for the prefix of a lock file. *)
Theorem tmp_suffix_never_skips_an_event (path : string) :
  Str.endswith (Str.lower path) ".xml" = true ->
  Str.endswith (posixpath.basename path) ".tmp" = false
  /\ is_temporary (posixpath.basename path)
     = Str.startswith (posixpath.basename path) "~$".
Proof.
  intros H.
  assert (Hno : Str.endswith (posixpath.basename path) ".tmp" = false).
  { apply endswith_spec in H as [x H].
    apply lower_suffix in H as [q [t [-> Ht]]].
    assert (Hsep : Str.contains "/" t = false).
    { rewrite <- contains_sep_lower, Ht. reflexivity. }
    rewrite basename_app_leaf by exact Hsep.
    destruct (Str.endswith (posixpath.basename q +:+ t) ".tmp") eqn:E;
      [|reflexivity].
    apply endswith_spec in E as [y E].
    apply str_app_inv_suffix in E.
    - subst t. discriminate.
    - rewrite <- (lower_length t), Ht. reflexivity. }
  split; [exact Hno|]. unfold is_temporary. rewrite Hno. apply orb_false_r.
Qed.

Lemma tmp_suffix_never_skips_an_event_witness :
  Str.endswith (posixpath.basename "/src/draft.tmp.XML") ".tmp" = false
  /\ is_temporary (posixpath.basename "/src/draft.tmp.XML")
     = Str.startswith (posixpath.basename "/src/draft.tmp.XML") "~$".
Proof.
  apply (tmp_suffix_never_skips_an_event "/src/draft.tmp.XML"). reflexivity.
Defined.

(** X20. A name that is nothing but a dot and an extension has no
    extension for the name resolution: the duplicates of such a file get
    the counter at the very end, after the extension. *)
Theorem dotfile_counter_follows_extension
    (dir stem : string) (n : nat) :
  Str.contains "/" stem = false -> Str.contains "." stem = false ->
  candidate (posixpath.join dir ("." +:+ stem)) (S n)
  = posixpath.join dir ("." +:+ stem) +:+ " " +:+ Str.of_int (Z.of_nat (S n)).
Proof.
  intros Hsep Hdot.
  assert (Hleaf : Str.contains "/" ("." +:+ stem) = false).
  { rewrite str_app_cons, str_app_nil_l. cbn [Str.contains]. exact Hsep. }
  rewrite join_leaf by exact Hleaf. unfold candidate.
  set (pre := dir_prefix dir).
  assert (Hpre : Str.rfind "/" (pre +:+ "." +:+ stem)
                 = Z.of_nat (String.length pre) - 1).
  { rewrite rfind_app, (rfind_absent _ _ Hleaf). cbn [Z.leb Z.compare].
    destruct (dir_prefix_shape dir) as [E | [x E]]; fold pre in E; rewrite E;
      [reflexivity|].
    rewrite (rfind_last "/" x EmptyString eq_refl), str_length_app.
    cbn [String.length]. lia. }
  assert (Hd : Str.rfind "." (pre +:+ "." +:+ stem)
               = Z.of_nat (String.length pre)).
  { rewrite str_app_cons, str_app_nil_l. apply rfind_last, Hdot. }
  unfold posixpath.splitext, posixpath.sep, posixpath.extsep.
  rewrite Hpre, Hd.
  destruct (Z.ltb_spec (Z.of_nat (String.length pre) - 1)
                       (Z.of_nat (String.length pre))); [|lia].
  replace (Z.to_nat (Z.of_nat (String.length pre)
                     - (Z.of_nat (String.length pre) - 1 + 1))) with O by lia.
  cbn [Str.take Str.all_char]. rewrite str_app_nil_r, !str_app_assoc.
  reflexivity.
Qed.

Lemma dotfile_counter_follows_extension_witness :
  candidate (posixpath.join "/dst" ("." +:+ "xml")) 1
  = posixpath.join "/dst" ("." +:+ "xml") +:+ " " +:+ Str.of_int 1.
Proof.
  apply (dotfile_counter_follows_extension "/dst" "xml" 0); reflexivity.
Defined.




